(** * DeFi-AI-Credit-Sentinel: the scanning engine, embedded and verified

    Shallow embedding of the Python scanners under [src/pythonFile]:
    - [scan_eth_public_rpc.py]   (module [PublicRpc]),
    - [scan_eth_highperf_api.py] (module [HighPerf]),
    - [batch_eth_stats_ai.py]    (module [BatchStats]).

    Python values decoded from JSON are the inductive [pyval]; a Python
    call that can raise returns a [result]; [dict]s with string keys and
    integer values are [gmap string Z], sets of addresses are [gset string].

    Modelling limits, stated once:
    - strings are ASCII text (addresses, hex, decimal); [str.lower] and
      whitespace stripping act on ASCII only;
    - JSON numbers with a fraction (Python [float]) are not in [pyval],
      the balance in ETH (a float division by 1e18) is carried as the wei
      amount it is computed from, and is [None] where that division
      overflows;
    - the interpreter's limits (recursion depth, the optional cap on the
      number of digits accepted by [int]) are not modelled;
    - sleeping and wall-clock time have no counterpart. *)

From Stdlib Require Import ZArith Ascii String List Bool Lia.
From stdpp Require Import base option list gmap strings sorting.

Open Scope string_scope.
Open Scope Z_scope.

(** ** Python exceptions and fallible computations *)

Inductive exn : Type :=
| AttributeError
| TypeError
| ValueError
| KeyError
| IndexError
| AssertionError
| RuntimeError (msg : string)
| TransportError.   (* anything [session.post], [raise_for_status], [resp.json]
                       or a web3 provider call raises *)

Inductive result (A : Type) : Type :=
| Ok (a : A)
| Raise (e : exn).
Arguments Ok {A} a.
Arguments Raise {A} e.

#[global] Instance result_ret : MRet result := fun A a => Ok a.
#[global] Instance result_bind : MBind result := fun A B f r =>
  match r with Ok a => f a | Raise e => Raise e end.
#[global] Instance result_fmap : FMap result := fun A B f r =>
  match r with Ok a => Ok (f a) | Raise e => Raise e end.

Definition is_ok {A} (r : result A) : bool :=
  match r with Ok _ => true | Raise _ => false end.

(** [try: body  except Exception: handler] *)
Definition try_except {A} (body : result A) (handler : A) : A :=
  match body with Ok a => a | Raise _ => handler end.

(** ** Python values as [json] decoding produces them *)

#[warnings="-register-all"]
Inductive pyval : Type :=
| VNone
| VBool (b : bool)
| VInt (z : Z)
| VStr (s : string)
| VList (l : list pyval)
| VDict (kvs : list (string * pyval)).   (* insertion order, keys distinct *)

(** Nested induction: the elements of a list and the values of a dict. *)
Fixpoint pyval_nested_ind (P : pyval -> Prop)
    (HNone : P VNone) (HBool : forall b, P (VBool b)) (HInt : forall z, P (VInt z))
    (HStr : forall s, P (VStr s))
    (HList : forall l, Forall P l -> P (VList l))
    (HDict : forall kvs, Forall (fun kv => P (snd kv)) kvs -> P (VDict kvs))
    (v : pyval) {struct v} : P v :=
  let rec := pyval_nested_ind P HNone HBool HInt HStr HList HDict in
  match v with
  | VNone => HNone
  | VBool b => HBool b
  | VInt z => HInt z
  | VStr s => HStr s
  | VList l =>
      HList l ((fix all (l : list pyval) : Forall P l :=
                  match l with
                  | [] => Forall_nil_2 P
                  | x :: xs => Forall_cons_2 P x xs (rec x) (all xs)
                  end) l)
  | VDict kvs =>
      HDict kvs ((fix all (kvs : list (string * pyval)) : Forall (fun kv => P (snd kv)) kvs :=
                    match kvs with
                    | [] => Forall_nil_2 _
                    | kv :: rest => Forall_cons_2 (fun kv => P (snd kv)) kv rest (rec (snd kv)) (all rest)
                    end) kvs)
  end.

(** [bool(v)] *)
Definition truthy (v : pyval) : bool :=
  match v with
  | VNone => false
  | VBool b => b
  | VInt z => negb (z =? 0)
  | VStr s => negb (String.eqb s "")
  | VList l => match l with [] => false | _ => true end
  | VDict kvs => match kvs with [] => false | _ => true end
  end.

(** [a or b] *)
Definition py_or (a b : pyval) : pyval := if truthy a then a else b.

Definition is_dict (v : pyval) : bool := match v with VDict _ => true | _ => false end.
Definition is_list (v : pyval) : bool := match v with VList _ => true | _ => false end.
Definition is_str (v : pyval) : bool := match v with VStr _ => true | _ => false end.

(** [d.get(k)] on the entries of a dict: [None] of Rocq when the key is absent. *)
Fixpoint dict_get (k : string) (kvs : list (string * pyval)) : option pyval :=
  match kvs with
  | [] => None
  | (k', v) :: rest => if String.eqb k' k then Some v else dict_get k rest
  end.

(** [k in d] *)
Definition dict_has (k : string) (kvs : list (string * pyval)) : bool :=
  match dict_get k kvs with Some _ => true | None => false end.

(** [v.get(k, default)]: only a dict has the method. *)
Definition py_get (v : pyval) (k : string) (dflt : pyval) : result pyval :=
  match v with
  | VDict kvs => Ok (default dflt (dict_get k kvs))
  | _ => Raise AttributeError
  end.

(** ** Strings: [lower], [startswith], [int(s, base)], [str(v)] *)

Definition ord (c : ascii) : Z := Z.of_N (N_of_ascii c).
Definition chr (z : Z) : ascii := ascii_of_N (Z.to_N z).

Definition lower_char (c : ascii) : ascii :=
  if (65 <=? ord c) && (ord c <=? 90) then chr (ord c + 32) else c.

(** [s.lower()] *)
Fixpoint py_lower (s : string) : string :=
  match s with
  | EmptyString => EmptyString
  | String c r => String (lower_char c) (py_lower r)
  end.

(** [s.startswith(p)] *)
Definition startswith (p s : string) : bool := String.prefix p s.

(** The characters [str.strip] treats as blank. *)
Definition is_space (c : ascii) : bool :=
  ((9 <=? ord c) && (ord c <=? 13)) || ((28 <=? ord c) && (ord c <=? 32)).

Fixpoint lstrip (cs : list ascii) : list ascii :=
  match cs with
  | c :: r => if is_space c then lstrip r else cs
  | [] => []
  end.

Definition strip (cs : list ascii) : list ascii := rev (lstrip (rev (lstrip cs))).

(** The blanks [int] skips around a literal: the tab, the line breaks and
    the space, without the separators 28 to 31 that [str.strip] removes. *)
Definition is_int_space (c : ascii) : bool :=
  ((9 <=? ord c) && (ord c <=? 13)) || (ord c =? 32).

Fixpoint int_lstrip (cs : list ascii) : list ascii :=
  match cs with
  | c :: r => if is_int_space c then int_lstrip r else cs
  | [] => []
  end.

Definition int_strip (cs : list ascii) : list ascii :=
  rev (int_lstrip (rev (int_lstrip cs))).

(** [s.strip()] *)
Definition py_strip (s : string) : string :=
  string_of_list_ascii (strip (list_ascii_of_string s)).

(** The value of a character as a digit of a base up to 36. *)
Definition digit_value (c : ascii) : option Z :=
  let n := ord c in
  if (48 <=? n) && (n <=? 57) then Some (n - 48)
  else if (97 <=? n) && (n <=? 122) then Some (n - 87)
  else if (65 <=? n) && (n <=? 90) then Some (n - 55)
  else None.

(** The digits of a literal, after sign and prefix: one underscore is
    allowed between two digits, none in front ([prev_us] starts [true]),
    none at the end, and there is at least one digit. *)
Fixpoint scan_digits (base : Z) (cs : list ascii) (acc : Z) (prev_us : bool) : option Z :=
  match cs with
  | [] => if prev_us then None else Some acc
  | c :: r =>
      if Ascii.eqb c "_" then
        if prev_us then None else scan_digits base r acc true
      else
        match digit_value c with
        | Some d => if d <? base then scan_digits base r (acc * base + d) false else None
        | None => None
        end
  end.

(** An optional sign in front. *)
Definition split_sign (cs : list ascii) : bool * list ascii :=
  match cs with
  | "+"%char :: r => (false, r)
  | "-"%char :: r => (true, r)
  | _ => (false, cs)
  end.

Definition skip_underscore (cs : list ascii) : list ascii :=
  match cs with
  | "_"%char :: r => r
  | _ => cs
  end.

(** For base 16, an optional [0x] or [0X], after which one underscore is
    allowed. *)
Definition skip_prefix (base : Z) (cs : list ascii) : list ascii :=
  if base =? 16 then
    match cs with
    | "0"%char :: x :: r =>
        if Ascii.eqb x "x" || Ascii.eqb x "X" then skip_underscore r else cs
    | _ => cs
    end
  else cs.

(** [int(s, base)] for [base] 10 or 16: blanks around, a sign, the prefix
    of the base, digits. *)
Definition py_int_of_string (base : Z) (s : string) : result Z :=
  let '(neg, cs) := split_sign (int_strip (list_ascii_of_string s)) in
  match scan_digits base (skip_prefix base cs) 0 true with
  | Some n => Ok (if neg then - n else n)
  | None => Raise ValueError
  end.

(** [int(v)] for a value that is not routed through [int(s, 16)]. *)
Definition py_int (v : pyval) : result Z :=
  match v with
  | VInt z => Ok z
  | VBool b => Ok (if b then 1 else 0)
  | VStr s => py_int_of_string 10 s
  | VNone | VList _ | VDict _ => Raise TypeError
  end.

(** [n / 1e18] first converts the integer [n] to a [float], rounding to the
    nearest one: from 2^1024 - 2^970 on the nearest is out of range and the
    division raises [OverflowError]. *)
Definition fits_float (n : Z) : bool := Z.abs n <? 2 ^ 1024 - 2 ^ 970.

(** [v > 0]: defined between numbers ([bool] is a number), a [TypeError]
    otherwise. *)
Definition py_gt0 (v : pyval) : result bool :=
  match v with
  | VInt z => Ok (0 <? z)
  | VBool b => Ok b
  | VNone | VStr _ | VList _ | VDict _ => Raise TypeError
  end.

(** *** Rendering numbers: [str(n)] and [hex(n)] *)

Definition digit_char (d : Z) : ascii :=
  if d <? 10 then chr (48 + d) else chr (87 + d).

(** Little-endian digits of a non-negative [n]; the fuel is its bit length. *)
Fixpoint digits_le (base : Z) (fuel : nat) (n : Z) : list Z :=
  match fuel with
  | O => [n]
  | S f => if n <? base then [n] else (n mod base) :: digits_le base f (n / base)
  end.

Definition to_digits (base n : Z) : list Z :=
  rev (digits_le base (Z.to_nat (Z.log2 n)) n).

Definition digits_string (base n : Z) : string :=
  string_of_list_ascii (map digit_char (to_digits base n)).

(** [str(n)] for an integer. *)
Definition dec_string (n : Z) : string :=
  if n <? 0 then String "-" (digits_string 10 (- n)) else digits_string 10 n.

(** [hex(n)] for a non-negative integer. *)
Definition hex_string (n : Z) : string := "0x" ++ digits_string 16 n.

(** [hex(n)] *)
Definition py_hex (n : Z) : string :=
  if n <? 0 then String "-" (hex_string (- n)) else hex_string n.

(** [repr(s)] of an ASCII string: the quote is the apostrophe, unless [s]
    has an apostrophe and no double quote; the quote, the backslash and the
    control characters are escaped. *)
Definition apostrophe : ascii := chr 39.
Definition double_quote : ascii := chr 34.

Definition has_char (c : ascii) (s : string) : bool :=
  existsb (Ascii.eqb c) (list_ascii_of_string s).

Definition escape_char (q c : ascii) : string :=
  if Ascii.eqb c q || Ascii.eqb c "\" then String "\" (String c EmptyString)
  else if ord c =? 9 then "\t"
  else if ord c =? 10 then "\n"
  else if ord c =? 13 then "\r"
  else if (ord c <? 32) || (ord c =? 127) then
    "\x" ++ String (digit_char (ord c / 16)) (String (digit_char (ord c mod 16)) EmptyString)
  else String c EmptyString.

Definition repr_string (s : string) : string :=
  let q := if has_char apostrophe s && negb (has_char double_quote s)
           then double_quote else apostrophe in
  String q (String.concat "" (map (escape_char q) (list_ascii_of_string s)) ++ String q EmptyString).

Definition join_comma (parts : list string) : string := String.concat ", " parts.

(** [repr(v)] *)
Fixpoint py_repr (v : pyval) : string :=
  match v with
  | VNone => "None"
  | VBool true => "True"
  | VBool false => "False"
  | VInt z => dec_string z
  | VStr s => repr_string s
  | VList l => "[" ++ join_comma (map py_repr l) ++ "]"
  | VDict kvs =>
      "{" ++ join_comma (map (fun '(k, x) => repr_string k ++ ": " ++ py_repr x) kvs) ++ "}"
  end.

(** [str(v)]: the string itself, the [repr] of anything else. *)
Definition py_str (v : pyval) : string :=
  match v with
  | VStr s => s
  | _ => py_repr v
  end.

(** ** Counting internal transfers in a trace payload

    [count_internal_receives] is written twice, in [scan_eth_public_rpc.py]
    and in [scan_eth_highperf_api.py]; the loop body of the [trace_block]
    branch and the closure [dfs] of the [debug_trace] branch are the same in
    both and are embedded once.  The [nonlocal cnt] of the source is threaded
    through as an argument and a result. *)

(** [v == s] for a string literal [s]. *)
Definition eq_str (v : pyval) (s : string) : bool :=
  match v with VStr x => String.eqb x s | _ => false end.

(** [for x in v]: the items of a list, the keys of a dict, the characters of
    a string; nothing else is iterable. *)
Definition py_iter (v : pyval) : result (list pyval) :=
  match v with
  | VList l => Ok l
  | VDict kvs => Ok (map (fun kv => VStr (fst kv)) kvs)
  | VStr s => Ok (map (fun c => VStr (String c EmptyString)) (list_ascii_of_string s))
  | VNone | VBool _ | VInt _ => Raise TypeError
  end.

(** [typ in ("call", "create", "suicide")] *)
Definition is_transfer_kind (typ : pyval) : bool :=
  eq_str typ "call" || eq_str typ "create" || eq_str typ "suicide".

(** The value of a flat trace entry, [val = action.get("value", 0)]: a
    string is converted, [int(val, 16)] when it starts with [0x] and
    [int(val or 0)] when not; anything else is left as it is. *)
Definition flat_value (val : pyval) : result pyval :=
  match val with
  | VStr s =>
      if startswith "0x" s then VInt <$> py_int_of_string 16 s
      else VInt <$> py_int (py_or val (VInt 0))
  | _ => Ok val
  end.

(** The body of the [try] in the [trace_block] loop for one entry [t]:
    [Ok true] when it reaches [cnt += 1], [Ok false] when it ends without
    (including the [continue] on the kind), [Raise] when it raises. *)
Definition flat_entry_hit (target : string) (t : pyval) : result bool :=
  typ ← py_get t "type" VNone;
  if negb (is_transfer_kind typ) then Ok false
  else
    a ← py_get t "action" (VDict []);
    let action := py_or a (VDict []) in
    to_v ← py_get action "to" (VStr "");
    let to := py_lower (py_str to_v) in
    val0 ← py_get action "value" (VInt 0);
    val ← flat_value val0;
    (* [to == target and val > 0]: [and] evaluates its right side only when
       the left side holds *)
    if String.eqb to target then py_gt0 val else Ok false.

(** The [trace_block] loop over the entries: [except Exception: continue]. *)
Definition count_flat (target : string) (entries : list pyval) (cnt : Z) : Z :=
  fold_left (fun c t => if try_except (flat_entry_hit target t) false then c + 1 else c)
            entries cnt.

(** The value of a call-tree node, for [v = node.get("value", "0x0")]:
    [int(v, 16) if isinstance(v, str) and v.startswith("0x") else int(v or 0)]. *)
Definition tree_value (v : pyval) : result Z :=
  match v with
  | VStr s =>
      if startswith "0x" s then py_int_of_string 16 s else py_int (py_or v (VInt 0))
  | _ => py_int (py_or v (VInt 0))
  end.

Definition node_value (kvs : list (string * pyval)) : result Z :=
  tree_value (default (VStr "0x0") (dict_get "value" kvs)).

(** [str(node.get("to", "")).lower()] *)
Definition node_to (kvs : list (string * pyval)) : string :=
  py_lower (py_str (default (VStr "") (dict_get "to" kvs))).

(** [dfs(node)], the whole body being inside [try ... except Exception: return].
    A node that is not a dict has no [get]: the exception ends the call.
    The inner [calls] finds [node.get("calls", []) or []]: only a list has
    children to visit, since a falsy value is replaced by [[]], iterating a
    dict or a string yields strings, on which [dfs] returns at once, and
    iterating a number raises, which ends the call with the count as it is. *)
Fixpoint dfs (target : string) (node : pyval) (cnt : Z) {struct node} : Z :=
  match node with
  | VDict kvs =>
      match node_value kvs with
      | Raise _ => cnt
      | Ok val =>
          let cnt1 := if String.eqb (node_to kvs) target && (0 <? val) then cnt + 1 else cnt in
          (fix calls (es : list (string * pyval)) : Z :=
             match es with
             | [] => cnt1
             | (k, v) :: rest =>
                 if String.eqb k "calls" then
                   match v with
                   | VList cs => fold_left (fun c child => dfs target child c) cs cnt1
                   | _ => cnt1
                   end
                 else calls rest
             end) kvs
      end
  | _ => cnt
  end.

(** One top-level item of a [debug_trace] payload:
    [root = v.get("result") or v; if isinstance(root, dict): dfs(root)].
    This statement is outside any [try]. *)
Definition debug_root (target : string) (v : pyval) (cnt : Z) : result Z :=
  r ← py_get v "result" VNone;
  let root := py_or r v in
  Ok (if is_dict root then dfs target root cnt else cnt).

Fixpoint debug_items (target : string) (items : list pyval) (cnt : Z) : result Z :=
  match items with
  | [] => Ok cnt
  | v :: rest => c ← debug_root target v cnt; debug_items target rest c
  end.

(** The [debug_trace] branch: the values of a dict, the items of a list,
    nothing for any other payload. *)
Definition count_debug (target : string) (payload : pyval) : result Z :=
  match payload with
  | VDict kvs => debug_items target (map snd kvs) 0
  | VList l => debug_items target l 0
  | _ => Ok 0
  end.

(** ** The emitted row, the same schema in all three scripts *)

Module AddressStats.
Record t : Type := mk {
  address : string;
  eth_balance : option Z;
  total_txs : Z;
  sent_txs : Z;
  received_txs : Z;
  sent_to_contract_txs : Z;
  received_from_contract_txs : Z;
  external_txs : Z;
  internal_txs : Z
}.
End AddressStats.

(** [sorted] on strings: lexicographic on the character codes. *)
Definition str_le (a b : string) : Prop := String.leb a b = true.
#[global] Instance str_le_dec a b : Decision (str_le a b).
Proof. unfold str_le. apply _. Defined.

Definition sorted_strings (l : list string) : list string := merge_sort str_le l.

(** [add(d, k, inc)]: [d[k] = d.get(k, 0) + inc] *)
Definition add (d : gmap string Z) (k : string) (inc : Z) : gmap string Z :=
  <[k := default 0 (d !! k) + inc]> d.

Module PublicRpc.

(** [scan_eth_public_rpc.count_internal_receives]: the [trace_block] branch
    iterates the payload whatever it is. *)
Definition count_internal_receives
    (trace_method trace_payload : pyval) (target_addr : string) : result Z :=
  let target := py_lower target_addr in
  if eq_str trace_method "trace_block" then
    entries ← py_iter trace_payload;
    Ok (count_flat target entries 0)
  else if eq_str trace_method "debug_trace" then
    count_debug target trace_payload
  else Ok 0.


(** *** The provider

    [w3] is what the scan talks to.  Each oracle takes the number of
    provider calls made before it, so that an answer may change from one
    call to the next; [calls] in the state is the log of these calls,
    latest first.  [get_block_with_retries] is taken with its outcome, the
    transactions of the block ([block.transactions or []], each a dict) or
    the exception it gives up with. *)

Inductive rpc_call : Type :=
| GetBlock (bn : Z)
| GetCode (addr : string)
| GetReceipt (tx_hash : string)
| MakeRequest (method : string)
| GetBalance (addr : string).

Definition tx_data : Type := list (string * pyval).

Record Web3 : Type := mkWeb3 {
  to_checksum_address : string -> result string;
  get_block_with_retries : nat -> Z -> result (list tx_data);
  get_code : nat -> string -> result string;
  get_transaction_receipt : nat -> string -> result pyval;   (* [r.status] *)
  make_request : nat -> string -> list pyval -> result pyval;
  get_balance : nat -> string -> result Z
}.

(** [is_contract]: the cache and the call log are passed and returned. *)
Definition is_contract (w3 : Web3) (addr : string)
    (cache : gmap string bool) (calls : list rpc_call)
    : result bool * gmap string bool * list rpc_call :=
  if String.eqb addr "" then (Ok false, cache, calls)
  else
    match to_checksum_address w3 addr with
    | Raise e => (Raise e, cache, calls)
    | Ok al =>
        match cache !! py_lower al with
        | Some b => (Ok b, cache, calls)
        | None =>
            match get_code w3 (length calls) al with
            | Raise e => (Raise e, cache, GetCode al :: calls)
            | Ok code =>
                let ok := negb (String.eqb code "") in
                (Ok ok, <[py_lower al := ok]> cache, GetCode al :: calls)
            end
        end
    end.

(** [get_tx_status]: 1 when the receipt has [status == 1], 0 when it has
    not or when the lookup raises. *)
Definition get_tx_status (w3 : Web3) (tx_hash_hex : string) (calls : list rpc_call)
    : Z * list rpc_call :=
  let st := match get_transaction_receipt w3 (length calls) tx_hash_hex with
            | Ok (VInt 1) | Ok (VBool true) => 1
            | _ => 0
            end in
  (st, GetReceipt tx_hash_hex :: calls).

(** The first [try] of [try_trace_block] returns when the answer is a dict
    whose ["result"] is a list; an exception or any other answer falls
    through to the second. *)
Definition trace_block_payload (res : result pyval) : option pyval :=
  match res with
  | Ok (VDict kvs) =>
      match dict_get "result" kvs with
      | Some (VList l) => Some (VList l)
      | _ => None
      end
  | _ => None
  end.

(** The second returns when the answer is a dict with a ["result"]. *)
Definition debug_trace_payload (res : result pyval) : option pyval :=
  match res with
  | Ok (VDict kvs) => dict_get "result" kvs
  | _ => None
  end.

(** [try_trace_block] *)
Definition try_trace_block (w3 : Web3) (block_number : Z) (calls : list rpc_call)
    : (pyval * pyval) * list rpc_call :=
  let first := make_request w3 (length calls) "trace_block" [VStr (py_hex block_number)] in
  let calls1 := MakeRequest "trace_block" :: calls in
  match trace_block_payload first with
  | Some payload => ((VStr "trace_block", payload), calls1)
  | None =>
      let params := [VStr (py_hex block_number);
                     VDict [("tracer", VStr "callTracer"); ("timeout", VStr "20s")]] in
      let second := make_request w3 (length calls1) "debug_traceBlockByNumber" params in
      let calls2 := MakeRequest "debug_traceBlockByNumber" :: calls1 in
      match debug_trace_payload second with
      | Some payload => ((VStr "debug_trace", payload), calls2)
      | None => ((VNone, VNone), calls2)
      end
  end.

(** *** [scan_range] *)

Record scan_state : Type := mkScan {
  sent_txs : gmap string Z;
  received_txs : gmap string Z;
  sent_to_contract_txs : gmap string Z;
  internal_recv_from_contract_txs : gmap string Z;
  seen_addrs : gset string;
  contract_cache : gmap string bool;
  calls : list rpc_call
}.

Definition scan_init : scan_state := mkScan ∅ ∅ ∅ ∅ ∅ ∅ [].

(** [frm], [to] and [h_hex] of a transaction.  A [HexBytes] hash stands
    here as the string of its hex digits; the [try] and its handler then
    agree on [h_hex]. *)
Definition tx_from (tx : tx_data) : string :=
  py_lower (py_str (default (VStr "") (dict_get "from" tx))).
Definition tx_to (tx : tx_data) : string :=
  py_lower (py_str (py_or (default VNone (dict_get "to" tx)) (VStr ""))).
Definition tx_hash_hex (tx : tx_data) : string :=
  py_str (py_or (default VNone (dict_get "hash" tx)) (VStr "")).

(** Step 1 of the block loop for one transaction. *)
Definition scan_tx (w3 : Web3) (check_success : bool) (tx : tx_data) (s : scan_state)
    : scan_state :=
  let frm := tx_from tx in
  let to := tx_to tx in
  let '(skip, calls0) :=
    if check_success then
      let '(st, cs) := get_tx_status w3 (tx_hash_hex tx) (calls s) in (negb (st =? 1), cs)
    else (false, calls s) in
  let s0 := mkScan (sent_txs s) (received_txs s) (sent_to_contract_txs s)
                   (internal_recv_from_contract_txs s) (seen_addrs s)
                   (contract_cache s) calls0 in
  if skip then s0
  else
    let s1 :=
      if String.eqb frm "" then s0
      else mkScan (add (sent_txs s0) frm 1) (received_txs s0) (sent_to_contract_txs s0)
                  (internal_recv_from_contract_txs s0) ({[frm]} ∪ seen_addrs s0)
                  (contract_cache s0) (calls s0) in
    if String.eqb to "" then s1
    else
      let '(r, cache', calls') := is_contract w3 to (contract_cache s1) (calls s1) in
      mkScan (sent_txs s1) (add (received_txs s1) to 1)
             (match r with
              | Ok true => add (sent_to_contract_txs s1) frm 1
              | _ => sent_to_contract_txs s1    (* not a contract, or [except: pass] *)
              end)
             (internal_recv_from_contract_txs s1) ({[to]} ∪ seen_addrs s1) cache' calls'.

(** [addrs_in_block] *)
Definition addrs_in_block (txs : list tx_data) : gset string :=
  fold_left (fun acc tx =>
    let f := default VNone (dict_get "from" tx) in
    let t := default VNone (dict_get "to" tx) in
    let acc1 := if truthy f then {[py_lower (py_str f)]} ∪ acc else acc in
    if truthy t then {[py_lower (py_str t)]} ∪ acc1 else acc1) txs ∅.

(** The body of [for addr in addrs_in_block]. *)
Definition trace_addr (method payload : pyval) (addr : string) (s : scan_state)
    : scan_state :=
  match count_internal_receives method payload addr with
  | Ok c =>
      if c =? 0 then s
      else mkScan (sent_txs s) (received_txs s) (sent_to_contract_txs s)
                  (add (internal_recv_from_contract_txs s) addr c)
                  ({[addr]} ∪ seen_addrs s) (contract_cache s) (calls s)
  | Raise _ => s
  end.

(** Step 2 of the block loop. *)
Definition scan_trace (w3 : Web3) (bn : Z) (txs : list tx_data) (s : scan_state)
    : scan_state :=
  let '((method, payload), calls') := try_trace_block w3 bn (calls s) in
  let s0 := mkScan (sent_txs s) (received_txs s) (sent_to_contract_txs s)
                   (internal_recv_from_contract_txs s) (seen_addrs s)
                   (contract_cache s) calls' in
  if truthy method && truthy payload then
    set_fold (trace_addr method payload) s0 (addrs_in_block txs)
  else s0.

(** One turn of [for bn in range(start_block, end_block + 1)]. *)
Definition scan_block (w3 : Web3) (check_success trace_enabled : bool) (bn : Z)
    (s : scan_state) : result scan_state :=
  match get_block_with_retries w3 (length (calls s)) bn with
  | Raise e => Raise e
  | Ok txs =>
      let s0 := mkScan (sent_txs s) (received_txs s) (sent_to_contract_txs s)
                       (internal_recv_from_contract_txs s) (seen_addrs s)
                       (contract_cache s) (GetBlock bn :: calls s) in
      let s1 := fold_left (fun acc tx => scan_tx w3 check_success tx acc) txs s0 in
      Ok (if trace_enabled then scan_trace w3 bn txs s1 else s1)
  end.

Fixpoint scan_blocks (w3 : Web3) (check_success trace_enabled : bool)
    (bns : list Z) (s : scan_state) : result scan_state :=
  match bns with
  | [] => Ok s
  | bn :: rest =>
      s' ← scan_block w3 check_success trace_enabled bn s;
      scan_blocks w3 check_success trace_enabled rest s'
  end.

(** [range(start_block, end_block + 1)] *)
Definition block_range (start_block end_block : Z) : list Z :=
  map (fun i => start_block + Z.of_nat i) (seq 0 (Z.to_nat (end_block - start_block + 1))).

(** [get_balances]: [out[a] = wei / 1e18] inside the [try], the amount being
    kept in wei; a lookup that fails, or an amount that no [float] holds,
    stores [None] for that address. *)
Fixpoint get_balances (w3 : Web3) (addrs : list string) (calls : list rpc_call)
    (out : gmap string (option Z)) : gmap string (option Z) * list rpc_call :=
  match addrs with
  | [] => (out, calls)
  | a :: rest =>
      match to_checksum_address w3 a with
      | Raise _ => get_balances w3 rest calls (<[a := None]> out)
      | Ok al =>
          let calls' := GetBalance al :: calls in
          match get_balance w3 (length calls) al with
          | Ok wei =>
              get_balances w3 rest calls'
                (<[a := if fits_float wei then Some wei else None]> out)
          | Raise _ => get_balances w3 rest calls' (<[a := None]> out)
          end
      end
  end.

(** Step 4: the row of address [a]. *)
Definition build_row (s : scan_state) (balances : gmap string (option Z)) (a : string)
    : AddressStats.t :=
  let ext_sent := default 0 (sent_txs s !! a) in
  let ext_recv := default 0 (received_txs s !! a) in
  let ext_to_contract := default 0 (sent_to_contract_txs s !! a) in
  let internal_recv := default 0 (internal_recv_from_contract_txs s !! a) in
  AddressStats.mk a (default None (balances !! a))
    (ext_sent + ext_recv + internal_recv) ext_sent ext_recv ext_to_contract
    internal_recv (ext_sent + ext_recv) internal_recv.

(** Steps 3 and 4 on the state the block loop ends with. *)
Definition emit_rows (w3 : Web3) (with_balances : bool) (balance_limit : Z)
    (s : scan_state) : list AddressStats.t :=
  let addr_list := sorted_strings (elements (seen_addrs s)) in
  let addr_list := if 0 <? balance_limit then take (Z.to_nat balance_limit) addr_list
                   else addr_list in
  let balances := if with_balances then fst (get_balances w3 addr_list (calls s) ∅) else ∅ in
  map (build_row s balances) addr_list.

(** [scan_range], the rows of the returned [DataFrame]. *)
Definition scan_range (w3 : Web3) (start_block end_block : Z)
    (check_success with_balances : bool) (balance_limit : Z) (trace_enabled : bool)
    : result (list AddressStats.t) :=
  s ← scan_blocks w3 check_success trace_enabled (block_range start_block end_block) scan_init;
  Ok (emit_rows w3 with_balances balance_limit s).

End PublicRpc.

Module Reconnect.

(** *** The retry helpers of [scan_eth_public_rpc.py]

    A provider call returns, or raises one of the network errors
    ([SSLError], [ProtocolError], [ConnectionError], [TimeoutError]), or
    raises something else. *)
Inductive attempt (A : Type) : Type :=
| Returned (a : A)
| NetworkError
| OtherError (e : exn).
Arguments Returned {A} a.
Arguments NetworkError {A}.
Arguments OtherError {A} e.

(** What a helper ends with: [NameError] is raised for a name that is not
    bound, [SystemExit] by [connect_any]. *)
Inductive outcome (A : Type) : Type :=
| Returns (a : A)
| Raises (e : exn)
| RaisesNameError (name : string)
| Exits.
Arguments Returns {A} a.
Arguments Raises {A} e.
Arguments RaisesNameError {A} name.
Arguments Exits {A}.

(** The names the [except] clauses can refer to: the imports of the module
    and the builtins. *)
Definition bound_names : list string :=
  ["SSLError"; "ReqConnErr"; "ProtocolError"; "URLLibSSLError"; "ContractLogicError";
   "TimeoutError"; "ValueError"; "Exception"; "SystemExit"; "RuntimeError"].

(** An [except] clause is matched by evaluating its names in turn: the
    first one that is not bound, if any. *)
Definition unbound_name (clause : list string) : option string :=
  List.find (fun n => negb (existsb (String.eqb n) bound_names)) clause.

(** [except <clause>: handler], entered with an exception: the [NameError]
    of an unbound name replaces it. *)
Definition except {B : Type} (clause : list string) (name_error : string -> B)
    (handler : B) : B :=
  match unbound_name clause with
  | Some name => name_error name
  | None => handler
  end.

(** The first [except] clause of [get_block_with_retries] and of
    [get_latest_block_with_retries]. *)
Definition block_clause : list string :=
  ["SSLError"; "URLLibSSLError"; "ProtocolError"; "ReqConnErr"; "TimeoutError"].
Definition latest_clause : list string :=
  ["ReqSSLError"; "URLSSLError"; "ProtocolError"; "ReqConnErr"; "TimeoutError"].

(** The provider as the helpers see it: [usable k ep] tells whether, at
    the [k]-th attempt, a connection to [ep] can be made and answers
    [net.version]; [get_block k ep bn] is what the [k]-th attempt does
    through the connection to [ep], and [block_number k ep] likewise. *)
Record Provider (A : Type) : Type := mkProvider {
  usable : nat -> string -> bool;
  get_block : nat -> string -> Z -> attempt A;
  block_number : nat -> string -> attempt Z
}.
Arguments mkProvider {A} usable get_block block_number.
Arguments usable {A} p k ep.
Arguments get_block {A} p k ep bn.
Arguments block_number {A} p k ep.

(** [connect_any]: the first endpoint that can be used; [None] stands for
    the [SystemExit] it raises when there is none. *)
Definition connect_any (can_use : string -> bool) (endpoints : list string) : option string :=
  List.find can_use endpoints.

(** [get_block_with_retries], the body of [while True] from the attempt
    after [attempt]; [w3] is the endpoint of the connection in use.
    [endpoints] is [None] when the caller passed none: [connect_any] then
    iterates [None], and its [TypeError] leaves the handler.  The result
    comes with the number of attempts made; [None] when [fuel] turns of
    the loop did not end it. *)
Fixpoint block_loop {A} (p : Provider A) (bn : Z) (endpoints : option (list string))
    (max_retry : Z) (fuel : nat) (attempt : nat) (w3 : string)
    : option (outcome A * nat) :=
  match fuel with
  | O => None
  | S fuel' =>
      let attempt := S attempt in
      match get_block p attempt w3 bn with
      | Returned b => Some (Returns b, attempt)
      | NetworkError =>
          except block_clause (fun name => Some (RaisesNameError name, attempt))
            match endpoints with
            | None => Some (Raises TypeError, attempt)
            | Some eps =>
                (* [except SystemExit: pass] keeps the connection in use *)
                let w3' := default w3 (connect_any (usable p attempt) eps) in
                if Z.of_nat attempt >=? max_retry
                then Some (Raises (RuntimeError ("max retries exceeded for block "
                                                 ++ dec_string bn)), attempt)
                else block_loop p bn endpoints max_retry fuel' attempt w3'
            end
      | OtherError e =>
          except block_clause (fun name => Some (RaisesNameError name, attempt))
            (if Z.of_nat attempt <=? max_retry
             then block_loop p bn endpoints max_retry fuel' attempt w3
             else Some (Raises e, attempt))
      end
  end.

(** [get_block_with_retries]: no attempt goes beyond the one after
    [max_retry]. *)
Definition get_block_with_retries {A} (p : Provider A) (w3 : string) (bn : Z)
    (endpoints : option (list string)) (max_retry : Z) : option (outcome A * nat) :=
  block_loop p bn endpoints max_retry (S (Z.to_nat max_retry)) 0 w3.

(** [get_latest_block_with_retries], the body of
    [for attempt in range(1, max_retry + 1)] over the attempts left; the
    result comes with the number of attempts made. *)
Fixpoint latest_loop {A} (p : Provider A) (endpoints : list string)
    (attempts : list nat) (w3 : string) : outcome Z * nat :=
  match attempts with
  | [] => (Raises (RuntimeError "max retries exceeded when fetching latest block_number"), O)
  | attempt :: rest =>
      let again w3' := let '(r, n) := latest_loop p endpoints rest w3' in (r, S n) in
      match block_number p attempt w3 with
      | Returned n => (Returns n, 1%nat)
      | NetworkError =>
          except latest_clause (fun name => (RaisesNameError name, 1%nat))
            match connect_any (usable p attempt) endpoints with
            | None => (Exits, 1%nat)
            | Some w3' => again w3'
            end
      | OtherError _ =>
          except latest_clause (fun name => (RaisesNameError name, 1%nat)) (again w3)
      end
  end.

Definition get_latest_block_with_retries {A} (p : Provider A) (w3 : string)
    (endpoints : list string) (max_retry : Z) : outcome Z * nat :=
  latest_loop p endpoints (seq 1 (Z.to_nat max_retry)) w3.

End Reconnect.

Module HighPerf.

(** *** [RPCClient]: the transport

    What the client does to the outside world is kept in two fields that
    the source does not have: [sent], the number of POSTs issued so far,
    which the network may depend on, and [trace], the warnings printed and
    the calls of [_rotate_endpoint], latest first. *)

Inductive event : Type :=
| Warn (url : string) (attempt : Z)   (* the [rpc warn] line of a failed attempt *)
| Rotate.                             (* a call of [_rotate_endpoint] *)

Record RPCClient : Type := mkClient {
  endpoints : list string;
  max_retries : Z;
  _endpoint_idx : nat;
  _id : Z;
  sent : nat;
  trace : list event
}.

(** [__init__]: [assert endpoints]. *)
Definition init (eps : list string) (retries : Z) : result RPCClient :=
  match eps with
  | [] => Raise AssertionError
  | _ => Ok (mkClient eps retries 0 0 0 [])
  end.

(** The network: what the [n]-th POST of the session, sent to [url] with
    [payload], comes back with: the decoded body, or an exception (no
    connection, timeout, a status that [raise_for_status] rejects, a body
    that is not JSON). *)
Definition network : Type := nat -> string -> pyval -> result pyval.

Definition _next_id (c : RPCClient) : Z * RPCClient :=
  (_id c + 1,
   mkClient (endpoints c) (max_retries c) (_endpoint_idx c) (_id c + 1) (sent c) (trace c)).

(** [self.endpoints[self._endpoint_idx % len(self.endpoints)]]; the pool is
    not empty, by the assertion of [__init__]. *)
Definition _cur_endpoint (c : RPCClient) : string :=
  nth (_endpoint_idx c mod length (endpoints c)) (endpoints c) "".

Definition _rotate_endpoint (c : RPCClient) : RPCClient :=
  mkClient (endpoints c) (max_retries c)
           ((_endpoint_idx c + 1) mod length (endpoints c))
           (_id c) (sent c) (Rotate :: trace c).

Definition note_sent (c : RPCClient) : RPCClient :=
  mkClient (endpoints c) (max_retries c) (_endpoint_idx c) (_id c) (S (sent c)) (trace c).

Definition warn (url : string) (attempt : Z) (c : RPCClient) : RPCClient :=
  mkClient (endpoints c) (max_retries c) (_endpoint_idx c) (_id c) (sent c)
           (Warn url attempt :: trace c).

(** The loop of [_post]: [todo] iterations are left, the next one is
    number [attempt]. *)
Fixpoint post_loop (net : network) (payload : pyval) (todo : nat) (attempt : Z)
    (c : RPCClient) : result pyval * RPCClient :=
  match todo with
  | O => (Raise (RuntimeError "RPC POST failed after retries across endpoints"), c)
  | S todo' =>
      let url := _cur_endpoint c in
      match net (sent c) url payload with
      | Ok body => (Ok body, note_sent c)
      | Raise _ =>
          let c1 := warn url attempt (note_sent c) in
          let c2 := if (2 <=? attempt) && (1 <? length (endpoints c1))%nat
                    then _rotate_endpoint c1 else c1 in
          post_loop net payload todo' (attempt + 1) c2
      end
  end.

(** [_post]: [for attempt in range(1, self.max_retries + 1)]. *)
Definition _post (net : network) (payload : pyval) (c : RPCClient)
    : result pyval * RPCClient :=
  post_loop net payload (Z.to_nat (max_retries c)) 1 c.

Definition request (id : Z) (method : string) (params : list pyval) : pyval :=
  VDict [("jsonrpc", VStr "2.0"); ("id", VInt id);
         ("method", VStr method); ("params", VList params)].

(** [call] *)
Definition call (net : network) (method : string) (params : list pyval)
    (c : RPCClient) : result pyval * RPCClient :=
  let '(id, c1) := _next_id c in
  match _post net (request id method params) c1 with
  | (Raise e, c2) => (Raise e, c2)
  | (Ok res, c2) =>
      match res with
      | VDict kvs =>
          match dict_get "error" kvs with
          | Some err => (Raise (RuntimeError ("RPC error: " ++ py_str err)), c2)
          | None => (py_get res "result" VNone, c2)
          end
      | _ => (py_get res "result" VNone, c2)
      end
  end.

(** The comprehension that builds [req], one fresh id per call. *)
Fixpoint batch_requests (calls : list (string * list pyval)) (c : RPCClient)
    : list pyval * RPCClient :=
  match calls with
  | [] => ([], c)
  | (m, p) :: rest =>
      let '(id, c1) := _next_id c in
      let '(reqs, c2) := batch_requests rest c1 in
      (request id m p :: reqs, c2)
  end.

(** Keys of a Python dict: [None], booleans, integers and strings are
    hashable, where [True == 1] and [False == 0]; lists and dicts are not. *)
Definition hashable (k : pyval) : bool :=
  match k with VList _ | VDict _ => false | _ => true end.

Definition key_eq (a b : pyval) : bool :=
  match a, b with
  | VNone, VNone => true
  | VStr x, VStr y => String.eqb x y
  | (VInt _ | VBool _), (VInt _ | VBool _) =>
      match py_int a, py_int b with
      | Ok x, Ok y => x =? y
      | _, _ => false
      end
  | _, _ => false
  end.

(** [by_id = {item.get("id"): item for item in res}], as the association
    list of the insertions, latest first; a later item replaces an earlier
    one with an equal key. *)
Fixpoint build_by_id (res : list pyval) (acc : list (pyval * pyval))
    : result (list (pyval * pyval)) :=
  match res with
  | [] => Ok acc
  | item :: rest =>
      k ← py_get item "id" VNone;
      if hashable k then build_by_id rest ((k, item) :: acc)
      else Raise TypeError
  end.

(** [by_id.get(k, {})] *)
Fixpoint by_id_get (k : pyval) (m : list (pyval * pyval)) : pyval :=
  match m with
  | [] => VDict []
  | (k', item) :: rest => if key_eq k' k then item else by_id_get k rest
  end.

(** One turn of the loop that fills [out]. Every [item] was stored by
    [build_by_id] or is [{}], hence a dict. *)
Definition extract (item : pyval) : result pyval :=
  match item with
  | VDict kvs =>
      match dict_get "error" kvs with
      | Some err => Ok (VDict [("error", err)])
      | None => Ok (default VNone (dict_get "result" kvs))
      end
  | _ => Raise TypeError
  end.

Fixpoint collect (req : list pyval) (m : list (pyval * pyval)) : result (list pyval) :=
  match req with
  | [] => Ok []
  | r :: rest =>
      id ← match r with
           | VDict kvs => match dict_get "id" kvs with
                          | Some id => Ok id
                          | None => Raise KeyError
                          end
           | _ => Raise TypeError
           end;
      x ← extract (by_id_get id m);
      xs ← collect rest m;
      Ok (x :: xs)
  end.

(** What [batch] does with the body [res] that [_post] returned. *)
Definition batch_collect (req : list pyval) (res : pyval) : result (list pyval) :=
  match res with
  | VList items =>
      m ← build_by_id items [];
      collect req m
  | VDict kvs =>
      match dict_get "error" kvs with
      | Some err => Raise (RuntimeError ("Batch RPC error: " ++ py_str err))
      | None => Raise (RuntimeError "Unexpected batch response format")
      end
  | _ => Raise (RuntimeError "Unexpected batch response format")
  end.

(** [batch] *)
Definition batch (net : network) (calls : list (string * list pyval))
    (c : RPCClient) : result (list pyval) * RPCClient :=
  match calls with
  | [] => (Ok [], c)
  | _ =>
      let '(req, c1) := batch_requests calls c in
      match _post net (VList req) c1 with
      | (Raise e, c2) => (Raise e, c2)
      | (Ok res, c2) => (batch_collect req res, c2)
      end
  end.

(** *** Trace helpers *)

Definition trace_block (net : network) (bn_hex : string) (c : RPCClient)
    : result (pyval * pyval) * RPCClient :=
  match call net "trace_block" [VStr bn_hex] c with
  | (Ok res, c1) => (Ok (VStr "trace_block", res), c1)
  | (Raise e, c1) => (Raise e, c1)
  end.

Definition debug_trace_block (net : network) (bn_hex : string) (c : RPCClient)
    : result (pyval * pyval) * RPCClient :=
  let params := [VStr bn_hex;
                 VDict [("tracer", VStr "callTracer"); ("timeout", VStr "20s")]] in
  match call net "debug_traceBlockByNumber" params c with
  | (Ok res, c1) => (Ok (VStr "debug_trace", res), c1)
  | (Raise e, c1) => (Raise e, c1)
  end.

(** [try_trace_one_block]: two [try] blocks, each with [except Exception: pass]. *)
Definition try_trace_one_block (net : network) (bn : Z) (c : RPCClient)
    : (pyval * pyval) * RPCClient :=
  let bn_hex := py_hex bn in
  match trace_block net bn_hex c with
  | (Ok r, c1) => (r, c1)
  | (Raise _, c1) =>
      match debug_trace_block net bn_hex c1 with
      | (Ok r, c2) => (r, c2)
      | (Raise _, c2) => ((VNone, VNone), c2)
      end
  end.

(** *** [fetch_blocks]

    The tasks of [asyncio.gather] run interleaved and switch only at an
    [await].  A window task has two atomic parts: [Enter], from acquiring
    the semaphore to sending its batch (the ids of [req] are drawn here),
    and [Finish], from the arrival of the body to the release of the
    semaphore (the writes into [blocks] happen here).  The attempts that
    [_post] makes for concurrent windows share the client; what [_post]
    ends with for the window at [start_idx] that sent [req] is given by
    [reply start_idx req].  A schedule is the list of parts in the order
    they ran. *)

Definition window : nat := 20.

(** [block_numbers[start_idx:start_idx+window]] *)
Definition slice (start_idx : nat) (block_numbers : list Z) : list Z :=
  take window (drop start_idx block_numbers).

Definition block_calls (slice_nums : list Z) : list (string * list pyval) :=
  map (fun n => ("eth_getBlockByNumber", [VStr (py_hex n); VBool true])) slice_nums.

(** [range(0, n, window)] *)
Definition window_starts (n : nat) : list nat :=
  map (fun k => (k * window)%nat) (seq 0 ((n + window - 1) / window)).

Inductive fetch_event : Type :=
| Enter (start_idx : nat)
| Finish (start_idx : nat).

Record fetch_state : Type := mkFetch {
  client : RPCClient;
  permits : Z;                          (* the value of [sem] *)
  waiting : list nat;                   (* tasks still before [async with sem] *)
  inflight : list (nat * list pyval);   (* tasks awaiting their batch, with [req] *)
  blocks : list pyval
}.

(** [for i, r in enumerate(res): blocks[start_idx + i] = r] *)
Fixpoint write_window (idx : nat) (res : list pyval) (buf : list pyval)
    : result (list pyval) :=
  match res with
  | [] => Ok buf
  | r :: rest =>
      if (idx <? length buf)%nat then write_window (S idx) rest (<[idx := r]> buf)
      else Raise IndexError
  end.

Fixpoint inflight_get (w : nat) (l : list (nat * list pyval)) : option (list pyval) :=
  match l with
  | [] => None
  | (w', req) :: rest => if (w' =? w)%nat then Some req else inflight_get w rest
  end.

Definition inflight_del (w : nat) (l : list (nat * list pyval)) : list (nat * list pyval) :=
  List.filter (fun e => negb (fst e =? w)%nat) l.

Definition reply_oracle : Type := nat -> list pyval -> result pyval.

(** The rest of [batch] once the body has arrived; an empty [calls]
    returns [[]] without a request. *)
Definition window_result (reply : reply_oracle) (w : nat) (req : list pyval)
    : result (list pyval) :=
  match req with
  | [] => Ok []
  | _ => res ← reply w req; batch_collect req res
  end.

(** Runs a schedule. [None]: the schedule is not a run of the program to
    its end (a part that cannot run at that point, or tasks left over);
    [Some (Raise e)]: a task raised [e], which [gather] passes on. *)
Fixpoint run_schedule (reply : reply_oracle) (block_numbers : list Z)
    (sched : list fetch_event) (s : fetch_state) : option (result (list pyval)) :=
  match sched with
  | [] =>
      match waiting s, inflight s with
      | [], [] => Some (Ok (blocks s))
      | _, _ => None
      end
  | Enter w :: rest =>
      if bool_decide (w ∈ waiting s) && (0 <? permits s) then
        let '(req, c1) := batch_requests (block_calls (slice w block_numbers)) (client s) in
        run_schedule reply block_numbers rest
          (mkFetch c1 (permits s - 1) (List.filter (fun x => negb (x =? w)%nat) (waiting s))
                   ((w, req) :: inflight s) (blocks s))
      else None
  | Finish w :: rest =>
      match inflight_get w (inflight s) with
      | None => None
      | Some req =>
          match res ← window_result reply w req; write_window w res (blocks s) with
          | Raise e => Some (Raise e)
          | Ok buf =>
              run_schedule reply block_numbers rest
                (mkFetch (client s) (permits s + 1) (waiting s)
                         (inflight_del w (inflight s)) buf)
          end
      end
  end.

(** [fetch_blocks]: [asyncio.Semaphore] rejects a negative value. *)
Definition fetch_blocks (reply : reply_oracle) (c : RPCClient)
    (block_numbers : list Z) (concurrency : Z) (sched : list fetch_event)
    : option (result (list pyval)) :=
  let buf := replicate (length block_numbers) VNone in
  if concurrency <? 0 then Some (Raise ValueError)
  else run_schedule reply block_numbers sched
         (mkFetch c concurrency (window_starts (length block_numbers)) [] buf).

(** [scan_eth_highperf_api.count_internal_receives]: the [trace_block]
    branch first checks [isinstance(payload, list)]. *)
Definition count_internal_receives
    (trace_method payload : pyval) (target : string) : result Z :=
  let target := py_lower target in
  if eq_str trace_method "trace_block" then
    match payload with
    | VList entries => Ok (count_flat target entries 0)
    | _ => Ok 0
    end
  else if eq_str trace_method "debug_trace" then
    count_debug target payload
  else Ok 0.

(** *** Latest block, codes and balances *)

(** [int(v, 16)]: with an explicit base only a string is converted. *)
Definition py_int16 (v : pyval) : result Z :=
  match v with
  | VStr s => py_int_of_string 16 s
  | _ => Raise TypeError
  end.

(** [get_latest_block] *)
Definition get_latest_block (net : network) (c : RPCClient) : result Z * RPCClient :=
  match call net "eth_blockNumber" [] c with
  | (Raise e, c1) => (Raise e, c1)
  | (Ok latest_hex, c1) => (py_int16 latest_hex, c1)
  end.

(** [range(0, n, step)]: a zero step is refused, a negative one gives
    nothing. *)
Definition range_from_zero (n : nat) (step : Z) : result (list nat) :=
  if step =? 0 then Raise ValueError
  else if step <? 0 then Ok []
  else Ok (map (fun k => (k * Z.to_nat step)%nat)
               (seq 0 ((n + Z.to_nat step - 1) / Z.to_nat step))).

(** [for addr, x in zip(chunk, res): out[addr.lower()] = decode(x)] *)
Fixpoint store_results {V : Type} (decode : pyval -> V) (chunk : list string)
    (res : list pyval) (out : gmap string V) : gmap string V :=
  match chunk, res with
  | addr :: chunk', x :: res' =>
      store_results decode chunk' res' (<[py_lower addr := decode x]> out)
  | _, _ => out
  end.

(** [batch_get_code] and [batch_get_balance] are the same loop over the
    chunks [addrs[i:i+batch_size]], one [batch] of [method] calls per chunk;
    they differ in [method] and in what they store for an answer, [decode].
    The loop is embedded once, over the starts [i] of the chunks. *)
Fixpoint lookup_chunks {V : Type} (net : network) (method : string)
    (decode : pyval -> V) (addrs : list string) (block_tag : string) (batch_size : nat)
    (starts : list nat) (out : gmap string V) (c : RPCClient)
    : result (gmap string V) * RPCClient :=
  match starts with
  | [] => (Ok out, c)
  | i :: rest =>
      let chunk := take batch_size (drop i addrs) in
      let calls := map (fun a => (method, [VStr a; VStr block_tag])) chunk in
      match batch net calls c with
      | (Raise e, c1) => (Raise e, c1)
      | (Ok res, c1) =>
          lookup_chunks net method decode addrs block_tag batch_size rest
                        (store_results decode chunk res out) c1
      end
  end.

Definition batch_lookup {V : Type} (net : network) (method : string)
    (decode : pyval -> V) (addrs : list string) (block_tag : string) (batch_size : Z)
    (c : RPCClient) : result (gmap string V) * RPCClient :=
  match range_from_zero (length addrs) batch_size with
  | Raise e => (Raise e, c)
  | Ok starts =>
      lookup_chunks net method decode addrs block_tag (Z.to_nat batch_size) starts ∅ c
  end.

(** [bool(code and isinstance(code, str) and code != "0x")] *)
Definition is_contract_code (code : pyval) : bool :=
  truthy code && is_str code && negb (eq_str code "0x").

(** [batch_get_code] *)
Definition batch_get_code (net : network) (addrs : list string) (block_tag : string)
    (batch_size : Z) (c : RPCClient) : result (gmap string bool) * RPCClient :=
  batch_lookup net "eth_getCode" is_contract_code addrs block_tag batch_size c.

(** [try: wei = int(bal_hex, 16); out[...] = wei / 1e18  except: out[...] = None];
    the amount is kept in wei.  The division raises inside the [try] on an
    amount that no [float] holds. *)
Definition balance_of (bal_hex : pyval) : option Z :=
  match py_int16 bal_hex with
  | Ok wei => if fits_float wei then Some wei else None
  | Raise _ => None
  end.

(** [batch_get_balance] *)
Definition batch_get_balance (net : network) (addrs : list string) (block_tag : string)
    (batch_size : Z) (c : RPCClient) : result (gmap string (option Z)) * RPCClient :=
  batch_lookup net "eth_getBalance" balance_of addrs block_tag batch_size c.

End HighPerf.

Module BatchStats.

(** *** The Etherscan client of [batch_eth_stats_ai.py]

    [get_code_body n address] is the decoded body that the [n]-th code
    lookup returns from [_get], or the [requests] exception it raises.
    [get_eth_balance] (in wei), [fetch_external_txs] and
    [fetch_internal_txs] are taken with their outcomes: their paging and
    their retries are not part of what is embedded here. *)
Record Etherscan : Type := mkApi {
  get_code_body : nat -> string -> result pyval;
  get_eth_balance : string -> result Z;
  fetch_external_txs : string -> result (list pyval);
  fetch_internal_txs : string -> result (list pyval)
}.

Record state : Type := mkState {
  contract_cache : gmap string bool;
  lookups : nat                         (* code lookups sent so far *)
}.

(** The body of [is_contract], one attempt. *)
Definition is_contract_body (api : Etherscan) (address : string) (st : state)
    : result bool * state :=
  let al := py_lower address in
  match contract_cache st !! al with
  | Some b => (Ok b, st)
  | None =>
      let st1 := mkState (contract_cache st) (S (lookups st)) in
      match get_code_body api (lookups st) address with
      | Raise e => (Raise e, st1)
      | Ok data =>
          match py_get data "result" (VStr "0x") with
          | Raise e => (Raise e, st1)
          | Ok code =>
              let ok := negb (match code with VNone => true | _ => false end)
                        && negb (eq_str code "0x") in
              (Ok ok, mkState (<[al := ok]> (contract_cache st1)) (lookups st1))
          end
      end
  end.

(** [is_contract] under [@backoff.on_exception(backoff.expo,
    (requests.RequestException,), max_time=90)]: an attempt that raises a
    [requests] exception is repeated while the time allows, here [budget]
    more times; any other exception, and the last one, is passed on. *)
Fixpoint is_contract (api : Etherscan) (budget : nat) (address : string) (st : state)
    : result bool * state :=
  match is_contract_body api address st with
  | (Raise TransportError, st1) =>
      match budget with
      | O => (Raise TransportError, st1)
      | S budget' => is_contract api budget' address st1
      end
  | r => r
  end.

(** [(v or "").lower()]: only a string has [lower]. *)
Definition or_empty_lower (v : pyval) : result string :=
  match py_or v (VStr "") with
  | VStr s => Ok (py_lower s)
  | _ => Raise AttributeError
  end.

Record counts : Type := mkCounts {
  sent_external : Z;
  received_external : Z;
  sent_to_contract : Z
}.

(** One turn of [for tx in ext]. *)
Definition classify_ext_tx (api : Etherscan) (budget : nat) (addr : string)
    (tx : pyval) (n : counts) (st : state) : result counts * state :=
  match
    (e ← py_get tx "isError" VNone;
     if eq_str e "1" then Ok None
     else
       f ← py_get tx "from" VNone; frm ← or_empty_lower f;
       t ← py_get tx "to" VNone; to ← or_empty_lower t;
       Ok (Some (frm, to)))
  with
  | Raise e => (Raise e, st)
  | Ok None => (Ok n, st)
  | Ok (Some (frm, to)) =>
      if String.eqb frm addr then
        if String.eqb to "" then (Ok n, st)
        else
          match is_contract api budget to st with
          | (Raise e, st1) => (Raise e, st1)
          | (Ok true, st1) =>
              (Ok (mkCounts (sent_external n) (received_external n) (sent_to_contract n + 1)), st1)
          | (Ok false, st1) =>
              (Ok (mkCounts (sent_external n + 1) (received_external n) (sent_to_contract n)), st1)
          end
      else if String.eqb to addr then
        (Ok (mkCounts (sent_external n) (received_external n + 1) (sent_to_contract n)), st)
      else (Ok n, st)
  end.

Fixpoint classify_ext (api : Etherscan) (budget : nat) (addr : string)
    (ext : list pyval) (n : counts) (st : state) : result counts * state :=
  match ext with
  | [] => (Ok n, st)
  | tx :: rest =>
      match classify_ext_tx api budget addr tx n st with
      | (Raise e, st1) => (Raise e, st1)
      | (Ok n1, st1) => classify_ext api budget addr rest n1 st1
      end
  end.

(** [for itx in internal] *)
Fixpoint classify_internal (addr : string) (internal : list pyval)
    (received_from_contract : Z) : result Z :=
  match internal with
  | [] => Ok received_from_contract
  | itx :: rest =>
      e ← py_get itx "isError" VNone;
      if eq_str e "1" then classify_internal addr rest received_from_contract
      else
        t ← py_get itx "to" VNone; to ← or_empty_lower t;
        classify_internal addr rest
          (if String.eqb to addr then received_from_contract + 1 else received_from_contract)
  end.

(** [classify_for_address] *)
Definition classify_for_address (api : Etherscan) (budget : nat) (address : string)
    (st : state) : result AddressStats.t * state :=
  let addr := py_lower address in
  match get_eth_balance api address with
  | Raise e => (Raise e, st)
  | Ok balance =>
  match fetch_external_txs api address with
  | Raise e => (Raise e, st)
  | Ok ext =>
  match fetch_internal_txs api address with
  | Raise e => (Raise e, st)
  | Ok internal =>
  match classify_ext api budget addr ext (mkCounts 0 0 0) st with
  | (Raise e, st1) => (Raise e, st1)
  | (Ok n, st1) =>
  match classify_internal addr internal 0 with
  | Raise e => (Raise e, st1)
  | Ok received_from_contract =>
      let total_txs := Z.of_nat (length ext) + Z.of_nat (length internal) in
      (Ok (AddressStats.mk address (Some balance) total_txs
             (sent_external n) (received_external n) (sent_to_contract n)
             received_from_contract
             (Z.of_nat (length ext)) (Z.of_nat (length internal))),
       st1)
  end end end end end.

(** *** Paging through the transaction lists

    [get n action address page] is the decoded body that [_get] returns
    for that page when [n] requests were sent before, or the exception it
    raises. *)
Definition MAX_OFFSET : Z := 10000.

Definition page_getter : Type := nat -> string -> string -> nat -> result pyval.

(** The [while True] of [fetch_external_txs] and of [fetch_internal_txs],
    which differ in [action] only.  A [result] that is not a list, among
    them the message ["No transactions found"], and an empty list both
    leave the loop.  [None] when [fuel] turns did not end it; the result
    comes with the number of requests sent. *)
Fixpoint fetch_pages (get : page_getter) (action address : string) (fuel : nat)
    (page : nat) (all_txs : list pyval) (sent : nat)
    : option (result (list pyval) * nat) :=
  match fuel with
  | O => None
  | S fuel' =>
      match data ← get sent action address page; py_get data "result" (VList []) with
      | Raise e => Some (Raise e, S sent)
      | Ok (VList (tx :: txs)) =>
          let all_txs := (all_txs ++ tx :: txs)%list in
          if Z.of_nat (length (tx :: txs)) <? MAX_OFFSET then Some (Ok all_txs, S sent)
          else fetch_pages get action address fuel' (S page) all_txs (S sent)
      | Ok _ => Some (Ok all_txs, S sent)
      end
  end.

(** The function under [@backoff.on_exception(backoff.expo,
    (requests.RequestException,), max_time=180)]: a run that raises a
    [requests] exception is started again, from the first page and with
    nothing collected, here [budget] more times. *)
Fixpoint fetch_txs (get : page_getter) (action address : string) (fuel budget : nat)
    (sent : nat) : option (result (list pyval) * nat) :=
  match fetch_pages get action address fuel 1 [] sent with
  | Some (Raise TransportError, sent') =>
      match budget with
      | O => Some (Raise TransportError, sent')
      | S budget' => fetch_txs get action address fuel budget' sent'
      end
  | r => r
  end.

Definition fetch_external_txs_paged (get : page_getter) (address : string)
    (fuel budget sent : nat) : option (result (list pyval) * nat) :=
  fetch_txs get "txlist" address fuel budget sent.

Definition fetch_internal_txs_paged (get : page_getter) (address : string)
    (fuel budget sent : nat) : option (result (list pyval) * nat) :=
  fetch_txs get "txlistinternal" address fuel budget sent.

(** *** [load_addresses] and the loop of [main] *)

(** [[x.strip() for x in f if x.strip()]] *)
Definition stripped_lines (lines : list string) : list string :=
  List.filter (fun x => negb (String.eqb x "")) (map py_strip lines).

(** [for a in raw], with [seen] and [out]. *)
Fixpoint dedup (raw : list string) (seen : gset string) (out : list string) : list string :=
  match raw with
  | [] => out
  | a :: rest =>
      let al := py_lower a in
      if decide (al ∈ seen) then dedup rest seen out
      else dedup rest ({[al]} ∪ seen) (out ++ [a])%list
  end.

(** [load_addresses], on the lines of the file. *)
Definition load_addresses (lines : list string) : list string :=
  dedup (stripped_lines lines) ∅ [].

(** [for i, addr in enumerate(addresses, 1)]: an address on which
    [classify_for_address] raises is reported and left out; the contract
    cache is the same dict throughout. *)
Fixpoint classify_all (api : Etherscan) (budget : nat) (addresses : list string)
    (results : list AddressStats.t) (st : state) : list AddressStats.t * state :=
  match addresses with
  | [] => (results, st)
  | addr :: rest =>
      match classify_for_address api budget addr st with
      | (Ok stats, st1) => classify_all api budget rest (results ++ [stats])%list st1
      | (Raise _, st1) => classify_all api budget rest results st1
      end
  end.

(** [main]: [file] is [None] when [addresses.txt] does not exist.  The
    rows written to [eth_stats.json] and [eth_stats.csv]; [None] when
    [main] returns before writing. *)
Definition main (api : Etherscan) (budget : nat) (file : option (list string))
    : option (list AddressStats.t) :=
  match file with
  | None => None
  | Some lines =>
      match load_addresses lines with
      | [] => None
      | addresses => Some (fst (classify_all api budget addresses [] (mkState ∅ 0)))
      end
  end.


End BatchStats.

(** ** Vocabulary of the statements *)

(** [d[k] = v] on the entries of a dict. *)
Fixpoint dict_set (k : string) (v : pyval) (kvs : list (string * pyval))
    : list (string * pyval) :=
  match kvs with
  | [] => [(k, v)]
  | (k', x) :: rest =>
      if String.eqb k' k then (k, v) :: rest else (k', x) :: dict_set k v rest
  end.

(** The three encodings in which a provider sends the amount [n]. *)
Inductive encodes (n : Z) : pyval -> Prop :=
| encodes_int : encodes n (VInt n)
| encodes_dec : encodes n (VStr (dec_string n))
| encodes_hex : encodes n (VStr (hex_string n)).

(** A call-tree node with the fields [kvs] and the value [e]. *)
Definition call_node (kvs : list (string * pyval)) (e : pyval) : pyval :=
  VDict (dict_set "value" e kvs).

(** A flat trace entry with the fields [tkvs], whose action has the fields
    [akvs] and the value [e]. *)
Definition flat_entry (tkvs akvs : list (string * pyval)) (e : pyval) : pyval :=
  VDict (dict_set "action" (VDict (dict_set "value" e akvs)) tkvs).

(** A position in a call tree: the root, or the place between [pre] and
    [post] among the ["calls"] of a parent with the fields [kvs], itself at
    a position. *)
Inductive tree_ctx : Type :=
| Here
| Below (up : tree_ctx) (kvs : list (string * pyval)) (pre post : list pyval).

Fixpoint plug (ctx : tree_ctx) (node : pyval) : pyval :=
  match ctx with
  | Here => node
  | Below up kvs pre post =>
      plug up (VDict (dict_set "calls" (VList (pre ++ node :: post)) kvs))
  end.

(** A top-level item of a [debug_trace] payload holding [tree]: the tree
    itself, or a dict with the fields [okvs] and the tree under ["result"]. *)
Definition trace_item (wrap : option (list (string * pyval))) (tree : pyval) : pyval :=
  match wrap with
  | None => tree
  | Some okvs => VDict (dict_set "result" tree okvs)
  end.

(** [r] is the request of [fetch_blocks] for the block number [n]. *)
Definition block_request (n : Z) (r : pyval) : Prop :=
  exists id, r = HighPerf.request id "eth_getBlockByNumber" [VStr (py_hex n); VBool true].

(** The first trace method fails: the request raises, or its answer is not
    a dict with a list under ["result"]. *)
Definition flat_trace_fails (res : result pyval) : Prop :=
  forall kvs l, res = Ok (VDict kvs) -> dict_get "result" kvs <> Some (VList l).

(** The second trace method fails: the request raises, or its answer is not
    a dict with a ["result"]. *)
Definition tree_trace_fails (res : result pyval) : Prop :=
  forall kvs p, res = Ok (VDict kvs) -> dict_get "result" kvs <> Some p.

Definition tracer_params (bn : Z) : list pyval :=
  [VStr (py_hex bn); VDict [("tracer", VStr "callTracer"); ("timeout", VStr "20s")]].

(** The state [s] with two more requests in its log. *)
Definition after_two_requests (s : PublicRpc.scan_state) : PublicRpc.scan_state :=
  PublicRpc.mkScan (PublicRpc.sent_txs s) (PublicRpc.received_txs s)
    (PublicRpc.sent_to_contract_txs s) (PublicRpc.internal_recv_from_contract_txs s)
    (PublicRpc.seen_addrs s) (PublicRpc.contract_cache s)
    (PublicRpc.MakeRequest "debug_traceBlockByNumber"
       :: PublicRpc.MakeRequest "trace_block" :: PublicRpc.calls s).

(** Counting the events of a transport trace. *)
Fixpoint warnings (tr : list HighPerf.event) : nat :=
  match tr with
  | [] => 0
  | HighPerf.Warn _ _ :: rest => S (warnings rest)
  | HighPerf.Rotate :: rest => warnings rest
  end.

Fixpoint rotations (tr : list HighPerf.event) : nat :=
  match tr with
  | [] => 0
  | HighPerf.Rotate :: rest => S (rotations rest)
  | HighPerf.Warn _ _ :: rest => rotations rest
  end.

(** The id of a request or of a response. *)
Definition id_of (v : pyval) : pyval :=
  match v with
  | VDict kvs => default VNone (dict_get "id" kvs)
  | _ => VNone
  end.

(** [resp] is a response to the request [r]: a dict with the id of [r]. *)
Definition answers (r resp : pyval) : Prop :=
  exists id m p kvs, r = HighPerf.request id m p /\ resp = VDict kvs
                     /\ dict_get "id" kvs = Some (VInt id).

(** What the caller is to get for a response: the error marker when it has
    an ["error"], its ["result"] (or [None]) when not. *)
Definition expected_result (resp : pyval) : pyval :=
  match resp with
  | VDict kvs =>
      match dict_get "error" kvs with
      | Some err => VDict [("error", err)]
      | None => default VNone (dict_get "result" kvs)
      end
  | _ => VNone
  end.

Definition int_keyed (item : pyval) : Prop := exists z, id_of item = VInt z /\ is_dict item = true.

Definition fatal : exn := RuntimeError "RPC POST failed after retries across endpoints".

Definition counts_sum (n : BatchStats.counts) : Z :=
  BatchStats.sent_external n + BatchStats.received_external n + BatchStats.sent_to_contract n.

(** The next [k] POSTs of the session with [payload] fail, whatever endpoint
    they go to. *)
Definition fails_next (net : HighPerf.network) (payload : pyval) (k : nat)
    (c : HighPerf.RPCClient) : Prop :=
  forall j url, (j < k)%nat -> is_ok (net (HighPerf.sent c + j)%nat url payload) = false.

(** Some window task of [fetch_blocks] has not finished; those that wait
    are windows of the input and those in flight have sent a request. *)
Definition pending (block_numbers : list Z) (s : HighPerf.fetch_state) : Prop :=
  (forall w, w ∈ HighPerf.waiting s -> (w < length block_numbers)%nat)
  /\ (forall w req, HighPerf.inflight_get w (HighPerf.inflight s) = Some req -> req <> [])
  /\ (HighPerf.waiting s <> [] \/ HighPerf.inflight s <> []).

(** The provider serves the windows of [block_numbers] with [fetched]: to the
    requests of the window at [w], whatever ids they carry, [_post] ends with
    an array of responses, in some order, one per request, the [j]-th of
    which holds [fetched[w + j]] (a block, [None], or an error). *)
Definition serves (reply : HighPerf.reply_oracle) (block_numbers : list Z)
    (fetched : list pyval) : Prop :=
  forall w req,
    Forall2 block_request (HighPerf.slice w block_numbers) req ->
    NoDup (map id_of req) ->
    exists wire responses,
      reply w req = Ok (VList wire)
      /\ wire ≡ₚ responses
      /\ Forall2 answers req responses
      /\ map expected_result responses = take HighPerf.window (drop w fetched).

(** The entries of the window at [w] are in place in [buf]. *)
Definition window_done (block_numbers : list Z) (fetched : list pyval) (w : nat)
    (buf : list pyval) : Prop :=
  forall j, (j < HighPerf.window)%nat -> (w + j < length block_numbers)%nat ->
            buf !! (w + j)%nat = fetched !! (w + j)%nat.

(** What holds of a state of [fetch_blocks] between two parts of a schedule:
    the buffer keeps its size, the tasks that wait or are in flight are
    windows of the input with well-formed requests, and every other window
    is in place. *)
Definition fetch_inv (block_numbers : list Z) (fetched : list pyval)
    (s : HighPerf.fetch_state) : Prop :=
  length (HighPerf.blocks s) = length block_numbers
  /\ (forall w, w ∈ HighPerf.waiting s -> w ∈ HighPerf.window_starts (length block_numbers))
  /\ (forall w req, HighPerf.inflight_get w (HighPerf.inflight s) = Some req ->
        w ∈ HighPerf.window_starts (length block_numbers)
        /\ Forall2 block_request (HighPerf.slice w block_numbers) req
        /\ NoDup (map id_of req))
  /\ (forall w, w ∈ HighPerf.window_starts (length block_numbers) ->
        w ∈ HighPerf.waiting s \/ is_Some (HighPerf.inflight_get w (HighPerf.inflight s))
        \/ window_done block_numbers fetched w (HighPerf.blocks s)).

(** One window after the other. *)
Definition sequential (starts : list nat) : list HighPerf.fetch_event :=
  flat_map (fun w => [HighPerf.Enter w; HighPerf.Finish w]) starts.

(** A provider that answers each request of a window with the entry of
    [fetched] at its position, and sends the answers in reverse order. *)
Definition echo_blocks (fetched : list pyval) : HighPerf.reply_oracle :=
  fun w req =>
    Ok (VList (rev (zip_with (fun r b => VDict [("id", id_of r); ("result", b)])
                             req (take HighPerf.window (drop w fetched))))).

Definition is_digit_of (base d : Z) : Prop := 0 <= d < base.

(** [node.get("calls", []) or []], as far as it has children to visit. *)
Definition children (kvs : list (string * pyval)) : list pyval :=
  match dict_get "calls" kvs with
  | Some (VList cs) => cs
  | _ => []
  end.

Definition cache_kept (before after : gmap string bool) : Prop :=
  forall k v, before !! k = Some v -> after !! k = Some v.

(** What a node has to say about one address: a result, or an error. *)
Definition answered (a : pyval + pyval) : list (string * pyval) :=
  match a with
  | inl v => [("result", v)]
  | inr e => [("error", e)]
  end.

(** What [batch] hands over for it. *)
Definition delivered (a : pyval + pyval) : pyval :=
  match a with
  | inl v => v
  | inr e => VDict [("error", e)]
  end.

(** The address a lookup request is about, its first parameter. *)
Definition address_of (req : pyval) : string :=
  match req with
  | VDict kvs =>
      match dict_get "params" kvs with
      | Some (VList (VStr a :: _)) => a
      | _ => ""
      end
  | _ => ""
  end.

(** The network answers every batch at the attempt it is sent, with one
    response per request, carrying its id and what [respond] says about its
    address, in an order of its own. *)
Definition answers_lookups (net : HighPerf.network) (respond : string -> pyval + pyval)
    : Prop :=
  forall n url reqs,
    exists wire,
      net n url (VList reqs) = Ok (VList wire)
      /\ wire ≡ₚ map (fun req => VDict (("id", id_of req) :: answered (respond (address_of req))))
                     reqs.

(** [respond] does not tell apart the spellings of [a] that occur in [addrs]. *)
Definition spelled_alike (respond : string -> pyval + pyval) (addrs : list string)
    (a : string) : Prop :=
  forall a', a' ∈ addrs -> py_lower a' = py_lower a -> respond a' = respond a.

(** The number of [Enter] and of [Finish] parts in a schedule. *)
Fixpoint enters (sched : list HighPerf.fetch_event) : Z :=
  match sched with
  | [] => 0
  | HighPerf.Enter _ :: rest => 1 + enters rest
  | HighPerf.Finish _ :: rest => enters rest
  end.

Fixpoint finishes (sched : list HighPerf.fetch_event) : Z :=
  match sched with
  | [] => 0
  | HighPerf.Finish _ :: rest => 1 + finishes rest
  | HighPerf.Enter _ :: rest => finishes rest
  end.

(** A warning names an endpoint of the pool. *)
Definition warned_in_pool (pool : list string) (e : HighPerf.event) : Prop :=
  match e with
  | HighPerf.Warn url _ => url ∈ pool
  | HighPerf.Rotate => True
  end.

(** The response with the integer id [z]. *)
Definition has_id (z : Z) (item : pyval) : bool :=
  match id_of item with
  | VInt z' => z' =? z
  | _ => false
  end.

(** The last response of [wire] with the id [z], if there is one. *)
Definition last_with_id (z : Z) (wire : list pyval) : option pyval :=
  find (has_id z) (rev wire).

(** What the caller gets for the request with the id [z]: the expected
    result of the last response with that id, [None] when there is none. *)
Definition result_for (wire : list pyval) (req : pyval) : pyval :=
  match id_of req with
  | VInt z =>
      match last_with_id z wire with
      | Some item => expected_result item
      | None => VNone
      end
  | _ => VNone
  end.

(** The count of [a] in a counter dict, [d.get(a, 0)]. *)
Definition count_of (d : gmap string Z) (a : string) : Z := default 0 (d !! a).

(** What the block loop of [scan_range] keeps true of its counters: none is
    negative, an address was sent-to-contract no more often than it sent,
    and an address is observed only with a count of its own. *)
Definition counters_ok (s : PublicRpc.scan_state) : Prop :=
  (forall a,
      0 <= count_of (PublicRpc.sent_txs s) a
      /\ 0 <= count_of (PublicRpc.received_txs s) a
      /\ 0 <= count_of (PublicRpc.sent_to_contract_txs s) a
      /\ 0 <= count_of (PublicRpc.internal_recv_from_contract_txs s) a)
  /\ (forall a, a <> "" ->
        count_of (PublicRpc.sent_to_contract_txs s) a <= count_of (PublicRpc.sent_txs s) a)
  /\ (forall a, a ∈ PublicRpc.seen_addrs s ->
        a <> ""
        /\ 1 <= count_of (PublicRpc.sent_txs s) a + count_of (PublicRpc.received_txs s) a
                + count_of (PublicRpc.internal_recv_from_contract_txs s) a).

(** The transactions on a page: a [result] that is not a list has none. *)
Definition page_items (v : pyval) : list pyval :=
  match v with
  | VList l => l
  | _ => []
  end.

(** A page with [MAX_OFFSET] transactions or more, after which the next one
    is asked for. *)
Definition full_page (v : pyval) : Prop :=
  BatchStats.MAX_OFFSET <= Z.of_nat (length (page_items v)).

(** Whenever it is asked, the API answers page [j] of [action] for
    [address] with a body whose [result] is [pages j]. *)
Definition serves_pages (get : BatchStats.page_getter) (action address : string)
    (pages : nat -> pyval) : Prop :=
  forall n j, exists data,
    get n action address j = Ok data /\ py_get data "result" (VList []) = Ok (pages j).

(** The sum of a column over the rows. *)
Definition sum_of (f : AddressStats.t -> Z) (rows : list AddressStats.t) : Z :=
  fold_right Z.add 0 (map f rows).

(** The sum of the counts of the addresses [l] in a counter dict. *)
Definition sum_counts (d : gmap string Z) (l : list string) : Z :=
  fold_right (fun a acc => count_of d a + acc) 0 l.

(** A transaction with a sender, with a receiver. *)
Definition has_sender (tx : PublicRpc.tx_data) : bool :=
  negb (String.eqb (PublicRpc.tx_from tx) "").
Definition has_receiver (tx : PublicRpc.tx_data) : bool :=
  negb (String.eqb (PublicRpc.tx_to tx) "").

(** The number of transactions that satisfy [p]. *)
Definition count_where (p : PublicRpc.tx_data -> bool) (txs : list PublicRpc.tx_data) : Z :=
  Z.of_nat (length (List.filter p txs)).

(** The sent and received counts of the observed addresses add up to [ns]
    and [nr], over whatever list without repetition the observed addresses
    are taken from. *)
Definition tally (s : PublicRpc.scan_state) (ns nr : Z) : Prop :=
  forall l, NoDup l -> (forall a, a ∈ PublicRpc.seen_addrs s -> a ∈ l) ->
    sum_counts (PublicRpc.sent_txs s) l = ns /\ sum_counts (PublicRpc.received_txs s) l = nr.

(** ** Concrete providers for the examples *)

Module Examples.

(** One successful transaction from [0xaa] to [0xcc], which has code. *)
Definition tx_aa_cc : pyval :=
  VDict [("isError", VStr "0"); ("from", VStr "0xaa"); ("to", VStr "0xcc")].

Definition etherscan_one_tx : BatchStats.Etherscan :=
  BatchStats.mkApi (fun _ _ => Ok (VDict [("result", VStr "0x6080")]))
                   (fun _ => Ok 5) (fun _ => Ok [tx_aa_cc]) (fun _ => Ok []).

(** Two accounts, in the checksummed spelling of EIP-55, which the node
    and [Web3.to_checksum_address] use, and in the lower case in which the
    scan counts them. *)
Definition addr_a : string := "0x5aAeb6053F3E94C9b9A09f33669435E7Ef1BeAed".
Definition addr_b : string := "0xfB6916095ca1df60bB79Ce92cE3Ea74c37c5d359".
Definition lower_a : string := "0x5aaeb6053f3e94c9b9a09f33669435e7ef1beaed".
Definition lower_b : string := "0xfb6916095ca1df60bb79ce92ce3ea74c37c5d359".

(** [Web3.to_checksum_address] for the two accounts, in whatever case they
    are written.  The examples ask for no other address: any other string
    is answered like one that is no address, with [ValueError]. *)
Definition checksummed (a : string) : result string :=
  if String.eqb (py_lower a) lower_a then Ok addr_a
  else if String.eqb (py_lower a) lower_b then Ok addr_b
  else Raise ValueError.

(** A node with one block per number, holding one transaction from
    [addr_a] to [addr_b]; [addr_b] has code; [trace_block] is not
    supported, [debug_traceBlockByNumber] shows [addr_b] receiving 10 wei. *)
Definition node_one_tx : PublicRpc.Web3 :=
  PublicRpc.mkWeb3
    checksummed
    (fun _ _ => Ok [[("from", VStr addr_a); ("to", VStr addr_b); ("hash", VStr "01")]])
    (fun _ a => Ok (if String.eqb a addr_b then "code" else ""))
    (fun _ _ => Ok (VInt 1))
    (fun _ m _ =>
       if String.eqb m "trace_block" then Raise TransportError
       else Ok (VDict [("result",
              VList [VDict [("result", VDict [("to", VStr lower_b); ("value", VStr "0xa")])]])]))
    (fun _ _ => Ok 7).

(** The same node without any trace method. *)
Definition node_no_trace : PublicRpc.Web3 :=
  PublicRpc.mkWeb3
    (PublicRpc.to_checksum_address node_one_tx)
    (PublicRpc.get_block_with_retries node_one_tx)
    (PublicRpc.get_code node_one_tx)
    (PublicRpc.get_transaction_receipt node_one_tx)
    (fun _ _ _ => Ok (VDict [("error", VStr "the method does not exist")]))
    (PublicRpc.get_balance node_one_tx).

(** A pool of three endpoints and a network on which the first three
    POSTs of the session fail. *)
Definition three_endpoints : HighPerf.RPCClient :=
  HighPerf.mkClient ["a"; "b"; "c"] 5 0 0 0 [].

Definition fails_thrice : HighPerf.network :=
  fun n _ _ => if (n <? 3)%nat then Raise TransportError else Ok (VStr "ok").

Definition always_down : HighPerf.network := fun _ _ _ => Raise TransportError.

(** The responses to the requests 1 and 2, an error and a result, which a
    provider sends back in the other order. *)
Definition resp_1 : pyval := VDict [("id", VInt 1); ("error", VStr "bad")].
Definition resp_2 : pyval := VDict [("id", VInt 2); ("result", VStr "two")].
Definition answers_reversed : HighPerf.network :=
  fun _ _ _ => Ok (VList [resp_2; resp_1]).
Definition two_calls : list (string * list pyval) :=
  [("eth_getCode", [VStr "0xaa"]); ("eth_getCode", [VStr "0xbb"])].

(** A node that answers every batch in reverse order: [0xBB] has code,
    [0xDD] cannot be looked up, every other address has none. *)
Definition code_at (a : string) : pyval + pyval :=
  if String.eqb (py_lower a) "0xbb" then inl (VStr "0x6080")
  else if String.eqb (py_lower a) "0xdd" then inr (VStr "execution aborted")
  else inl (VStr "0x").

Definition reversing_node : HighPerf.network :=
  fun _ _ payload =>
    match payload with
    | VList reqs =>
        Ok (VList (rev (map (fun req =>
              VDict (("id", id_of req) :: answered (code_at (address_of req)))) reqs)))
    | _ => Ok (VDict [("id", id_of payload); ("result", VStr "0x1f")])
    end.

(** A provider whose first two [get_block] attempts fail on the network and
    whose third returns the block number itself; [block_number] times out. *)
Definition flaky_provider : Reconnect.Provider Z :=
  Reconnect.mkProvider
    (fun _ ep => String.eqb ep "backup")
    (fun k _ bn => if (k <? 3)%nat then Reconnect.NetworkError else Reconnect.Returned bn)
    (fun _ _ => Reconnect.NetworkError).

(** A provider that is down, and one that answers every call with an
    invalid response. *)
Definition dead_provider : Reconnect.Provider Z :=
  Reconnect.mkProvider (fun _ _ => false) (fun _ _ _ => Reconnect.NetworkError)
    (fun _ _ => Reconnect.NetworkError).
Definition confused_provider : Reconnect.Provider Z :=
  Reconnect.mkProvider (fun _ _ => true) (fun _ _ _ => Reconnect.OtherError ValueError)
    (fun _ _ => Reconnect.OtherError ValueError).

(** An API with one full page of transactions and then a rate limit
    notice in place of the second page. *)
Definition limited_api : BatchStats.page_getter :=
  fun _ _ _ page =>
    Ok (VDict [("result",
                if (page =? 1)%nat then VList (replicate (Z.to_nat 10000) tx_aa_cc)
                else VStr "Max rate limit reached")]).

(** An API that answers every page with the same full page. *)
Definition endless_api : BatchStats.page_getter :=
  fun _ _ _ _ => Ok (VDict [("result", VList (replicate (Z.to_nat 10000) tx_aa_cc))]).

End Examples.

(** * Theorems *)

(** ** Rows and their totals *)

Lemma classify_ext_tx_bound api budget addr tx n st n' st' :
  BatchStats.classify_ext_tx api budget addr tx n st = (Ok n', st') ->
  counts_sum n <= counts_sum n' <= counts_sum n + 1.
Proof.
  unfold BatchStats.classify_ext_tx, counts_sum.
  destruct (_ ≫= _) as [[[frm to]|]|]; [| |discriminate].
  - destruct (String.eqb frm addr).
    + destruct (String.eqb to "").
      * intros [= <- _]. lia.
      * destruct (BatchStats.is_contract api budget to st) as [[[]|] ?];
          intros [= <- _]; simpl; lia.
    + destruct (String.eqb to addr); intros [= <- _]; simpl; lia.
  - intros [= <- _]. lia.
Qed.

Lemma classify_ext_bound api budget addr ext :
  forall n st n' st',
    BatchStats.classify_ext api budget addr ext n st = (Ok n', st') ->
    counts_sum n <= counts_sum n' <= counts_sum n + Z.of_nat (length ext).
Proof.
  induction ext as [|tx ext IH]; intros n st n' st'; simpl.
  - intros [= <- _]. lia.
  - destruct (BatchStats.classify_ext_tx api budget addr tx n st) as [[n1|] st1] eqn:Htx;
      [|discriminate].
    intros Hrest. apply classify_ext_tx_bound in Htx. apply IH in Hrest. lia.
Qed.

Lemma build_row_totals s balances a :
  let row := PublicRpc.build_row s balances a in
  AddressStats.total_txs row = AddressStats.external_txs row + AddressStats.internal_txs row
  /\ AddressStats.external_txs row = AddressStats.sent_txs row + AddressStats.received_txs row.
Proof. simpl. split; reflexivity. Qed.

(** C1 as stated fails for the rows of [classify_for_address]: a successful
    transaction sent to a contract is one of the [external_txs] and is
    counted in [sent_to_contract_txs], in neither [sent_txs] nor
    [received_txs]. *)
Lemma classify_row_external_exceeds_sum :
  exists row,
    fst (BatchStats.classify_for_address Examples.etherscan_one_tx 0 "0xaa"
           (BatchStats.mkState ∅ 0)) = Ok row
    /\ AddressStats.external_txs row = 1
    /\ AddressStats.sent_txs row + AddressStats.received_txs row = 0.
Proof. eexists. split; [vm_compute; reflexivity|]. split; reflexivity. Qed.

(** C1, amended.  Every row that [scan_range] emits has
    [total_txs = external_txs + internal_txs] and
    [external_txs = sent_txs + received_txs].  Every row that
    [classify_for_address] emits has [total_txs = external_txs + internal_txs];
    its [external_txs] is the number of fetched external transactions, of
    which [sent_txs], [received_txs] and [sent_to_contract_txs] count disjoint
    parts, so their sum is at most [external_txs]. *)
Theorem emitted_rows_totals :
  (forall w3 start_block end_block check_success with_balances balance_limit
          trace_enabled rows row,
      PublicRpc.scan_range w3 start_block end_block check_success with_balances
        balance_limit trace_enabled = Ok rows ->
      row ∈ rows ->
      AddressStats.total_txs row = AddressStats.external_txs row + AddressStats.internal_txs row
      /\ AddressStats.external_txs row = AddressStats.sent_txs row + AddressStats.received_txs row)
  /\
  (forall api budget address st row st',
      BatchStats.classify_for_address api budget address st = (Ok row, st') ->
      AddressStats.total_txs row = AddressStats.external_txs row + AddressStats.internal_txs row
      /\ AddressStats.sent_txs row + AddressStats.received_txs row
         + AddressStats.sent_to_contract_txs row <= AddressStats.external_txs row).
Proof.
  split.
  - intros w3 sb eb cs wb bl te rows row Hscan Hin.
    unfold PublicRpc.scan_range in Hscan.
    destruct (PublicRpc.scan_blocks _ _ _ _ _) as [s|]; [|discriminate].
    simpl in Hscan. injection Hscan as <-.
    unfold PublicRpc.emit_rows in Hin.
    apply list_elem_of_fmap in Hin as (a & -> & _).
    apply build_row_totals.
  - intros api budget address st row st'. unfold BatchStats.classify_for_address.
    destruct (BatchStats.get_eth_balance api address); [|discriminate].
    destruct (BatchStats.fetch_external_txs api address) as [ext|]; [|discriminate].
    destruct (BatchStats.fetch_internal_txs api address) as [internal|]; [|discriminate].
    destruct (BatchStats.classify_ext _ _ _ _ _ _) as [[n|] st1] eqn:Hext; [|discriminate].
    destruct (BatchStats.classify_internal _ _ _); [|discriminate].
    intros [= <- _]. simpl. split; [reflexivity|].
    apply classify_ext_bound in Hext. unfold counts_sum in Hext. simpl in Hext. lia.
Qed.

Lemma emitted_rows_totals_witness :
  let st := BatchStats.mkState ∅ 0 in
  let row_aa := AddressStats.mk Examples.lower_a (Some 7) 1 1 0 1 0 1 0 in
  let row_bb := AddressStats.mk Examples.lower_b (Some 7) 2 0 1 0 1 1 1 in
  let row_cl := AddressStats.mk "0xaa" (Some 5) 1 0 0 1 0 1 0 in
  (PublicRpc.scan_range Examples.node_one_tx 10 10 false true 0 true = Ok [row_aa; row_bb]
   /\ row_bb ∈ [row_aa; row_bb]
   /\ AddressStats.total_txs row_bb
      = AddressStats.external_txs row_bb + AddressStats.internal_txs row_bb
   /\ AddressStats.external_txs row_bb
      = AddressStats.sent_txs row_bb + AddressStats.received_txs row_bb)
  /\
  (fst (BatchStats.classify_for_address Examples.etherscan_one_tx 0 "0xaa" st) = Ok row_cl
   /\ AddressStats.total_txs row_cl
      = AddressStats.external_txs row_cl + AddressStats.internal_txs row_cl
   /\ AddressStats.sent_txs row_cl + AddressStats.received_txs row_cl
      + AddressStats.sent_to_contract_txs row_cl <= AddressStats.external_txs row_cl).
Proof.
  intros st row_aa row_bb row_cl.
  assert (Hscan : PublicRpc.scan_range Examples.node_one_tx 10 10 false true 0 true
                  = Ok [row_aa; row_bb]) by (vm_compute; reflexivity).
  assert (Hin : row_bb ∈ [row_aa; row_bb]) by (right; left).
  assert (Hcl : BatchStats.classify_for_address Examples.etherscan_one_tx 0 "0xaa" st
                = (Ok row_cl,
                   snd (BatchStats.classify_for_address Examples.etherscan_one_tx 0 "0xaa" st)))
    by (vm_compute; reflexivity).
  split.
  - split; [exact Hscan|]. split; [exact Hin|].
    exact (proj1 emitted_rows_totals _ _ _ _ _ _ _ _ _ Hscan Hin).
  - split; [rewrite Hcl; reflexivity|].
    exact (proj2 emitted_rows_totals _ _ _ _ _ _ Hcl).
Defined.

(** ** The transport: retries, rotation, exhaustion *)

Section Transport.
Import HighPerf.
Variable net : network.
Variable payload : pyval.

Lemma fails_next_step k c c1 :
  fails_next net payload (S k) c -> sent c1 = S (sent c) -> fails_next net payload k c1.
Proof.
  intros H Hs j url Hj. rewrite Hs.
  replace (S (sent c) + j)%nat with (sent c + S j)%nat by lia.
  apply H. lia.
Qed.

(** From the second attempt on, every failure warns once and rotates once
    when the pool has more than one endpoint. *)
Lemma post_loop_retries k :
  forall todo attempt c body,
    (k < todo)%nat -> 2 <= attempt ->
    fails_next net payload k c ->
    (forall url, net (sent c + k)%nat url payload = Ok body) ->
    exists c',
      post_loop net payload todo attempt c = (Ok body, c')
      /\ sent c' = (sent c + k + 1)%nat
      /\ warnings (trace c') = (warnings (trace c) + k)%nat
      /\ rotations (trace c')
         = (rotations (trace c) + (if (1 <? length (endpoints c))%nat then k else 0))%nat
      /\ endpoints c' = endpoints c /\ max_retries c' = max_retries c /\ _id c' = _id c.
Proof.
  induction k as [|k IH]; intros todo attempt c body Htodo Hatt Hfail Hok.
  - destruct todo as [|todo]; [lia|]. simpl.
    replace (sent c + 0)%nat with (sent c) in Hok by lia. rewrite Hok.
    eexists. split; [reflexivity|]. simpl.
    destruct (1 <? length (endpoints c))%nat; repeat split; lia.
  - destruct todo as [|todo]; [lia|]. simpl.
    pose proof (Hfail 0%nat (_cur_endpoint c) ltac:(lia)) as H0.
    replace (sent c + 0)%nat with (sent c) in H0 by lia.
    destruct (net (sent c) (_cur_endpoint c) payload) as [?|e]; [discriminate|].
    replace (2 <=? attempt) with true by (symmetry; apply Z.leb_le; lia). simpl.
    set (c2 := if (1 <? length (endpoints c))%nat then _ else _).
    assert (Hc2 : sent c2 = S (sent c) /\ endpoints c2 = endpoints c
                   /\ max_retries c2 = max_retries c /\ _id c2 = _id c
                   /\ warnings (trace c2) = S (warnings (trace c))
                   /\ rotations (trace c2)
                      = (rotations (trace c)
                         + (if (1 <? length (endpoints c))%nat then 1 else 0))%nat).
    { subst c2. destruct (1 <? length (endpoints c))%nat; simpl; repeat split; lia. }
    destruct Hc2 as (Hs & He & Hm & Hi & Hw & Hr).
    destruct (IH todo (attempt + 1) c2 body) as (c' & Hrun & Hs' & Hw' & Hr' & He' & Hm' & Hi').
    + lia.
    + lia.
    + eapply fails_next_step; eauto.
    + intros url. rewrite <- (Hok url). f_equal. lia.
    + exists c'. split; [exact Hrun|]. rewrite He in Hr'.
      destruct (1 <? length (endpoints c))%nat; repeat split; try congruence; lia.
Qed.

(** With a network that is down, the loop uses up its iterations, warns at
    each and raises at the end. *)
Lemma post_loop_exhausts todo :
  forall attempt c,
    (forall n url, is_ok (net n url payload) = false) ->
    exists c',
      post_loop net payload todo attempt c = (Raise fatal, c')
      /\ sent c' = (sent c + todo)%nat
      /\ warnings (trace c') = (warnings (trace c) + todo)%nat.
Proof.
  induction todo as [|todo IH]; intros attempt c Hdown; simpl.
  - eexists. split; [reflexivity|]. split; lia.
  - pose proof (Hdown (sent c) (_cur_endpoint c)) as H0.
    destruct (net (sent c) (_cur_endpoint c) payload); [discriminate|].
    match goal with
    | |- context [post_loop _ _ _ _ ?x] => set (c2 := x)
    end.
    assert (Hc2 : sent c2 = S (sent c) /\ warnings (trace c2) = S (warnings (trace c))).
    { subst c2. destruct (_ && _); simpl; split; reflexivity. }
    destruct Hc2 as [Hs Hw].
    destruct (IH (attempt + 1) c2 Hdown) as (c' & Hrun & Hs' & Hw').
    exists c'. split; [exact Hrun|]. split; lia.
Qed.

End Transport.

(** C4 as stated fails: with three endpoints and the first three attempts
    failing, the fourth succeeds after two rotations, on the third endpoint. *)
Lemma post_rotates_twice :
  let out := HighPerf._post Examples.fails_thrice VNone Examples.three_endpoints in
  (3 < HighPerf.max_retries Examples.three_endpoints)
  /\ fst out = Ok (VStr "ok")
  /\ warnings (HighPerf.trace (snd out)) = 3%nat
  /\ rotations (HighPerf.trace (snd out)) = 2%nat
  /\ HighPerf._endpoint_idx (snd out) = 2%nat.
Proof. vm_compute. repeat split; reflexivity. Qed.

(** C4, amended.  For every [k < max_retries], a transport that fails on the
    first [k] attempts and succeeds on attempt [k+1] makes [_post] return the
    body of that attempt after exactly [k] warnings, one per failed
    attempt, and one rotation for each failed attempt from the second on:
    [k - 1] rotations when the pool has more than one endpoint and [1 <= k],
    none otherwise. *)
Theorem post_retries_then_succeeds :
  forall (net : HighPerf.network) (payload : pyval) (c : HighPerf.RPCClient)
         (k : nat) (body : pyval),
    Z.of_nat k < HighPerf.max_retries c ->
    fails_next net payload k c ->
    (forall url, net (HighPerf.sent c + k)%nat url payload = Ok body) ->
    exists c',
      HighPerf._post net payload c = (Ok body, c')
      /\ HighPerf.sent c' = (HighPerf.sent c + k + 1)%nat
      /\ warnings (HighPerf.trace c') = (warnings (HighPerf.trace c) + k)%nat
      /\ rotations (HighPerf.trace c')
         = (rotations (HighPerf.trace c)
            + (if (1 <? length (HighPerf.endpoints c))%nat then k - 1 else 0))%nat.
Proof.
  intros net payload c k body Hk Hfail Hok. unfold HighPerf._post.
  destruct (Z.to_nat (HighPerf.max_retries c)) as [|todo] eqn:Htodo; [lia|].
  destruct k as [|k].
  - simpl. replace (HighPerf.sent c + 0)%nat with (HighPerf.sent c) in Hok by lia.
    rewrite Hok. eexists. split; [reflexivity|]. simpl.
    destruct (1 <? length (HighPerf.endpoints c))%nat; repeat split; lia.
  - simpl.
    pose proof (Hfail 0%nat (HighPerf._cur_endpoint c) ltac:(lia)) as H0.
    replace (HighPerf.sent c + 0)%nat with (HighPerf.sent c) in H0 by lia.
    destruct (net (HighPerf.sent c) (HighPerf._cur_endpoint c) payload); [discriminate|].
    set (c1 := HighPerf.warn _ _ _).
    destruct (post_loop_retries net payload k todo 2 c1 body)
      as (c' & Hrun & Hs & Hw & Hr & _).
    + lia.
    + lia.
    + eapply fails_next_step; [exact Hfail|reflexivity].
    + intros url. rewrite <- (Hok url). f_equal. simpl. lia.
    + exists c'. split; [exact Hrun|]. simpl in *.
      replace (k - 0)%nat with k by lia.
      repeat split; lia.
Qed.

Lemma post_retries_then_succeeds_witness :
  exists c',
    HighPerf._post Examples.fails_thrice VNone Examples.three_endpoints = (Ok (VStr "ok"), c')
    /\ HighPerf.sent c' = 4%nat
    /\ warnings (HighPerf.trace c') = 3%nat
    /\ rotations (HighPerf.trace c') = 2%nat.
Proof.
  destruct (post_retries_then_succeeds Examples.fails_thrice VNone
              Examples.three_endpoints 3 (VStr "ok")) as (c' & H).
  - simpl. lia.
  - intros j url Hj. simpl.
    destruct j as [|[|[|j]]]; [reflexivity..|lia].
  - intros url. reflexivity.
  - exists c'. exact H.
Defined.

(** ** Requests of a batch *)

Lemma batch_requests_length calls :
  forall c, length (fst (HighPerf.batch_requests calls c)) = length calls.
Proof.
  induction calls as [|[m p] calls IH]; intros c; simpl; [reflexivity|].
  specialize (IH (snd (HighPerf._next_id c))).
  destruct (HighPerf.batch_requests calls _) as [reqs c2]. simpl in *. lia.
Qed.

Lemma batch_requests_nonempty calls c :
  calls <> [] -> fst (HighPerf.batch_requests calls c) <> [].
Proof.
  intros Hne Hnil. apply Hne.
  pose proof (batch_requests_length calls c) as Hlen. rewrite Hnil in Hlen.
  destruct calls; [reflexivity|discriminate].
Qed.

Lemma window_starts_lt n w : w ∈ HighPerf.window_starts n -> (w < n)%nat.
Proof.
  unfold HighPerf.window_starts, HighPerf.window.
  intros Hin. apply list_elem_of_fmap in Hin as (k & -> & Hk).
  apply elem_of_seq in Hk.
  pose proof (Nat.Div0.mul_div_le (n + 20 - 1) 20). lia.
Qed.

Lemma window_starts_nonempty n : (0 < n)%nat -> HighPerf.window_starts n <> [].
Proof.
  intros Hn. unfold HighPerf.window_starts, HighPerf.window.
  assert (Hpos : (0 < (n + 20 - 1) / 20)%nat) by (apply Nat.div_str_pos; lia).
  destruct ((n + 20 - 1) / 20)%nat; [lia|]. discriminate.
Qed.

Lemma slice_nonempty w (nums : list Z) :
  (w < length nums)%nat -> HighPerf.slice w nums <> [].
Proof.
  intros Hw. unfold HighPerf.slice, HighPerf.window.
  destruct (drop w nums) as [|x rest] eqn:Hdrop; [|discriminate].
  apply (f_equal length) in Hdrop. rewrite length_drop in Hdrop. simpl in Hdrop. lia.
Qed.

(** ** Exhaustion passes through [call], [batch] and [fetch_blocks] *)

Section Exhaustion.
Import HighPerf.
Variable net : network.
Hypothesis down : forall n url p, is_ok (net n url p) = false.

Lemma post_down payload c :
  exists c',
    _post net payload c = (Raise fatal, c')
    /\ sent c' = (sent c + Z.to_nat (max_retries c))%nat
    /\ warnings (trace c') = (warnings (trace c) + Z.to_nat (max_retries c))%nat.
Proof.
  unfold _post. apply post_loop_exhausts. intros n url. apply down.
Qed.

Lemma call_down method params c : fst (call net method params c) = Raise fatal.
Proof.
  unfold call. simpl.
  destruct (post_down (request (_id c + 1) method params) (snd (_next_id c)))
    as (c' & Hrun & _).
  simpl in Hrun. rewrite Hrun. reflexivity.
Qed.

Lemma batch_down calls c : calls <> [] -> fst (batch net calls c) = Raise fatal.
Proof.
  intros Hne. unfold batch. destruct calls as [|x calls]; [congruence|].
  destruct (batch_requests (x :: calls) c) as [req c1].
  destruct (post_down (VList req) c1) as (c' & Hrun & _).
  rewrite Hrun. reflexivity.
Qed.

Lemma post_loop_budget payload todo :
  forall attempt c, max_retries (snd (post_loop net payload todo attempt c)) = max_retries c.
Proof.
  induction todo as [|todo IH]; intros attempt c; simpl; [reflexivity|].
  destruct (net (sent c) (_cur_endpoint c) payload); [reflexivity|].
  rewrite IH. destruct (_ && _); reflexivity.
Qed.

Lemma call_exhausts method params c :
  exists c',
    call net method params c = (Raise fatal, c')
    /\ sent c' = (sent c + Z.to_nat (max_retries c))%nat
    /\ max_retries c' = max_retries c.
Proof.
  unfold call. simpl.
  pose proof (post_loop_budget (request (_id c + 1) method params)
                (Z.to_nat (max_retries c)) 1 (snd (_next_id c))) as Hbudget.
  destruct (post_down (request (_id c + 1) method params) (snd (_next_id c)))
    as (c' & Hrun & Hsent & _).
  unfold _post in Hrun. simpl in Hrun, Hsent, Hbudget. unfold _post. simpl.
  rewrite Hrun in Hbudget |- *. simpl in Hbudget.
  exists c'. split; [reflexivity|]. split; [exact Hsent|exact Hbudget].
Qed.

(** [try_trace_one_block] catches the fatal error of both of its calls. *)
Lemma trace_one_block_down bn c :
  exists c',
    try_trace_one_block net bn c = ((VNone, VNone), c')
    /\ sent c' = (sent c + 2 * Z.to_nat (max_retries c))%nat.
Proof.
  unfold try_trace_one_block, trace_block, debug_trace_block.
  destruct (call_exhausts "trace_block" [VStr (py_hex bn)] c) as (c1 & -> & Hs1 & Hm1).
  destruct (call_exhausts "debug_traceBlockByNumber"
              [VStr (py_hex bn);
               VDict [("tracer", VStr "callTracer"); ("timeout", VStr "20s")]] c1)
    as (c2 & -> & Hs2 & _).
  exists c2. split; [reflexivity|]. lia.
Qed.

Variable reply : reply_oracle.
Hypothesis reply_is_post : forall w req, exists c0, reply w req = fst (_post net (VList req) c0).

Lemma reply_down w req : reply w req = Raise fatal.
Proof.
  destruct (reply_is_post w req) as [c0 ->].
  destruct (post_down (VList req) c0) as (c' & -> & _). reflexivity.
Qed.

Variable block_numbers : list Z.

Lemma run_schedule_down sched :
  forall s r,
    pending block_numbers s ->
    run_schedule reply block_numbers sched s = Some r -> r = Raise fatal.
Proof.
  induction sched as [|ev sched IH]; intros s r (Hwait & Hreq & Hsome); simpl.
  - destruct (waiting s), (inflight s); try discriminate.
    destruct Hsome; congruence.
  - destruct ev as [w|w].
    + destruct (bool_decide (w ∈ waiting s)) eqn:Hin; [|discriminate].
      apply bool_decide_eq_true in Hin.
      destruct (0 <? permits s); [|discriminate]. simpl.
      destruct (batch_requests (block_calls (slice w block_numbers)) (client s))
        as [req c1] eqn:Hbr.
      apply IH. split; [|split]; simpl.
      * intros w' Hw'. apply list_elem_of_In, filter_In in Hw' as [Hw' _].
        apply Hwait, list_elem_of_In, Hw'.
      * intros w' req'. destruct (w =? w')%nat; [|apply Hreq].
        intros [= <-].
        replace req with (fst (batch_requests (block_calls (slice w block_numbers)) (client s)))
          by (rewrite Hbr; reflexivity).
        apply batch_requests_nonempty. unfold block_calls.
        pose proof (slice_nonempty w block_numbers (Hwait w Hin)).
        destruct (slice w block_numbers); [congruence|discriminate].
      * right. discriminate.
    + destruct (inflight_get w (inflight s)) as [req|] eqn:Hget; [|discriminate].
      pose proof (Hreq w req Hget) as Hne.
      unfold window_result. destruct req as [|x req]; [congruence|].
      rewrite reply_down. simpl. intros [= <-]. reflexivity.
Qed.

(** The first window alone, entering and finishing, is a run of
    [fetch_blocks] to its end: it raises. *)
Lemma first_window_raises c concurrency :
  block_numbers <> [] -> 0 < concurrency ->
  fetch_blocks reply c block_numbers concurrency [Enter 0; Finish 0] = Some (Raise fatal).
Proof.
  intros Hne Hconc. unfold fetch_blocks.
  replace (concurrency <? 0) with false by (symmetry; apply Z.ltb_ge; lia).
  assert (Hlen : (0 < length block_numbers)%nat)
    by (destruct block_numbers; [congruence|simpl; lia]).
  assert (Hfirst : 0%nat ∈ window_starts (length block_numbers)).
  { unfold window_starts, window.
    assert (Hpos : (0 < (length block_numbers + 20 - 1) / 20)%nat)
      by (apply Nat.div_str_pos; lia).
    destruct ((length block_numbers + 20 - 1) / 20)%nat; [lia|]. left. }
  cbn [run_schedule waiting permits client inflight blocks].
  rewrite bool_decide_eq_true_2 by exact Hfirst.
  replace (0 <? concurrency) with true by (symmetry; apply Z.ltb_lt; lia).
  cbn [andb].
  destruct (batch_requests (block_calls (slice 0 block_numbers)) c) as [req c1] eqn:Hbr.
  cbn [run_schedule waiting permits client inflight blocks inflight_get].
  rewrite Nat.eqb_refl.
  assert (Hreq : req <> []).
  { replace req with (fst (batch_requests (block_calls (slice 0 block_numbers)) c))
      by (rewrite Hbr; reflexivity).
    apply batch_requests_nonempty. unfold block_calls.
    pose proof (slice_nonempty 0 block_numbers Hlen).
    destruct (slice 0 block_numbers); [congruence|discriminate]. }
  unfold window_result. destruct req as [|x req]; [congruence|].
  rewrite reply_down. reflexivity.
Qed.

End Exhaustion.

(** C7 as stated fails: the fatal error is not passed on everywhere.  With
    a transport that is down, [call] raises it, and [try_trace_one_block],
    whose two calls both raise it after five attempts each, returns
    [(None, None)]. *)
Lemma trace_absorbs_exhaustion :
  let run := HighPerf.try_trace_one_block Examples.always_down 17 Examples.three_endpoints in
  fst (HighPerf.call Examples.always_down "trace_block" [VStr (py_hex 17)]
         Examples.three_endpoints) = Raise fatal
  /\ fst run = (VNone, VNone)
  /\ HighPerf.sent (snd run) = 10%nat.
Proof. vm_compute. repeat split; reflexivity. Qed.

(** C7, amended.  With a transport that fails on every attempt, [_post]
    makes exactly [max_retries] attempts, warns at each and raises the fatal
    error; [call] and [batch] pass it on.  [fetch_blocks], with which a scan
    starts, raises it on every schedule that runs to its end, and with a
    permit and a block number there is such a schedule: the scan is aborted.
    [try_trace_one_block] does not pass it on: when both of its calls have
    used up their attempts it returns [(None, None)]. *)
Theorem post_exhaustion_is_fatal :
  forall (net : HighPerf.network) (c : HighPerf.RPCClient),
    (forall n url p, is_ok (net n url p) = false) ->
    (forall payload, exists c',
        HighPerf._post net payload c = (Raise fatal, c')
        /\ HighPerf.sent c' = (HighPerf.sent c + Z.to_nat (HighPerf.max_retries c))%nat
        /\ warnings (HighPerf.trace c')
           = (warnings (HighPerf.trace c) + Z.to_nat (HighPerf.max_retries c))%nat)
    /\ (forall method params, fst (HighPerf.call net method params c) = Raise fatal)
    /\ (forall calls, calls <> [] -> fst (HighPerf.batch net calls c) = Raise fatal)
    /\ (forall reply block_numbers concurrency,
          (forall w req, exists c0, reply w req = fst (HighPerf._post net (VList req) c0)) ->
          block_numbers <> [] -> 0 <= concurrency ->
          (forall sched r,
              HighPerf.fetch_blocks reply c block_numbers concurrency sched = Some r ->
              r = Raise fatal)
          /\ (0 < concurrency ->
              exists sched,
                HighPerf.fetch_blocks reply c block_numbers concurrency sched
                = Some (Raise fatal)))
    /\ (forall bn, exists c',
          HighPerf.try_trace_one_block net bn c = ((VNone, VNone), c')
          /\ HighPerf.sent c'
             = (HighPerf.sent c + 2 * Z.to_nat (HighPerf.max_retries c))%nat).
Proof.
  intros net c Hdown. split; [|split; [|split; [|split]]].
  - intros payload. apply post_down. exact Hdown.
  - intros. apply call_down. exact Hdown.
  - intros. apply batch_down; assumption.
  - intros reply nums conc Hreply Hne Hconc. split.
    + intros sched r. unfold HighPerf.fetch_blocks.
      replace (conc <? 0) with false by (symmetry; apply Z.ltb_ge; lia).
      apply (run_schedule_down net Hdown reply Hreply nums).
      split; [|split]; simpl.
      * apply window_starts_lt.
      * discriminate.
      * left. apply window_starts_nonempty. destruct nums; [congruence|simpl; lia].
    + intros Hpos. exists [HighPerf.Enter 0; HighPerf.Finish 0].
      apply (first_window_raises net Hdown reply Hreply nums c conc Hne Hpos).
  - intros bn. apply trace_one_block_down. exact Hdown.
Qed.

Lemma post_exhaustion_is_fatal_witness :
  (exists c',
      HighPerf._post Examples.always_down VNone Examples.three_endpoints = (Raise fatal, c')
      /\ HighPerf.sent c' = 5%nat /\ warnings (HighPerf.trace c') = 5%nat)
  /\ fst (HighPerf.call Examples.always_down "eth_blockNumber" [] Examples.three_endpoints)
     = Raise fatal
  /\ (exists sched,
        HighPerf.fetch_blocks
          (fun _ req => fst (HighPerf._post Examples.always_down (VList req)
                               Examples.three_endpoints))
          Examples.three_endpoints [100; 101] 4 sched = Some (Raise fatal)).
Proof.
  assert (Hdown : forall n url p, is_ok (Examples.always_down n url p) = false)
    by reflexivity.
  pose proof (post_exhaustion_is_fatal Examples.always_down Examples.three_endpoints Hdown)
    as (Hpost & Hcall & _ & Hfetch & _).
  split; [apply (Hpost VNone)|]. split; [apply Hcall|].
  refine (proj2 (Hfetch _ [100; 101] 4 _ ltac:(discriminate) ltac:(lia)) ltac:(lia)).
  intros w req. exists Examples.three_endpoints. reflexivity.
Defined.

(** ** [batch]: results are matched to requests by id *)

Lemma batch_requests_ids calls :
  forall c,
    Forall (fun r => exists id m p, r = HighPerf.request id m p /\ HighPerf._id c < id)
           (fst (HighPerf.batch_requests calls c))
    /\ NoDup (map id_of (fst (HighPerf.batch_requests calls c))).
Proof.
  induction calls as [|[m p] calls IH]; intros c; simpl.
  - split; constructor.
  - destruct (IH (snd (HighPerf._next_id c))) as [Hall Hnd].
    destruct (HighPerf.batch_requests calls _) as [reqs c2]. simpl in *.
    split.
    + constructor.
      * exists (HighPerf._id c + 1), m, p. split; [reflexivity|lia].
      * eapply Forall_impl; [exact Hall|].
        intros r (id & m' & p' & -> & Hlt). exists id, m', p'. split; [reflexivity|lia].
    + constructor; [|exact Hnd].
      intros Hin. apply list_elem_of_fmap in Hin as (r & Hid & Hr).
      rewrite Forall_forall in Hall. destruct (Hall r Hr) as (id & m' & p' & -> & Hlt).
      simpl in Hid. injection Hid as Hid. lia.
Qed.

Lemma build_by_id_keyed items :
  forall acc,
    Forall int_keyed items ->
    HighPerf.build_by_id items acc
    = Ok (rev (map (fun it => (id_of it, it)) items) ++ acc)%list.
Proof.
  induction items as [|it items IH]; intros acc Hall; simpl; [reflexivity|].
  inversion Hall as [|? ? (z & Hz & Hd) Hrest]; subst.
  destruct it as [| | | | |kvs]; try discriminate. simpl in *.
  rewrite Hz. simpl. rewrite IH by assumption.
  rewrite <- app_assoc. reflexivity.
Qed.

Lemma by_id_get_unique (m : list (pyval * pyval)) z item :
  Forall (fun e => exists z', fst e = VInt z') m ->
  NoDup (map fst m) ->
  (VInt z, item) ∈ m ->
  HighPerf.by_id_get (VInt z) m = item.
Proof.
  induction m as [|[k x] m IH]; intros Hkeys Hnd Hin; [inversion Hin|].
  inversion Hkeys as [|? ? (z' & Hk) Hkeys']; subst. simpl in Hk. subst k.
  inversion Hnd as [|? ? Hnotin Hnd']; subst. simpl.
  destruct (Z.eqb_spec z' z) as [->|Hne].
  - apply elem_of_cons in Hin as [[= ->]|Hin]; [reflexivity|].
    exfalso. apply Hnotin. apply list_elem_of_fmap. exists (VInt z, item). split; [reflexivity|exact Hin].
  - apply elem_of_cons in Hin as [[= ->]|Hin]; [congruence|].
    apply IH; assumption.
Qed.

Lemma collect_by_id (m : list (pyval * pyval)) :
  Forall (fun e => exists z', fst e = VInt z') m ->
  NoDup (map fst m) ->
  forall req responses,
    Forall2 answers req responses ->
    Forall (fun resp => (id_of resp, resp) ∈ m) responses ->
    HighPerf.collect req m = Ok (map expected_result responses).
Proof.
  intros Hkeys Hnd req responses Hans. induction Hans as [|r resp req responses Ha Hans IH];
    intros Hin; simpl; [reflexivity|].
  inversion Hin as [|? ? Hhere Hrest]; subst.
  destruct Ha as (id & meth & p & kvs & -> & -> & Hid). simpl.
  simpl in Hhere. rewrite Hid in Hhere. simpl in Hhere.
  rewrite (by_id_get_unique m id (VDict kvs) Hkeys Hnd Hhere). simpl.
  rewrite (IH Hrest).
  destruct (dict_get "error" kvs); reflexivity.
Qed.

(** The body [wire] that [_post] returned for [req] is turned into the
    expected results, in the order of [req], whatever its own order. *)
Lemma batch_collect_by_id req responses wire :
  NoDup (map id_of req) ->
  Forall2 answers req responses ->
  wire ≡ₚ responses ->
  HighPerf.batch_collect req (VList wire) = Ok (map expected_result responses).
Proof.
  intros Hnd Hans Hperm.
  assert (Hids : map id_of responses = map id_of req).
  { clear -Hans. induction Hans as [|r resp ? ? (id & m & p & kvs & -> & -> & Hid) _ IH];
      simpl; [reflexivity|]. rewrite Hid. simpl. f_equal. exact IH. }
  assert (Hkeyed : Forall int_keyed responses).
  { clear -Hans. induction Hans as [|r resp ? ? (id & m & p & kvs & -> & -> & Hid) _ IH];
      constructor; [|exact IH]. exists id. simpl. rewrite Hid. split; reflexivity. }
  assert (Hkeyed_wire : Forall int_keyed wire) by (rewrite Hperm; exact Hkeyed).
  unfold HighPerf.batch_collect.
  rewrite (build_by_id_keyed wire [] Hkeyed_wire). simpl. rewrite app_nil_r.
  apply collect_by_id.
  - apply Forall_rev, Forall_fmap. eapply Forall_impl; [exact Hkeyed_wire|].
    intros it (z & Hz & _). exists z. exact Hz.
  - rewrite map_rev, <- Permutation_rev, map_map. simpl.
    change (map (fun it => id_of it) wire) with (map id_of wire).
    rewrite Hperm, Hids. exact Hnd.
  - exact Hans.
  - apply Forall_forall. intros resp Hin.
    apply list_elem_of_In, in_rev. rewrite rev_involutive. apply list_elem_of_In.
    apply list_elem_of_fmap. exists resp. split; [reflexivity|].
    rewrite Hperm. exact Hin.
Qed.

Lemma collect_length req m :
  forall out, HighPerf.collect req m = Ok out -> length out = length req.
Proof.
  induction req as [|r req IH]; intros out; simpl.
  - intros [= <-]. reflexivity.
  - destruct (match r with VDict kvs => _ | _ => _ end) as [id|]; [|discriminate]. simpl.
    destruct (HighPerf.extract _) as [x|]; [|discriminate]. simpl.
    destruct (HighPerf.collect req m) as [xs|]; [|discriminate]. simpl.
    intros [= <-]. simpl. f_equal. apply IH. reflexivity.
Qed.

(** Whenever [batch] returns, it returns as many results as there were calls. *)
Lemma batch_length net calls c out c' :
  HighPerf.batch net calls c = (Ok out, c') -> length out = length calls.
Proof.
  unfold HighPerf.batch. destruct calls as [|call calls].
  - intros [= <- _]. reflexivity.
  - pose proof (batch_requests_length (call :: calls) c) as Hlen.
    destruct (HighPerf.batch_requests (call :: calls) c) as [req c1]. simpl fst in Hlen.
    destruct (HighPerf._post net (VList req) c1) as [[res|] c2]; [|discriminate].
    intros [= Hcol _]. rewrite <- Hlen. unfold HighPerf.batch_collect in Hcol.
    destruct res as [| | | |items|kvs]; try discriminate.
    + destruct (HighPerf.build_by_id items []) as [m|]; [|discriminate].
      simpl in Hcol. eapply collect_length; exact Hcol.
    + destruct (dict_get "error" kvs); discriminate.
Qed.

(** C2.  Whatever the order of the response array on the wire, [batch]
    returns one result per request, the [i]-th being the one for the
    response that has the id of the [i]-th request: the error marker when
    that response has an ["error"], its ["result"] when not.  For no call at
    all it returns the empty list without a request. *)
Theorem batch_matches_responses_by_id :
  forall (net : HighPerf.network) (c : HighPerf.RPCClient),
    HighPerf.batch net [] c = (Ok [], c)
    /\ forall (c2 : HighPerf.RPCClient) (calls : list (string * list pyval))
              (responses wire : list pyval),
        calls <> [] ->
        HighPerf._post net (VList (fst (HighPerf.batch_requests calls c)))
                       (snd (HighPerf.batch_requests calls c)) = (Ok (VList wire), c2) ->
        Forall2 answers (fst (HighPerf.batch_requests calls c)) responses ->
        wire ≡ₚ responses ->
        exists out,
          HighPerf.batch net calls c = (Ok out, c2)
          /\ length out = length calls
          /\ forall i resp,
              responses !! i = Some resp -> out !! i = Some (expected_result resp).
Proof.
  intros net c. split; [reflexivity|].
  intros c2 calls responses wire Hne Hpost Hans Hperm.
  exists (map expected_result responses).
  destruct (batch_requests_ids calls c) as [_ Hnd].
  pose proof (batch_requests_length calls c) as Hlen.
  unfold HighPerf.batch. destruct calls as [|call calls]; [congruence|].
  destruct (HighPerf.batch_requests (call :: calls) c) as [req c1] eqn:Hbr.
  simpl fst in *. simpl snd in *. rewrite Hpost.
  split; [|split].
  - f_equal. apply batch_collect_by_id; assumption.
  - rewrite length_map, <- Hlen. symmetry. eapply Forall2_length; exact Hans.
  - intros i resp Hi. rewrite list_lookup_fmap, Hi. reflexivity.
Qed.

Lemma batch_matches_responses_by_id_witness :
  exists out,
    HighPerf.batch Examples.answers_reversed Examples.two_calls Examples.three_endpoints
    = (Ok out, HighPerf.mkClient ["a"; "b"; "c"] 5 0 2 1 [])
    /\ length out = 2%nat
    /\ forall i resp,
        [Examples.resp_1; Examples.resp_2] !! i = Some resp ->
        out !! i = Some (expected_result resp).
Proof.
  apply (proj2 (batch_matches_responses_by_id Examples.answers_reversed
                  Examples.three_endpoints)
           (HighPerf.mkClient ["a"; "b"; "c"] 5 0 2 1 []) Examples.two_calls
           [Examples.resp_1; Examples.resp_2] [Examples.resp_2; Examples.resp_1]).
  - discriminate.
  - reflexivity.
  - repeat constructor.
    + exists 1, "eth_getCode", [VStr "0xaa"], [("id", VInt 1); ("error", VStr "bad")].
      repeat split; reflexivity.
    + exists 2, "eth_getCode", [VStr "0xbb"], [("id", VInt 2); ("result", VStr "two")].
      repeat split; reflexivity.
  - apply perm_swap.
Defined.

(** ** [fetch_blocks]: the output follows the input order *)

Lemma window_starts_spec n w :
  w ∈ HighPerf.window_starts n <-> (exists k, w = (k * 20)%nat) /\ (w < n)%nat.
Proof.
  split.
  - intros Hin. split; [|apply window_starts_lt; exact Hin].
    apply list_elem_of_fmap in Hin as (k & -> & _). exists k. reflexivity.
  - intros [[k ->] Hlt]. apply list_elem_of_fmap. exists k. split; [reflexivity|].
    unfold HighPerf.window in *. apply elem_of_seq.
    pose proof (Nat.div_le_lower_bound (n + 20 - 1) 20 (S k) ltac:(lia) ltac:(lia)). lia.
Qed.

Lemma window_starts_NoDup n : NoDup (HighPerf.window_starts n).
Proof.
  unfold HighPerf.window_starts. apply NoDup_fmap_2; [|apply NoDup_seq].
  intros a b. unfold HighPerf.window. lia.
Qed.

Lemma write_window_spec out :
  forall idx buf,
    (idx + length out <= length buf)%nat ->
    exists buf',
      HighPerf.write_window idx out buf = Ok buf'
      /\ length buf' = length buf
      /\ (forall i, (idx <= i < idx + length out)%nat -> buf' !! i = out !! (i - idx)%nat)
      /\ (forall i, ~ (idx <= i < idx + length out)%nat -> buf' !! i = buf !! i).
Proof.
  induction out as [|r out IH]; intros idx buf Hfit; simpl in *.
  - exists buf. split; [reflexivity|]. split; [reflexivity|]. split; [intros; lia|reflexivity].
  - replace (idx <? length buf)%nat with true by (symmetry; apply Nat.ltb_lt; lia).
    destruct (IH (S idx) (<[idx := r]> buf)) as (buf' & Hrun & Hlen & Hin & Hout).
    { rewrite length_insert. lia. }
    exists buf'. rewrite length_insert in Hlen. split; [exact Hrun|]. split; [exact Hlen|].
    split.
    + intros i Hi. destruct (decide (i = idx)) as [->|Hne].
      * rewrite Hout by lia. replace (idx - idx)%nat with 0%nat by lia. simpl.
        apply list_lookup_insert_eq. lia.
      * rewrite Hin by lia. replace (i - idx)%nat with (S (i - S idx)) by lia. reflexivity.
    + intros i Hi. rewrite Hout by lia. apply list_lookup_insert_ne. lia.
Qed.

Lemma block_requests_wellformed nums :
  forall c,
    Forall2 block_request nums (fst (HighPerf.batch_requests (HighPerf.block_calls nums) c)).
Proof.
  induction nums as [|n nums IH]; intros c; simpl; [constructor|].
  specialize (IH (snd (HighPerf._next_id c))).
  destruct (HighPerf.batch_requests _ _) as [reqs c2]. simpl in *.
  constructor; [|exact IH]. eexists. reflexivity.
Qed.

Lemma inflight_get_del_ne w w' l :
  w <> w' -> HighPerf.inflight_get w' (HighPerf.inflight_del w l) = HighPerf.inflight_get w' l.
Proof.
  intros Hne. induction l as [|[x req] l IH]; simpl; [reflexivity|].
  destruct (Nat.eqb_spec x w) as [->|Hx]; simpl.
  - destruct (Nat.eqb_spec w w'); [congruence|]. exact IH.
  - destruct (x =? w')%nat; [reflexivity|exact IH].
Qed.

Section FetchOrder.
Import HighPerf.
Variable reply : reply_oracle.
Variable block_numbers : list Z.
Variable fetched : list pyval.
Hypothesis fetched_length : length fetched = length block_numbers.
Hypothesis served : serves reply block_numbers fetched.

Local Abbreviation n := (length block_numbers).
Local Abbreviation window_done := (window_done block_numbers fetched).
Local Abbreviation fetch_inv := (fetch_inv block_numbers fetched).

Lemma finish_ok w req buf :
  w ∈ window_starts n ->
  Forall2 block_request (slice w block_numbers) req ->
  NoDup (map id_of req) ->
  length buf = n ->
  exists buf',
    (res ← window_result reply w req; write_window w res buf) = Ok buf'
    /\ length buf' = n
    /\ window_done w buf'
    /\ (forall i, ~ (w <= i < w + window)%nat -> buf' !! i = buf !! i).
Proof.
  intros Hw Hreq Hnd Hbuf.
  pose proof (window_starts_lt _ _ Hw) as Hlt. fold n in Hlt.
  destruct (served w req Hreq Hnd) as (wire & responses & Hreply & Hperm & Hans & Hres).
  assert (Hne : req <> []).
  { intros ->. inversion Hreq as [Hnil|]. symmetry in Hnil.
    revert Hnil. apply slice_nonempty. exact Hlt. }
  assert (Hwr : window_result reply w req = Ok (take window (drop w fetched))).
  { transitivity (res ← reply w req; batch_collect req res).
    - unfold window_result. destruct req; [congruence|reflexivity].
    - rewrite Hreply. unfold mbind, result_bind.
      rewrite (batch_collect_by_id req responses wire Hnd Hans Hperm), Hres. reflexivity. }
  rewrite Hwr. simpl.
  set (out := take window (drop w fetched)).
  assert (Hout : length out = Nat.min window (n - w)).
  { subst out. rewrite length_take, length_drop, fetched_length. reflexivity. }
  destruct (write_window_spec out w buf) as (buf' & Hrun & Hlen & Hin & Hkeep).
  { rewrite Hout, Hbuf. lia. }
  exists buf'. split; [exact Hrun|]. split; [lia|]. split.
  - intros j Hj Hjn. rewrite Hin by (rewrite Hout; lia).
    replace (w + j - w)%nat with j by lia. subst out.
    rewrite lookup_take_lt by exact Hj. apply lookup_drop.
  - intros i Hi. apply Hkeep. rewrite Hout. lia.
Qed.

Lemma windows_disjoint w w' j :
  w ∈ window_starts n -> w' ∈ window_starts n -> w <> w' -> (j < window)%nat ->
  ~ (w <= w' + j < w + window)%nat.
Proof.
  intros Hw Hw' Hne Hj.
  apply window_starts_spec in Hw as [[k ->] _].
  apply window_starts_spec in Hw' as [[k' ->] _].
  unfold window in *. lia.
Qed.

Lemma fetch_inv_enter s w req c1 :
  fetch_inv s -> w ∈ waiting s ->
  batch_requests (block_calls (slice w block_numbers)) (client s) = (req, c1) ->
  fetch_inv (mkFetch c1 (permits s - 1)
               (List.filter (fun x => negb (x =? w)%nat) (waiting s))
               ((w, req) :: inflight s) (blocks s)).
Proof.
  intros (Hlen & Hwait & Hfl & Hall) Hin Hbr. split; [exact Hlen|]. simpl.
  split; [|split].
  - intros w' Hw'. apply list_elem_of_In, filter_In in Hw' as [Hw' _].
    apply Hwait, list_elem_of_In, Hw'.
  - intros w' req'. destruct (Nat.eqb_spec w w') as [<-|Hne]; [|apply Hfl].
    intros [= <-]. split; [apply Hwait, Hin|].
    replace req with (fst (batch_requests (block_calls (slice w block_numbers)) (client s)))
      by (rewrite Hbr; reflexivity).
    split; [apply block_requests_wellformed|apply batch_requests_ids].
  - intros w' Hw'. destruct (Nat.eqb_spec w w') as [<-|Hne].
    + right; left. eexists. reflexivity.
    + destruct (Hall w' Hw') as [Hwt|[Hinf|Hdone]].
      * left. apply list_elem_of_In, filter_In. split; [apply list_elem_of_In, Hwt|].
        apply negb_true_iff, Nat.eqb_neq. congruence.
      * right; left. exact Hinf.
      * right; right. exact Hdone.
Qed.

Lemma fetch_inv_finish s w req buf' :
  fetch_inv s -> inflight_get w (inflight s) = Some req ->
  length buf' = n -> window_done w buf' ->
  (forall i, ~ (w <= i < w + window)%nat -> buf' !! i = blocks s !! i) ->
  fetch_inv (mkFetch (client s) (permits s + 1) (waiting s)
               (inflight_del w (inflight s)) buf').
Proof.
  intros (Hlen & Hwait & Hfl & Hall) Hget Hlen' Hdone Hkeep.
  destruct (Hfl w req Hget) as (Hw & _).
  split; [exact Hlen'|]. simpl. split; [exact Hwait|]. split.
  - intros w' req' Hget'. destruct (Nat.eq_dec w w') as [<-|Hne].
    + exfalso. clear -Hget'. induction (inflight s) as [|[x r] l IH]; simpl in *;
        [discriminate|].
      destruct (Nat.eqb_spec x w) as [->|Hx]; simpl in *; [auto|].
      destruct (Nat.eqb_spec x w); [congruence|auto].
    + rewrite inflight_get_del_ne in Hget' by exact Hne. apply Hfl. exact Hget'.
  - intros w' Hw'. destruct (Nat.eq_dec w w') as [<-|Hne].
    + right; right. exact Hdone.
    + destruct (Hall w' Hw') as [Hwt|[Hinf|Hd]].
      * left. exact Hwt.
      * right; left. rewrite inflight_get_del_ne by exact Hne. exact Hinf.
      * right; right. intros j Hj Hjn. rewrite Hkeep; [apply Hd; assumption|].
        apply windows_disjoint; assumption.
Qed.

Lemma fetch_inv_end s :
  fetch_inv s -> waiting s = [] -> inflight s = [] -> blocks s = fetched.
Proof.
  intros (Hlen & _ & _ & Hall) Hw Hf. apply list_eq. intros i.
  destruct (Nat.lt_ge_cases i n) as [Hi|Hi].
  - assert (Hstart : ((i / 20) * 20)%nat ∈ window_starts n).
    { apply window_starts_spec. split; [eexists; reflexivity|].
      pose proof (Nat.Div0.mul_div_le i 20). lia. }
    destruct (Hall _ Hstart) as [Hwt|[[? Hinf]|Hd]].
    + rewrite Hw in Hwt. inversion Hwt.
    + rewrite Hf in Hinf. discriminate.
    + pose proof (Nat.div_mod_eq i 20) as Hdm.
      pose proof (Nat.mod_upper_bound i 20 ltac:(lia)) as Hmod.
      specialize (Hd (i mod 20)%nat).
      replace ((i / 20) * 20 + i mod 20)%nat with i in Hd by lia.
      apply Hd; unfold window; lia.
  - rewrite !lookup_ge_None_2; [reflexivity|lia|lia].
Qed.

Lemma run_schedule_in_order sched :
  forall s r,
    fetch_inv s -> run_schedule reply block_numbers sched s = Some r -> r = Ok fetched.
Proof.
  induction sched as [|ev sched IH]; intros s r Hinv; simpl.
  - destruct (waiting s) eqn:Hw; [|discriminate].
    destruct (inflight s) eqn:Hf; [|discriminate].
    intros [= <-]. f_equal. apply fetch_inv_end; assumption.
  - destruct ev as [w|w].
    + destruct (bool_decide (w ∈ waiting s)) eqn:Hin; [|discriminate].
      apply bool_decide_eq_true in Hin.
      destruct (0 <? permits s); [|discriminate]. simpl.
      destruct (batch_requests _ _) as [req c1] eqn:Hbr.
      apply IH. eapply fetch_inv_enter; eassumption.
    + destruct (inflight_get w (inflight s)) as [req|] eqn:Hget; [|discriminate].
      destruct Hinv as (Hlen & Hwait & Hfl & Hall).
      destruct (Hfl w req Hget) as (Hw & Hreq & Hnd).
      destruct (finish_ok w req (blocks s) Hw Hreq Hnd Hlen)
        as (buf' & Hrun & Hlen' & Hdone & Hkeep).
      rewrite Hrun. apply IH.
      apply (fetch_inv_finish s w req buf'); try assumption.
      split; [|split; [|split]]; assumption.
Qed.

Lemma fetch_inv_init c concurrency :
  fetch_inv (mkFetch c concurrency (window_starts n) [] (replicate n VNone)).
Proof.
  split; [apply length_replicate|]. simpl. split; [auto|]. split; [discriminate|].
  intros w Hw. left. exact Hw.
Qed.

(** The windows taken one after the other run to the end as soon as the
    semaphore has one permit. *)
Lemma run_sequential starts :
  forall s,
    fetch_inv s -> waiting s = starts -> NoDup starts -> inflight s = [] ->
    0 < permits s ->
    exists r, run_schedule reply block_numbers (sequential starts) s = Some r.
Proof.
  induction starts as [|w starts IH]; intros s Hinv Hw Hnd Hf Hp.
  - simpl. rewrite Hw, Hf. eexists. reflexivity.
  - inversion Hnd as [|? ? Hnotin Hnd']; subst.
    assert (Hin : w ∈ waiting s) by (rewrite Hw; left).
    assert (Hrest : List.filter (fun x => negb (x =? w)%nat) (waiting s) = starts).
    { rewrite Hw. simpl. rewrite Nat.eqb_refl. simpl.
      clear -Hnotin. induction starts as [|x l IHl]; simpl; [reflexivity|].
      destruct (Nat.eqb_spec x w) as [->|Hx]; simpl.
      - exfalso. apply Hnotin. left.
      - f_equal. apply IHl. intros Hl. apply Hnotin. right. exact Hl. }
    destruct (batch_requests (block_calls (slice w block_numbers)) (client s))
      as [req c1] eqn:Hbr.
    pose proof (fetch_inv_enter s w req c1 Hinv Hin Hbr) as Hinv1.
    rewrite Hrest, Hf in Hinv1.
    set (s1 := mkFetch c1 (permits s - 1) starts [(w, req)] (blocks s)) in *.
    assert (Hget : inflight_get w (inflight s1) = Some req)
      by (simpl; rewrite Nat.eqb_refl; reflexivity).
    destruct Hinv1 as (Hlen & Hwait & Hfl & Hall).
    destruct (Hfl w req Hget) as (Hws & Hreq & Hndr).
    destruct (finish_ok w req (blocks s1) Hws Hreq Hndr Hlen)
      as (buf' & Hrun & Hlen' & Hdone & Hkeep).
    pose proof (fetch_inv_finish s1 w req buf'
                  (conj Hlen (conj Hwait (conj Hfl Hall))) Hget Hlen' Hdone Hkeep) as Hinv2.
    destruct (IH (mkFetch (client s1) (permits s1 + 1) (waiting s1)
                    (inflight_del w (inflight s1)) buf')) as [r Hr].
    + exact Hinv2.
    + reflexivity.
    + exact Hnd'.
    + simpl. rewrite Nat.eqb_refl. reflexivity.
    + simpl. lia.
    + exists r. rewrite <- Hr.
      change (sequential (w :: starts)) with (Enter w :: Finish w :: sequential starts).
      cbn [run_schedule].
      rewrite bool_decide_eq_true_2 by exact Hin.
      replace (0 <? permits s) with true by (symmetry; apply Z.ltb_lt; lia).
      cbn [andb]. rewrite Hbr, Hrest, Hf. fold s1. rewrite Hget, Hrun. reflexivity.
Qed.

End FetchOrder.

Lemma echo_answers nums req :
  Forall2 block_request nums req ->
  forall bs,
    length bs = length req ->
    Forall2 answers req (zip_with (fun r b => VDict [("id", id_of r); ("result", b)]) req bs)
    /\ map expected_result
           (zip_with (fun r b => VDict [("id", id_of r); ("result", b)]) req bs) = bs.
Proof.
  induction 1 as [|k r nums req [id ->] _ IH]; intros bs Hbs.
  - destruct bs; [|discriminate]. split; [constructor|reflexivity].
  - destruct bs as [|b bs]; [discriminate|]. simpl in Hbs.
    destruct (IH bs ltac:(lia)) as [Hans Hmap]. simpl. split.
    + constructor; [|exact Hans].
      exists id, "eth_getBlockByNumber", [VStr (py_hex k); VBool true],
             [("id", VInt id); ("result", b)].
      repeat split; reflexivity.
    + f_equal. exact Hmap.
Qed.

Lemma echo_blocks_serves (block_numbers : list Z) (fetched : list pyval) :
  length fetched = length block_numbers ->
  serves (echo_blocks fetched) block_numbers fetched.
Proof.
  intros Hlen w req Hreq _.
  assert (Hbs : length (take HighPerf.window (drop w fetched)) = length req).
  { rewrite <- (Forall2_length _ _ _ Hreq). unfold HighPerf.slice.
    rewrite !length_take, !length_drop, Hlen. reflexivity. }
  destruct (echo_answers _ _ Hreq _ Hbs) as [Hans Hmap].
  eexists _, _. split; [reflexivity|]. split; [symmetry; apply Permutation_rev|].
  split; [exact Hans|exact Hmap].
Qed.

(** C5.  When the provider serves the windows with [fetched], every schedule
    of the window tasks that runs to its end, whatever the order in which the
    windows enter and finish, makes [fetch_blocks] return [fetched] itself:
    as long as the input, the [i]-th entry being what was fetched for the
    [i]-th number.  Such a schedule exists as soon as the semaphore has a
    permit. *)
Theorem fetch_blocks_in_input_order :
  forall (reply : HighPerf.reply_oracle) (c : HighPerf.RPCClient)
         (block_numbers : list Z) (fetched : list pyval) (concurrency : Z),
    length fetched = length block_numbers ->
    serves reply block_numbers fetched ->
    0 <= concurrency ->
    (forall sched r,
        HighPerf.fetch_blocks reply c block_numbers concurrency sched = Some r ->
        r = Ok fetched)
    /\ (0 < concurrency ->
        exists sched,
          HighPerf.fetch_blocks reply c block_numbers concurrency sched = Some (Ok fetched)).
Proof.
  intros reply c nums fetched conc Hlen Hserved Hconc.
  unfold HighPerf.fetch_blocks.
  replace (conc <? 0) with false by (symmetry; apply Z.ltb_ge; lia).
  pose proof (fetch_inv_init nums fetched c conc) as Hinit.
  split.
  - intros sched r. apply (run_schedule_in_order reply nums fetched Hlen Hserved). exact Hinit.
  - intros Hpos. exists (sequential (HighPerf.window_starts (length nums))).
    destruct (run_sequential reply nums fetched Hlen Hserved
                (HighPerf.window_starts (length nums)) _ Hinit eq_refl
                (window_starts_NoDup _) eq_refl Hpos) as [r Hr].
    rewrite Hr. f_equal.
    apply (run_schedule_in_order reply nums fetched Hlen Hserved _ _ _ Hinit Hr).
Qed.

Lemma fetch_blocks_in_input_order_witness :
  let block_numbers := map Z.of_nat (seq 100 45) in
  let fetched := map VInt block_numbers in
  let sched := [HighPerf.Enter 20; HighPerf.Enter 40; HighPerf.Finish 40;
                HighPerf.Enter 0; HighPerf.Finish 0; HighPerf.Finish 20] in
  HighPerf.fetch_blocks (echo_blocks fetched) Examples.three_endpoints block_numbers 2 sched
  = Some (Ok fetched).
Proof.
  intros block_numbers fetched sched.
  assert (Hlen : length fetched = length block_numbers) by reflexivity.
  assert (Hrun : exists r,
             HighPerf.fetch_blocks (echo_blocks fetched) Examples.three_endpoints
               block_numbers 2 sched = Some r).
  { eexists. vm_compute. reflexivity. }
  destruct Hrun as [r Hr]. rewrite Hr. f_equal.
  exact (proj1 (fetch_blocks_in_input_order (echo_blocks fetched) Examples.three_endpoints
                  block_numbers fetched 2 Hlen
                  (echo_blocks_serves block_numbers fetched Hlen) ltac:(lia))
               sched r Hr).
Defined.

(** ** The trace attempt and its fallback *)

Lemma trace_block_payload_fails res :
  flat_trace_fails res -> PublicRpc.trace_block_payload res = None.
Proof.
  intros Hf. unfold PublicRpc.trace_block_payload.
  destruct res as [[| | | | |kvs]|]; try reflexivity.
  destruct (dict_get "result" kvs) as [[| | | |l|]|] eqn:Hr; try reflexivity.
  exfalso. exact (Hf kvs l eq_refl Hr).
Qed.

Lemma debug_trace_payload_fails res :
  tree_trace_fails res -> PublicRpc.debug_trace_payload res = None.
Proof.
  intros Hf. unfold PublicRpc.debug_trace_payload.
  destruct res as [[| | | | |kvs]|]; try reflexivity.
  destruct (dict_get "result" kvs) as [p|] eqn:Hr; [|reflexivity].
  exfalso. exact (Hf kvs p eq_refl Hr).
Qed.

(** C6.  [try_trace_block] asks for [trace_block] first and returns its list
    when it gets one; when that fails in any way it asks for
    [debug_traceBlockByNumber] and returns its result; when that fails too it
    returns [(None, None)].  Then the block loop of [scan_range] leaves every
    counter as it was without tracing, returns normally and goes on with the
    next block.  [try_trace_one_block] does the same on any exception of
    [call]. *)
Theorem trace_falls_back_then_skips :
  forall (w3 : PublicRpc.Web3) (bn : Z) (log : list PublicRpc.rpc_call)
         (net : HighPerf.network) (c : HighPerf.RPCClient),
    let first := PublicRpc.make_request w3 (length log) "trace_block" [VStr (py_hex bn)] in
    let second := PublicRpc.make_request w3 (S (length log)) "debug_traceBlockByNumber"
                    (tracer_params bn) in
    let call1 := HighPerf.call net "trace_block" [VStr (py_hex bn)] c in
    let call2 := HighPerf.call net "debug_traceBlockByNumber" (tracer_params bn) (snd call1) in
    (* scan_eth_public_rpc.try_trace_block *)
    (forall kvs l,
        first = Ok (VDict kvs) -> dict_get "result" kvs = Some (VList l) ->
        PublicRpc.try_trace_block w3 bn log
        = ((VStr "trace_block", VList l), PublicRpc.MakeRequest "trace_block" :: log))
    /\ (forall kvs p,
        flat_trace_fails first ->
        second = Ok (VDict kvs) -> dict_get "result" kvs = Some p ->
        PublicRpc.try_trace_block w3 bn log
        = ((VStr "debug_trace", p),
           PublicRpc.MakeRequest "debug_traceBlockByNumber"
             :: PublicRpc.MakeRequest "trace_block" :: log))
    /\ (flat_trace_fails first -> tree_trace_fails second ->
        PublicRpc.try_trace_block w3 bn log
        = ((VNone, VNone),
           PublicRpc.MakeRequest "debug_traceBlockByNumber"
             :: PublicRpc.MakeRequest "trace_block" :: log))
    (* scan_eth_public_rpc.scan_range *)
    /\ (forall check_success s s1 rest,
        PublicRpc.scan_block w3 check_success false bn s = Ok s1 ->
        PublicRpc.try_trace_block w3 bn (PublicRpc.calls s1)
        = ((VNone, VNone),
           PublicRpc.MakeRequest "debug_traceBlockByNumber"
             :: PublicRpc.MakeRequest "trace_block" :: PublicRpc.calls s1) ->
        PublicRpc.scan_block w3 check_success true bn s = Ok (after_two_requests s1)
        /\ PublicRpc.scan_blocks w3 check_success true (bn :: rest) s
           = PublicRpc.scan_blocks w3 check_success true rest (after_two_requests s1))
    (* scan_eth_highperf_api.try_trace_one_block *)
    /\ (forall res,
        fst call1 = Ok res ->
        HighPerf.try_trace_one_block net bn c = ((VStr "trace_block", res), snd call1))
    /\ (forall e res,
        fst call1 = Raise e -> fst call2 = Ok res ->
        HighPerf.try_trace_one_block net bn c = ((VStr "debug_trace", res), snd call2))
    /\ (forall e e',
        fst call1 = Raise e -> fst call2 = Raise e' ->
        HighPerf.try_trace_one_block net bn c = ((VNone, VNone), snd call2)).
Proof.
  intros w3 bn log net c first second call1 call2.
  split; [|split; [|split; [|split; [|split; [|split]]]]].
  - intros kvs l Hfirst Hres. unfold PublicRpc.try_trace_block.
    fold first. rewrite Hfirst. simpl. rewrite Hres. reflexivity.
  - intros kvs p Hfail Hsecond Hres. unfold PublicRpc.try_trace_block.
    fold first. rewrite (trace_block_payload_fails first Hfail).
    change (PublicRpc.make_request w3 _ "debug_traceBlockByNumber" _) with second.
    rewrite Hsecond. simpl. rewrite Hres. reflexivity.
  - intros Hfail Hfail2. unfold PublicRpc.try_trace_block.
    fold first. rewrite (trace_block_payload_fails first Hfail).
    change (PublicRpc.make_request w3 _ "debug_traceBlockByNumber" _) with second.
    rewrite (debug_trace_payload_fails second Hfail2). reflexivity.
  - intros cs s s1 rest Hplain Hnone.
    assert (Hblock : PublicRpc.scan_block w3 cs true bn s = Ok (after_two_requests s1)).
    { unfold PublicRpc.scan_block in *.
      destruct (PublicRpc.get_block_with_retries w3 _ bn) as [txs|]; [|discriminate].
      injection Hplain as <-. f_equal. unfold PublicRpc.scan_trace.
      rewrite Hnone. reflexivity. }
    split; [exact Hblock|]. simpl. rewrite Hblock. reflexivity.
  - intros res H1. unfold HighPerf.try_trace_one_block, HighPerf.trace_block.
    fold call1. destruct call1 as [[r|] c1]; simpl in *; congruence.
  - intros e res H1 H2.
    unfold HighPerf.try_trace_one_block, HighPerf.trace_block, HighPerf.debug_trace_block.
    fold call1. subst call2. destruct call1 as [[r|] c1]; simpl in *; [discriminate|].
    fold (tracer_params bn).
    destruct (HighPerf.call net "debug_traceBlockByNumber" (tracer_params bn) c1)
      as [[r2|] c2]; simpl in *; congruence.
  - intros e e' H1 H2.
    unfold HighPerf.try_trace_one_block, HighPerf.trace_block, HighPerf.debug_trace_block.
    fold call1. subst call2. destruct call1 as [[r|] c1]; simpl in *; [discriminate|].
    fold (tracer_params bn).
    destruct (HighPerf.call net "debug_traceBlockByNumber" (tracer_params bn) c1)
      as [[r2|] c2]; simpl in *; congruence.
Qed.

Lemma trace_falls_back_then_skips_witness :
  PublicRpc.try_trace_block Examples.node_no_trace 10 []
  = ((VNone, VNone),
     [PublicRpc.MakeRequest "debug_traceBlockByNumber"; PublicRpc.MakeRequest "trace_block"])
  /\ HighPerf.try_trace_one_block Examples.always_down 10 Examples.three_endpoints
     = ((VNone, VNone),
        snd (HighPerf.call Examples.always_down "debug_traceBlockByNumber" (tracer_params 10)
               (snd (HighPerf.call Examples.always_down "trace_block" [VStr (py_hex 10)]
                       Examples.three_endpoints)))).
Proof.
  pose proof (trace_falls_back_then_skips Examples.node_no_trace 10 []
                Examples.always_down Examples.three_endpoints)
    as (_ & _ & Hnone & _ & _ & _ & Hnone').
  split.
  - apply Hnone; intros kvs x [= <-]; discriminate.
  - apply (Hnone' fatal fatal); vm_compute; reflexivity.
Defined.

(** ** Digits: what [int] reads is what [str] and [hex] wrote *)

Lemma digit_cases d : 0 <= d < 16 ->
  d = 0 \/ d = 1 \/ d = 2 \/ d = 3 \/ d = 4 \/ d = 5 \/ d = 6 \/ d = 7 \/ d = 8 \/ d = 9
  \/ d = 10 \/ d = 11 \/ d = 12 \/ d = 13 \/ d = 14 \/ d = 15.
Proof. lia. Qed.

Ltac each_digit d H :=
  let C := fresh "C" in
  pose proof (digit_cases d H) as C;
  repeat (destruct C as [C|C]; [subst d|]); try subst d.

Lemma digit_char_facts d : 0 <= d < 16 ->
  digit_value (digit_char d) = Some d
  /\ Ascii.eqb (digit_char d) "_" = false
  /\ is_space (digit_char d) = false.
Proof. intros H. each_digit d H; repeat split; reflexivity. Qed.

Lemma scan_digits_digits base ds :
  forall acc prev_us,
    base <= 16 ->
    Forall (is_digit_of base) ds ->
    ds <> [] \/ prev_us = false ->
    scan_digits base (map digit_char ds) acc prev_us
    = Some (fold_left (fun a d => a * base + d) ds acc).
Proof.
  induction ds as [|d ds IH]; intros acc pu Hb Hall Hne; simpl.
  - destruct Hne as [Hne| ->]; [congruence|reflexivity].
  - inversion Hall as [|? ? Hd Hrest]; subst. unfold is_digit_of in Hd.
    destruct (digit_char_facts d ltac:(lia)) as (Hv & Hu & _).
    rewrite Hu, Hv.
    replace (d <? base) with true by (symmetry; apply Z.ltb_lt; lia).
    apply IH; auto.
Qed.

Lemma digits_le_spec base fuel :
  forall n,
    2 <= base -> 0 <= n < 2 ^ (Z.of_nat fuel + 1) ->
    Forall (is_digit_of base) (digits_le base fuel n)
    /\ fold_right (fun d a => a * base + d) 0 (digits_le base fuel n) = n
    /\ digits_le base fuel n <> [].
Proof.
  induction fuel as [|fuel IH]; intros n Hb Hn.
  - simpl in *. split; [|split; [lia|discriminate]].
    constructor; [unfold is_digit_of; lia|constructor].
  - cbn [digits_le]. destruct (Z.ltb_spec n base) as [Hlt|Hge].
    + split; [|split; [simpl; lia|discriminate]].
      constructor; [unfold is_digit_of; lia|constructor].
    + assert (Hq : 0 <= n / base < 2 ^ (Z.of_nat fuel + 1)).
      { split; [apply Z.div_pos; lia|].
        apply Z.div_lt_upper_bound; [lia|].
        replace (Z.of_nat (S fuel) + 1) with (Z.succ (Z.of_nat fuel + 1)) in Hn by lia.
        rewrite Z.pow_succ_r in Hn by lia.
        assert (0 < 2 ^ (Z.of_nat fuel + 1)) by (apply Z.pow_pos_nonneg; lia). nia. }
      destruct (IH (n / base) Hb Hq) as (Hall & Hval & _).
      split; [|split; [|discriminate]].
      * constructor; [|exact Hall]. unfold is_digit_of. apply Z.mod_pos_bound. lia.
      * simpl. rewrite Hval. pose proof (Z.div_mod n base ltac:(lia)). lia.
Qed.

Lemma to_digits_spec base n :
  2 <= base -> 0 <= n ->
  Forall (is_digit_of base) (to_digits base n)
  /\ fold_left (fun a d => a * base + d) (to_digits base n) 0 = n
  /\ to_digits base n <> [].
Proof.
  intros Hb Hn. unfold to_digits.
  assert (Hfuel : 0 <= n < 2 ^ (Z.of_nat (Z.to_nat (Z.log2 n)) + 1)).
  { split; [exact Hn|]. rewrite Z2Nat.id by apply Z.log2_nonneg.
    destruct (Z.eq_dec n 0) as [->|Hnz]; [reflexivity|].
    pose proof (Z.log2_spec n ltac:(lia)). unfold Z.succ in *. lia. }
  destruct (digits_le_spec base _ n Hb Hfuel) as (Hall & Hval & Hne).
  split; [apply Forall_rev; exact Hall|]. split.
  - rewrite <- (fold_left_rev_right (fun d a => a * base + d)), rev_involutive. exact Hval.
  - intros Hnil. apply Hne. apply (f_equal (@rev Z)) in Hnil.
    rewrite rev_involutive in Hnil. exact Hnil.
Qed.

Lemma lstrip_no_space cs :
  Forall (fun c => is_space c = false) cs -> lstrip cs = cs.
Proof. intros H. destruct H as [|c cs Hc _]; simpl; [reflexivity|]. rewrite Hc. reflexivity. Qed.

Lemma strip_no_space cs :
  Forall (fun c => is_space c = false) cs -> strip cs = cs.
Proof.
  intros H. unfold strip. rewrite (lstrip_no_space cs H).
  rewrite (lstrip_no_space (rev cs)) by (apply Forall_rev; exact H).
  apply rev_involutive.
Qed.

Lemma int_space_is_space c : is_space c = false -> is_int_space c = false.
Proof.
  unfold is_space, is_int_space. intros H.
  apply orb_false_iff in H as [H1 H2]. rewrite H1. simpl.
  apply Z.eqb_neq. intros Heq. rewrite Heq in H2. discriminate.
Qed.

Lemma int_lstrip_no_space cs :
  Forall (fun c => is_space c = false) cs -> int_lstrip cs = cs.
Proof.
  intros H. destruct H as [|c cs Hc _]; simpl; [reflexivity|].
  rewrite (int_space_is_space c Hc). reflexivity.
Qed.

Lemma int_strip_no_space cs :
  Forall (fun c => is_space c = false) cs -> int_strip cs = cs.
Proof.
  intros H. unfold int_strip. rewrite (int_lstrip_no_space cs H).
  rewrite (int_lstrip_no_space (rev cs)) by (apply Forall_rev; exact H).
  apply rev_involutive.
Qed.

Lemma digit_chars_no_space base ds :
  base <= 16 -> Forall (is_digit_of base) ds ->
  Forall (fun c => is_space c = false) (map digit_char ds).
Proof.
  intros Hb H. apply Forall_fmap. eapply Forall_impl; [exact H|].
  intros d Hd. unfold is_digit_of in Hd. simpl.
  apply (digit_char_facts d). lia.
Qed.

Lemma digit_head_plain d r : 0 <= d < 16 ->
  split_sign (digit_char d :: r) = (false, digit_char d :: r)
  /\ skip_underscore (digit_char d :: r) = digit_char d :: r.
Proof. intros H. each_digit d H; split; reflexivity. Qed.

(** [int] reads back the decimal digits of [n]. *)
Lemma int_of_dec_string n : 0 <= n -> py_int_of_string 10 (dec_string n) = Ok n.
Proof.
  intros Hn. unfold dec_string.
  replace (n <? 0) with false by (symmetry; apply Z.ltb_ge; lia).
  unfold py_int_of_string, digits_string.
  destruct (to_digits_spec 10 n ltac:(lia) Hn) as (Hall & Hval & Hne).
  rewrite list_ascii_of_string_of_list_ascii.
  rewrite int_strip_no_space by (apply (digit_chars_no_space 10); [lia|exact Hall]).
  destruct (to_digits 10 n) as [|d ds] eqn:Hds; [congruence|].
  pose proof (Forall_inv Hall) as Hd. unfold is_digit_of in Hd. cbn [map].
  destruct (digit_head_plain d (map digit_char ds) ltac:(lia)) as [-> _].
  change (skip_prefix 10 ?cs) with cs.
  change (digit_char d :: map digit_char ds) with (map digit_char (d :: ds)).
  rewrite (scan_digits_digits 10 (d :: ds) 0 true ltac:(lia) Hall) by (left; discriminate).
  rewrite Hval. reflexivity.
Qed.

(** [int(_, 16)] reads back the hexadecimal digits of [n] after [0x]. *)
Lemma int_of_hex_string n : 0 <= n -> py_int_of_string 16 (hex_string n) = Ok n.
Proof.
  intros Hn. unfold py_int_of_string, hex_string, digits_string.
  destruct (to_digits_spec 16 n ltac:(lia) Hn) as (Hall & Hval & Hne).
  change ("0x" ++ ?s)%string with (String "0" (String "x" s)).
  cbn [list_ascii_of_string]. rewrite list_ascii_of_string_of_list_ascii.
  rewrite int_strip_no_space.
  2:{ repeat (constructor; [reflexivity|]).
      apply (digit_chars_no_space 16); [lia|exact Hall]. }
  destruct (to_digits 16 n) as [|d ds] eqn:Hds; [congruence|].
  pose proof (Forall_inv Hall) as Hd. unfold is_digit_of in Hd. cbn [map].
  change (split_sign ("0"%char :: ?r)) with (false, "0"%char :: r).
  cbv beta iota.
  change (skip_prefix 16 ("0"%char :: "x"%char :: ?r)) with (skip_underscore r).
  destruct (digit_head_plain d (map digit_char ds) ltac:(lia)) as [_ ->].
  change (digit_char d :: map digit_char ds) with (map digit_char (d :: ds)).
  rewrite (scan_digits_digits 16 (d :: ds) 0 true ltac:(lia) Hall) by (left; discriminate).
  rewrite Hval. reflexivity.
Qed.

Lemma prefix_0x_short a : String.prefix "0x" (String a EmptyString) = false.
Proof. cbn [String.prefix]. destruct (ascii_dec "0" a); reflexivity. Qed.

Lemma prefix_0x_other a b s :
  b <> "x"%char -> String.prefix "0x" (String a (String b s)) = false.
Proof.
  intros Hb. cbn [String.prefix]. destruct (ascii_dec "0" a); [|reflexivity].
  destruct (ascii_dec "x" b); [congruence|reflexivity].
Qed.

Lemma hex_string_prefixed n : startswith "0x" (hex_string n) = true.
Proof.
  unfold startswith, hex_string.
  change ("0x" ++ ?s)%string with (String "0" (String "x" s)).
  cbn [String.prefix].
  destruct (ascii_dec "0" "0"); [|congruence].
  destruct (ascii_dec "x" "x"); [|congruence].
  destruct (digits_string 16 n); reflexivity.
Qed.

Lemma dec_string_not_prefixed n : 0 <= n -> startswith "0x" (dec_string n) = false.
Proof.
  intros Hn. unfold dec_string.
  replace (n <? 0) with false by (symmetry; apply Z.ltb_ge; lia).
  unfold startswith, digits_string.
  destruct (to_digits_spec 10 n ltac:(lia) Hn) as (Hall & _ & _).
  destruct (to_digits 10 n) as [|d1 [|d2 ds]]; cbn [map string_of_list_ascii].
  - reflexivity.
  - apply prefix_0x_short.
  - apply prefix_0x_other.
    pose proof (Forall_inv (Forall_inv_tail Hall)) as Hd2.
    unfold is_digit_of in Hd2.
    assert (H16 : 0 <= d2 < 16) by lia.
    each_digit d2 H16; try lia; discriminate.
Qed.

Lemma dec_string_truthy n : 0 <= n -> truthy (VStr (dec_string n)) = true.
Proof.
  intros Hn. unfold dec_string.
  replace (n <? 0) with false by (symmetry; apply Z.ltb_ge; lia).
  unfold digits_string.
  destruct (to_digits_spec 10 n ltac:(lia) Hn) as (_ & _ & Hne).
  destruct (to_digits 10 n); [congruence|]. reflexivity.
Qed.

(** ** The three encodings of an amount are normalized alike *)

Lemma flat_value_encodes n e : 0 <= n -> encodes n e -> flat_value e = Ok (VInt n).
Proof.
  intros Hn [| |]; unfold flat_value.
  - reflexivity.
  - rewrite (dec_string_not_prefixed n Hn). unfold py_or.
    rewrite (dec_string_truthy n Hn). unfold py_int.
    rewrite (int_of_dec_string n Hn). reflexivity.
  - rewrite (hex_string_prefixed n), (int_of_hex_string n Hn). reflexivity.
Qed.

Lemma tree_value_encodes n e : 0 <= n -> encodes n e -> tree_value e = Ok n.
Proof.
  intros Hn [| |]; unfold tree_value.
  - unfold py_or, truthy. destruct (Z.eqb_spec n 0) as [->|]; reflexivity.
  - rewrite (dec_string_not_prefixed n Hn). unfold py_or.
    rewrite (dec_string_truthy n Hn). apply (int_of_dec_string n Hn).
  - rewrite (hex_string_prefixed n). apply (int_of_hex_string n Hn).
Qed.

(** ** Dicts and the call tree *)

Lemma dict_get_set_eq k v kvs : dict_get k (dict_set k v kvs) = Some v.
Proof.
  induction kvs as [|[k' x] kvs IH]; simpl.
  - rewrite String.eqb_refl. reflexivity.
  - destruct (String.eqb_spec k' k) as [->|Hne]; simpl.
    + rewrite String.eqb_refl. reflexivity.
    + destruct (String.eqb_spec k' k); [congruence|exact IH].
Qed.

Lemma dict_get_set_ne k k' v kvs : k <> k' -> dict_get k' (dict_set k v kvs) = dict_get k' kvs.
Proof.
  intros Hne. induction kvs as [|[k0 x] kvs IH]; simpl.
  - destruct (String.eqb_spec k k'); [congruence|reflexivity].
  - destruct (String.eqb_spec k0 k) as [->|Hk0]; simpl.
    + destruct (String.eqb_spec k k'); [congruence|reflexivity].
    + destruct (String.eqb_spec k0 k'); [reflexivity|exact IH].
Qed.

(** [dfs] on a dict, with the search for ["calls"] folded into [children]. *)
Lemma dfs_dict target kvs cnt :
  dfs target (VDict kvs) cnt
  = match node_value kvs with
    | Raise _ => cnt
    | Ok val =>
        fold_left (fun c child => dfs target child c) (children kvs)
          (if String.eqb (node_to kvs) target && (0 <? val) then cnt + 1 else cnt)
    end.
Proof.
  cbn [dfs]. destruct (node_value kvs) as [val|]; [|reflexivity].
  generalize (if String.eqb (node_to kvs) target && (0 <? val) then cnt + 1 else cnt).
  intros c1. unfold children.
  induction kvs as [|[k v] kvs IH]; [reflexivity|].
  cbn [dict_get]. destruct (String.eqb k "calls"); [|exact IH].
  destruct v; reflexivity.
Qed.

Lemma dfs_not_dict target v cnt : is_dict v = false -> dfs target v cnt = cnt.
Proof. destruct v; try reflexivity. discriminate. Qed.

(** Two encodings of the same amount in the same node count alike. *)
Lemma dfs_encodings target n e1 e2 kvs cnt :
  0 <= n -> encodes n e1 -> encodes n e2 ->
  dfs target (call_node kvs e1) cnt = dfs target (call_node kvs e2) cnt.
Proof.
  intros Hn H1 H2. unfold call_node. rewrite !dfs_dict.
  unfold node_value, node_to, children.
  rewrite !dict_get_set_eq, !dict_get_set_ne by discriminate. simpl default.
  rewrite (tree_value_encodes n e1 Hn H1), (tree_value_encodes n e2 Hn H2). reflexivity.
Qed.

(** Replacing a node by one that counts alike, anywhere in a call tree. *)
Lemma dfs_plug target ctx :
  forall x y,
    (forall c, dfs target x c = dfs target y c) ->
    forall c, dfs target (plug ctx x) c = dfs target (plug ctx y) c.
Proof.
  induction ctx as [|up IH kvs pre post]; intros x y Hxy c; [apply Hxy|].
  cbn [plug]. apply IH. clear c. intros c. rewrite !dfs_dict.
  unfold node_value, node_to, children.
  rewrite !dict_get_set_eq, !dict_get_set_ne by discriminate.
  destruct (tree_value _) as [val|]; [|reflexivity].
  rewrite !fold_left_app. cbn [fold_left]. rewrite Hxy. reflexivity.
Qed.

(** The top of a plugged tree is a non-empty dict whose ["result"] entry
    does not depend on what is plugged. *)
Lemma plug_top ctx :
  forall kx ky,
    kx <> [] -> ky <> [] -> dict_get "result" kx = dict_get "result" ky ->
    exists tx ty,
      plug ctx (VDict kx) = VDict tx /\ plug ctx (VDict ky) = VDict ty
      /\ tx <> [] /\ ty <> [] /\ dict_get "result" tx = dict_get "result" ty.
Proof.
  induction ctx as [|up IH kvs pre post]; intros kx ky Hx Hy Hr.
  - exists kx, ky. repeat split; assumption.
  - cbn [plug]. apply IH.
    + destruct kvs as [|[k v] kvs]; simpl; [discriminate|]. destruct (String.eqb k "calls"); discriminate.
    + destruct kvs as [|[k v] kvs]; simpl; [discriminate|]. destruct (String.eqb k "calls"); discriminate.
    + rewrite !dict_get_set_ne by discriminate. reflexivity.
Qed.

Lemma dict_set_nonempty k v kvs : dict_set k v kvs <> [].
Proof. destruct kvs as [|[k' x] kvs]; simpl; [discriminate|]. destruct (String.eqb k' k); discriminate. Qed.

Lemma truthy_nonempty_dict kvs : kvs <> [] -> truthy (VDict kvs) = true.
Proof. destruct kvs; [congruence|reflexivity]. Qed.

Lemma debug_root_encodings target n e1 e2 wrap ctx kvs c :
  0 <= n -> encodes n e1 -> encodes n e2 ->
  debug_root target (trace_item wrap (plug ctx (call_node kvs e1))) c
  = debug_root target (trace_item wrap (plug ctx (call_node kvs e2))) c.
Proof.
  intros Hn H1 H2.
  assert (Hdfs : forall c', dfs target (plug ctx (call_node kvs e1)) c'
                            = dfs target (plug ctx (call_node kvs e2)) c').
  { apply dfs_plug. intros c'. apply (dfs_encodings target n); assumption. }
  destruct (plug_top ctx (dict_set "value" e1 kvs) (dict_set "value" e2 kvs))
    as (tx & ty & Hx & Hy & Hnx & Hny & Hres).
  { apply dict_set_nonempty. }
  { apply dict_set_nonempty. }
  { rewrite !dict_get_set_ne by discriminate. reflexivity. }
  unfold call_node in *. rewrite Hx, Hy in *.
  destruct wrap as [okvs|]; unfold trace_item, debug_root, py_get.
  - rewrite !dict_get_set_eq. cbn [default from_option id mbind result_bind]. unfold py_or.
    rewrite !truthy_nonempty_dict by assumption. cbn [is_dict]. rewrite Hdfs. reflexivity.
  - rewrite Hres. cbn [mbind result_bind]. unfold py_or.
    destruct (truthy (default VNone (dict_get "result" ty))); [reflexivity|].
    cbn [is_dict]. rewrite Hdfs. reflexivity.
Qed.

Lemma debug_items_replace target x y pre post :
  (forall c, debug_root target x c = debug_root target y c) ->
  forall c, debug_items target (pre ++ x :: post) c = debug_items target (pre ++ y :: post) c.
Proof.
  intros Hxy. induction pre as [|p pre IH]; intros c; simpl.
  - rewrite Hxy. reflexivity.
  - destruct (debug_root target p c) as [c'|]; simpl; [apply IH|reflexivity].
Qed.

Lemma count_flat_replace target x y pre post :
  flat_entry_hit target x = flat_entry_hit target y ->
  forall c, count_flat target (pre ++ x :: post) c = count_flat target (pre ++ y :: post) c.
Proof.
  intros Hxy c. unfold count_flat. rewrite !fold_left_app. cbn [fold_left].
  rewrite Hxy. reflexivity.
Qed.

Lemma flat_entry_encodings target n e1 e2 tkvs akvs :
  0 <= n -> encodes n e1 -> encodes n e2 ->
  flat_entry_hit target (flat_entry tkvs akvs e1) = flat_entry_hit target (flat_entry tkvs akvs e2).
Proof.
  intros Hn H1 H2. unfold flat_entry, flat_entry_hit, py_get.
  rewrite !dict_get_set_eq, !dict_get_set_ne by discriminate.
  cbn [default from_option id mbind result_bind].
  destruct (negb _); [reflexivity|]. unfold py_or.
  rewrite !truthy_nonempty_dict by apply dict_set_nonempty.
  rewrite !dict_get_set_eq, !dict_get_set_ne by discriminate.
  cbn [default from_option id mbind result_bind].
  rewrite (flat_value_encodes n e1 Hn H1), (flat_value_encodes n e2 Hn H2). reflexivity.
Qed.

Lemma values_of_dict_set k l :
  exists pre post, forall x : pyval, map snd (dict_set k x l) = (pre ++ x :: post)%list.
Proof.
  induction l as [|[k' v] l (pre & post & IH)]; simpl.
  - exists [], []. reflexivity.
  - destruct (String.eqb k' k).
    + exists [], (map snd l). reflexivity.
    + exists (v :: pre), post. intros x. simpl. rewrite IH. reflexivity.
Qed.

(** C8.  The hexadecimal string, the decimal string and the integer that
    stand for the same amount [n] (["0x5"], ["5"] and [5] for [n = 5]) are
    normalized to [n], in a flat entry as in a call-tree node, and
    [count_internal_receives] returns the same count whichever of them a
    trace node carries: a flat entry anywhere in a [trace_block] list, a
    call-tree node at any depth of an item of a [debug_trace] list or dict. *)
Theorem encodings_count_identically :
  forall (n : Z) (e1 e2 : pyval) (target : string),
    0 <= n -> encodes n e1 -> encodes n e2 ->
    flat_value e1 = Ok (VInt n)
    /\ tree_value e1 = Ok n
    /\ (forall tkvs akvs pre post,
          PublicRpc.count_internal_receives (VStr "trace_block")
            (VList (pre ++ flat_entry tkvs akvs e1 :: post)) target
          = PublicRpc.count_internal_receives (VStr "trace_block")
              (VList (pre ++ flat_entry tkvs akvs e2 :: post)) target
          /\ HighPerf.count_internal_receives (VStr "trace_block")
               (VList (pre ++ flat_entry tkvs akvs e1 :: post)) target
             = HighPerf.count_internal_receives (VStr "trace_block")
                 (VList (pre ++ flat_entry tkvs akvs e2 :: post)) target)
    /\ (forall wrap ctx kvs pre post,
          PublicRpc.count_internal_receives (VStr "debug_trace")
            (VList (pre ++ trace_item wrap (plug ctx (call_node kvs e1)) :: post)) target
          = PublicRpc.count_internal_receives (VStr "debug_trace")
              (VList (pre ++ trace_item wrap (plug ctx (call_node kvs e2)) :: post)) target
          /\ HighPerf.count_internal_receives (VStr "debug_trace")
               (VList (pre ++ trace_item wrap (plug ctx (call_node kvs e1)) :: post)) target
             = HighPerf.count_internal_receives (VStr "debug_trace")
                 (VList (pre ++ trace_item wrap (plug ctx (call_node kvs e2)) :: post)) target)
    /\ (forall wrap ctx kvs tx_hash payload,
          PublicRpc.count_internal_receives (VStr "debug_trace")
            (VDict (dict_set tx_hash (trace_item wrap (plug ctx (call_node kvs e1))) payload))
            target
          = PublicRpc.count_internal_receives (VStr "debug_trace")
              (VDict (dict_set tx_hash (trace_item wrap (plug ctx (call_node kvs e2))) payload))
              target
          /\ HighPerf.count_internal_receives (VStr "debug_trace")
               (VDict (dict_set tx_hash (trace_item wrap (plug ctx (call_node kvs e1))) payload))
               target
             = HighPerf.count_internal_receives (VStr "debug_trace")
                 (VDict (dict_set tx_hash (trace_item wrap (plug ctx (call_node kvs e2))) payload))
                 target).
Proof.
  intros n e1 e2 target Hn H1 H2.
  split; [apply flat_value_encodes; assumption|].
  split; [apply tree_value_encodes; assumption|].
  split; [|split].
  - intros tkvs akvs pre post.
    unfold PublicRpc.count_internal_receives, HighPerf.count_internal_receives.
    cbn [eq_str String.eqb Ascii.eqb Bool.eqb py_iter mbind result_bind].
    rewrite (count_flat_replace (py_lower target) _ _ pre post
               (flat_entry_encodings (py_lower target) n e1 e2 tkvs akvs Hn H1 H2)).
    split; reflexivity.
  - intros wrap ctx kvs pre post.
    unfold PublicRpc.count_internal_receives, HighPerf.count_internal_receives.
    cbn [eq_str String.eqb Ascii.eqb Bool.eqb count_debug].
    rewrite (debug_items_replace (py_lower target) _ _ pre post
               (fun c => debug_root_encodings (py_lower target) n e1 e2 wrap ctx kvs c Hn H1 H2)).
    split; reflexivity.
  - intros wrap ctx kvs h payload.
    unfold PublicRpc.count_internal_receives, HighPerf.count_internal_receives.
    cbn [eq_str String.eqb Ascii.eqb Bool.eqb count_debug].
    destruct (values_of_dict_set h payload) as (pre & post & Hvals).
    rewrite !Hvals.
    rewrite (debug_items_replace (py_lower target) _ _ pre post
               (fun c => debug_root_encodings (py_lower target) n e1 e2 wrap ctx kvs c Hn H1 H2)).
    split; reflexivity.
Qed.

Lemma encodings_count_identically_witness :
  let node e := call_node [("to", VStr "0xB")] e in
  flat_value (VStr "0x5") = Ok (VInt 5)
  /\ tree_value (VStr "5") = Ok 5
  /\ PublicRpc.count_internal_receives (VStr "debug_trace") (VList [node (VStr "0x5")]) "0xb"
     = PublicRpc.count_internal_receives (VStr "debug_trace") (VList [node (VInt 5)]) "0xb"
  /\ PublicRpc.count_internal_receives (VStr "debug_trace") (VList [node (VStr "5")]) "0xb"
     = PublicRpc.count_internal_receives (VStr "debug_trace") (VList [node (VInt 5)]) "0xb"
  /\ PublicRpc.count_internal_receives (VStr "debug_trace") (VList [node (VInt 5)]) "0xb" = Ok 1.
Proof.
  intros node.
  pose proof (encodings_count_identically 5 (VStr "0x5") (VInt 5) "0xb" ltac:(lia)
                (encodes_hex 5) (encodes_int 5)) as (Hflat & _ & _ & Hhex & _).
  pose proof (encodings_count_identically 5 (VStr "5") (VInt 5) "0xb" ltac:(lia)
                (encodes_dec 5) (encodes_int 5)) as (_ & Htree & _ & Hdec & _).
  split; [exact Hflat|]. split; [exact Htree|].
  split; [exact (proj1 (Hhex None Here [("to", VStr "0xB")] [] []))|].
  split; [exact (proj1 (Hdec None Here [("to", VStr "0xB")] [] []))|].
  reflexivity.
Defined.

(** ** The contract cache *)

Lemma cache_kept_refl m : cache_kept m m.
Proof. intros k v H. exact H. Qed.

Lemma cache_kept_trans m1 m2 m3 : cache_kept m1 m2 -> cache_kept m2 m3 -> cache_kept m1 m3.
Proof. intros H12 H23 k v H. apply H23, H12, H. Qed.

Lemma cache_kept_insert_fresh (m : gmap string bool) k b :
  m !! k = None -> cache_kept m (<[k := b]> m).
Proof.
  intros Hfresh k' v H. rewrite lookup_insert_ne; [exact H|]. congruence.
Qed.

Lemma public_is_contract_keeps w3 addr cache log r cache' log' :
  PublicRpc.is_contract w3 addr cache log = (r, cache', log') -> cache_kept cache cache'.
Proof.
  unfold PublicRpc.is_contract. destruct (String.eqb addr "").
  { intros [= _ <- _]. apply cache_kept_refl. }
  destruct (PublicRpc.to_checksum_address w3 addr) as [al|].
  2:{ intros [= _ <- _]. apply cache_kept_refl. }
  destruct (cache !! py_lower al) eqn:Hhit.
  { intros [= _ <- _]. apply cache_kept_refl. }
  destruct (PublicRpc.get_code w3 (length log) al).
  - intros [= _ <- _]. apply cache_kept_insert_fresh. exact Hhit.
  - intros [= _ <- _]. apply cache_kept_refl.
Qed.

Lemma public_is_contract_again w3 addr cache log r cache' log' :
  PublicRpc.is_contract w3 addr cache log = (Ok r, cache', log') ->
  PublicRpc.is_contract w3 addr cache' log' = (Ok r, cache', log').
Proof.
  unfold PublicRpc.is_contract. destruct (String.eqb addr "").
  { intros [= <- <- <-]. reflexivity. }
  destruct (PublicRpc.to_checksum_address w3 addr) as [al|]; [|discriminate].
  destruct (cache !! py_lower al) eqn:Hhit.
  { intros [= <- <- <-]. rewrite Hhit. reflexivity. }
  destruct (PublicRpc.get_code w3 (length log) al); [|discriminate].
  intros [= <- <- <-]. rewrite lookup_insert_eq. reflexivity.
Qed.

Lemma batch_is_contract_body_keeps api address st r st' :
  BatchStats.is_contract_body api address st = (r, st') ->
  cache_kept (BatchStats.contract_cache st) (BatchStats.contract_cache st').
Proof.
  unfold BatchStats.is_contract_body.
  destruct (BatchStats.contract_cache st !! py_lower address) eqn:Hhit.
  { intros [= _ <-]. apply cache_kept_refl. }
  destruct (BatchStats.get_code_body api _ address) as [data|].
  2:{ intros [= _ <-]. apply cache_kept_refl. }
  destruct (py_get data "result" (VStr "0x")).
  - intros [= _ <-]. simpl. apply cache_kept_insert_fresh. exact Hhit.
  - intros [= _ <-]. apply cache_kept_refl.
Qed.

Lemma batch_is_contract_keeps api budget :
  forall address st r st',
    BatchStats.is_contract api budget address st = (r, st') ->
    cache_kept (BatchStats.contract_cache st) (BatchStats.contract_cache st').
Proof.
  induction budget as [|budget IH]; intros address st r st'; simpl;
    destruct (BatchStats.is_contract_body api address st) as [r1 st1] eqn:Hbody;
    pose proof (batch_is_contract_body_keeps _ _ _ _ _ Hbody) as Hkept.
  - destruct r1 as [|[]]; intros [= _ <-]; exact Hkept.
  - destruct r1 as [|[]]; try (intros [= _ <-]; exact Hkept).
    intros Hrec. eapply cache_kept_trans; [exact Hkept|]. eapply IH. exact Hrec.
Qed.

Lemma batch_is_contract_hit api budget address st b :
  BatchStats.contract_cache st !! py_lower address = Some b ->
  BatchStats.is_contract api budget address st = (Ok b, st).
Proof.
  intros Hhit.
  assert (Hbody : BatchStats.is_contract_body api address st = (Ok b, st)).
  { unfold BatchStats.is_contract_body. rewrite Hhit. reflexivity. }
  destruct budget; simpl; rewrite Hbody; reflexivity.
Qed.

Lemma batch_is_contract_again api budget :
  forall address st r st',
    BatchStats.is_contract api budget address st = (Ok r, st') ->
    forall budget', BatchStats.is_contract api budget' address st' = (Ok r, st').
Proof.
  induction budget as [|budget IH]; intros address st r st' Hrun budget';
    simpl in Hrun;
    destruct (BatchStats.is_contract_body api address st) as [r1 st1] eqn:Hbody.
  - destruct r1 as [b|[]]; try discriminate. injection Hrun as <- <-.
    apply batch_is_contract_hit. revert Hbody. unfold BatchStats.is_contract_body.
    destruct (BatchStats.contract_cache st !! py_lower address) eqn:Hhit.
    + intros [= <- <-]. exact Hhit.
    + destruct (BatchStats.get_code_body api _ address) as [data|]; [|discriminate].
      destruct (py_get data "result" (VStr "0x")); [|discriminate].
      intros [= <- <-]. simpl. apply lookup_insert_eq.
  - destruct r1 as [b|e].
    + injection Hrun as <- <-.
      apply batch_is_contract_hit. revert Hbody. unfold BatchStats.is_contract_body.
      destruct (BatchStats.contract_cache st !! py_lower address) eqn:Hhit.
      * intros [= <- <-]. exact Hhit.
      * destruct (BatchStats.get_code_body api _ address) as [data|]; [|discriminate].
        destruct (py_get data "result" (VStr "0x")); [|discriminate].
        intros [= <- <-]. simpl. apply lookup_insert_eq.
    + destruct e; try discriminate. eapply IH. exact Hrun.
Qed.

Lemma scan_tx_keeps w3 check_success tx s :
  cache_kept (PublicRpc.contract_cache s)
             (PublicRpc.contract_cache (PublicRpc.scan_tx w3 check_success tx s)).
Proof.
  unfold PublicRpc.scan_tx.
  destruct check_success; simpl.
  - destruct (negb _); simpl; [apply cache_kept_refl|].
    destruct (String.eqb (PublicRpc.tx_from tx) ""), (String.eqb (PublicRpc.tx_to tx) "");
      simpl; try apply cache_kept_refl;
      match goal with
      | |- context [PublicRpc.is_contract ?a ?b ?c ?d] =>
          destruct (PublicRpc.is_contract a b c d) as [[r cache'] log'] eqn:His
      end; simpl; eapply public_is_contract_keeps; exact His.
  - destruct (String.eqb (PublicRpc.tx_from tx) ""), (String.eqb (PublicRpc.tx_to tx) "");
      simpl; try apply cache_kept_refl;
      match goal with
      | |- context [PublicRpc.is_contract ?a ?b ?c ?d] =>
          destruct (PublicRpc.is_contract a b c d) as [[r cache'] log'] eqn:His
      end; simpl; eapply public_is_contract_keeps; exact His.
Qed.

(** C9.  A classification request for an address that is in the cache
    returns the cached boolean and sends no code lookup: the log of provider
    calls, respectively the count of lookups, is as before.  A request
    repeated after one that returned finds its entry.  No request, and no
    transaction of the scan, changes or removes an entry that is there. *)
Theorem cached_address_needs_no_lookup :
  forall (w3 : PublicRpc.Web3) (addr al : string) (cache : gmap string bool)
         (log : list PublicRpc.rpc_call) (b : bool)
         (api : BatchStats.Etherscan) (budget : nat) (address : string)
         (st : BatchStats.state) (b' : bool),
    addr <> "" ->
    PublicRpc.to_checksum_address w3 addr = Ok al ->
    cache !! py_lower al = Some b ->
    BatchStats.contract_cache st !! py_lower address = Some b' ->
    PublicRpc.is_contract w3 addr cache log = (Ok b, cache, log)
    /\ BatchStats.is_contract api budget address st = (Ok b', st)
    /\ (forall addr' r cache' log',
          PublicRpc.is_contract w3 addr' cache log = (Ok r, cache', log') ->
          PublicRpc.is_contract w3 addr' cache' log' = (Ok r, cache', log'))
    /\ (forall address' r st' budget',
          BatchStats.is_contract api budget address' st = (Ok r, st') ->
          BatchStats.is_contract api budget' address' st' = (Ok r, st'))
    /\ (forall addr' r cache' log',
          PublicRpc.is_contract w3 addr' cache log = (r, cache', log') ->
          cache_kept cache cache')
    /\ (forall address' r st',
          BatchStats.is_contract api budget address' st = (r, st') ->
          cache_kept (BatchStats.contract_cache st) (BatchStats.contract_cache st'))
    /\ (forall check_success tx s,
          cache_kept (PublicRpc.contract_cache s)
                     (PublicRpc.contract_cache (PublicRpc.scan_tx w3 check_success tx s))).
Proof.
  intros w3 addr al cache log b api budget address st b' Hne Hsum Hhit Hhit'.
  split; [|split; [|split; [|split; [|split; [|split]]]]].
  - unfold PublicRpc.is_contract.
    destruct (String.eqb_spec addr ""); [congruence|].
    rewrite Hsum, Hhit. reflexivity.
  - apply batch_is_contract_hit. exact Hhit'.
  - intros addr' r cache' log'. apply public_is_contract_again.
  - intros address' r st' budget' Hrun. eapply batch_is_contract_again. exact Hrun.
  - intros addr' r cache' log'. apply public_is_contract_keeps.
  - intros address' r st'. apply batch_is_contract_keeps.
  - intros cs tx s. apply scan_tx_keeps.
Qed.

Lemma cached_address_needs_no_lookup_witness :
  let cache : gmap string bool := {[Examples.lower_b := true]} in
  let st := BatchStats.mkState {["0xcc" := true]} 0 in
  PublicRpc.is_contract Examples.node_one_tx Examples.lower_b cache []
  = (Ok true, cache, [])
  /\ BatchStats.is_contract Examples.etherscan_one_tx 0 "0xCC" st = (Ok true, st).
Proof.
  intros cache st.
  pose proof (cached_address_needs_no_lookup Examples.node_one_tx Examples.lower_b
                Examples.addr_b cache []
                true Examples.etherscan_one_tx 0 "0xCC" st true
                ltac:(discriminate) eq_refl eq_refl eq_refl) as (Hpub & Hbatch & _).
  split; [exact Hpub|exact Hbatch].
Defined.

(** ** The rows and the observed addresses *)

Lemma emit_rows_addresses w3 with_balances balance_limit s :
  map AddressStats.address (PublicRpc.emit_rows w3 with_balances balance_limit s)
  = if 0 <? balance_limit
    then take (Z.to_nat balance_limit) (sorted_strings (elements (PublicRpc.seen_addrs s)))
    else sorted_strings (elements (PublicRpc.seen_addrs s)).
Proof.
  unfold PublicRpc.emit_rows. rewrite map_map. simpl. apply map_id.
Qed.

(** Without a positive [balance_limit] there is exactly one row per observed
    address. *)
Lemma rows_cover_seen_without_limit w3 with_balances balance_limit s :
  balance_limit <= 0 ->
  map AddressStats.address (PublicRpc.emit_rows w3 with_balances balance_limit s)
  ≡ₚ elements (PublicRpc.seen_addrs s).
Proof.
  intros Hle. rewrite emit_rows_addresses.
  replace (0 <? balance_limit) with false by (symmetry; apply Z.ltb_ge; lia).
  apply merge_sort_Permutation.
Qed.

(** C3, the defect.  After a block with one transaction from [addr_a] to
    [addr_b] two addresses are observed; with [balance_limit = 1], which the
    command line documents as the number of addresses to fetch balances for,
    [scan_range] emits the row of [addr_a] only. *)
Theorem balance_limit_truncates_rows :
  (exists s,
      PublicRpc.scan_blocks Examples.node_one_tx false false
        (PublicRpc.block_range 10 10) PublicRpc.scan_init = Ok s
      /\ sorted_strings (elements (PublicRpc.seen_addrs s))
         = [Examples.lower_a; Examples.lower_b])
  /\ (map AddressStats.address <$>
        PublicRpc.scan_range Examples.node_one_tx 10 10 false true 1 false)
     = Ok [Examples.lower_a]
  /\ (map AddressStats.address <$>
        PublicRpc.scan_range Examples.node_one_tx 10 10 false true 0 false)
     = Ok [Examples.lower_a; Examples.lower_b].
Proof.
  split; [|split].
  - eexists. split; [vm_compute; reflexivity|]. vm_compute. reflexivity.
  - vm_compute. reflexivity.
  - vm_compute. reflexivity.
Qed.

(** ** [count_internal_receives]: where it is total and where it is not *)

Lemma count_flat_ge target entries : forall cnt, cnt <= count_flat target entries cnt.
Proof.
  unfold count_flat. induction entries as [|t entries IH]; intros cnt; simpl; [lia|].
  destruct (try_except _ false); [|apply IH].
  etransitivity; [|apply IH]. lia.
Qed.

Lemma fold_dfs_ge target cs :
  Forall (fun x => forall cnt, cnt <= dfs target x cnt) cs ->
  forall cnt, cnt <= fold_left (fun c child => dfs target child c) cs cnt.
Proof.
  induction 1 as [|x cs Hx _ IH]; intros cnt; simpl; [lia|].
  etransitivity; [apply Hx|apply IH].
Qed.

Lemma dict_get_In k kvs v : dict_get k kvs = Some v -> In (k, v) kvs.
Proof.
  induction kvs as [|[k' x] kvs IH]; simpl; [discriminate|].
  destruct (String.eqb_spec k' k) as [->|_].
  - intros [= ->]. left. reflexivity.
  - intros H. right. apply IH, H.
Qed.

(** [dfs] never lowers the count, on any value. *)
Lemma dfs_ge target node : forall cnt, cnt <= dfs target node cnt.
Proof.
  cut ((forall cnt, cnt <= dfs target node cnt)
       /\ match node with
          | VList cs => Forall (fun x => forall cnt, cnt <= dfs target x cnt) cs
          | _ => True
          end); [intros [H _]; exact H|].
  induction node as [| | | |l IH|kvs IH] using pyval_nested_ind;
    try (split; [intros cnt; simpl; lia|exact I]).
  - split; [intros cnt; simpl; lia|].
    eapply Forall_impl; [exact IH|]. intros x [Hx _]. exact Hx.
  - split; [|exact I]. intros cnt. rewrite dfs_dict.
    destruct (node_value kvs) as [val|]; [|lia].
    etransitivity; [|apply fold_dfs_ge].
    + destruct (_ && _); lia.
    + unfold children. destruct (dict_get "calls" kvs) as [[| | | |cs|]|] eqn:Hcalls;
        try constructor.
      apply dict_get_In in Hcalls. rewrite Forall_forall in IH.
      apply list_elem_of_In in Hcalls. apply (IH _ Hcalls).
Qed.

Lemma debug_items_total target items :
  Forall (fun v => is_dict v = true) items ->
  forall cnt, exists c, debug_items target items cnt = Ok c /\ cnt <= c.
Proof.
  induction 1 as [|v items Hv _ IH]; intros cnt; simpl.
  - exists cnt. split; [reflexivity|lia].
  - destruct v as [| | | | |kvs]; try discriminate.
    unfold debug_root, py_get. cbn [mbind result_bind].
    set (root := py_or (default VNone (dict_get "result" kvs)) (VDict kvs)).
    assert (Hstep : cnt <= (if is_dict root then dfs target root cnt else cnt)).
    { destruct (is_dict root); [apply dfs_ge|lia]. }
    destruct (IH (if is_dict root then dfs target root cnt else cnt)) as (c & Hc & Hle).
    exists c. split; [exact Hc|lia].
Qed.

(** Under the tag [trace_block] a list is counted without an exception;
    under [debug_trace] a list or a dict is, provided its top-level items are
    dicts; under any other tag the count is 0 and the payload is not looked
    at.  The count is never negative. *)
Lemma count_internal_receives_total tag payload target :
  (eq_str tag "trace_block" = true -> is_list payload = true ->
   exists c, PublicRpc.count_internal_receives tag payload target = Ok c
             /\ HighPerf.count_internal_receives tag payload target = Ok c /\ 0 <= c)
  /\ (eq_str tag "trace_block" = false -> eq_str tag "debug_trace" = true ->
      match payload with
      | VList items => Forall (fun v => is_dict v = true) items
      | VDict kvs => Forall (fun v => is_dict v = true) (map snd kvs)
      | _ => True
      end ->
      exists c, PublicRpc.count_internal_receives tag payload target = Ok c
                /\ HighPerf.count_internal_receives tag payload target = Ok c /\ 0 <= c)
  /\ (eq_str tag "trace_block" = false -> eq_str tag "debug_trace" = false ->
      PublicRpc.count_internal_receives tag payload target = Ok 0
      /\ HighPerf.count_internal_receives tag payload target = Ok 0).
Proof.
  unfold PublicRpc.count_internal_receives, HighPerf.count_internal_receives.
  split; [|split].
  - intros -> Hlist. destruct payload; try discriminate. simpl.
    eexists. split; [reflexivity|]. split; [reflexivity|apply count_flat_ge].
  - intros -> -> Hitems. unfold count_debug. destruct payload as [| | | |l|kvs];
      try (exists 0; repeat split; reflexivity || lia).
    + destruct (debug_items_total (py_lower target) l Hitems 0) as (c & -> & Hc).
      exists c. split; [reflexivity|]. split; [reflexivity|exact Hc].
    + destruct (debug_items_total (py_lower target) _ Hitems 0) as (c & -> & Hc).
      exists c. split; [reflexivity|]. split; [reflexivity|exact Hc].
  - intros -> ->. split; reflexivity.
Qed.

(** C10, the defect.  Under the tag [debug_trace] a list whose item is not a
    dict makes [count_internal_receives] raise, in both scripts: [item.get]
    is called outside any [try].  The same item in a [trace_block] list is
    skipped. *)
Theorem debug_trace_item_without_get_raises :
  PublicRpc.count_internal_receives (VStr "debug_trace") (VList [VInt 5]) "0xb"
  = Raise AttributeError
  /\ HighPerf.count_internal_receives (VStr "debug_trace") (VList [VInt 5]) "0xb"
     = Raise AttributeError
  /\ PublicRpc.count_internal_receives (VStr "debug_trace")
       (VDict [("0x01", VNone)]) "0xb" = Raise AttributeError
  /\ PublicRpc.count_internal_receives (VStr "trace_block") (VList [VInt 5]) "0xb" = Ok 0.
Proof. repeat split; reflexivity. Qed.

(** * Further properties of the code *)

(** ** The transport, whatever the network does *)

Lemma cur_endpoint_in_pool c :
  HighPerf.endpoints c <> [] -> HighPerf._cur_endpoint c ∈ HighPerf.endpoints c.
Proof.
  intros Hne. unfold HighPerf._cur_endpoint. apply list_elem_of_In, nth_In.
  apply Nat.mod_upper_bound. destruct (HighPerf.endpoints c); [congruence|discriminate].
Qed.

Lemma post_loop_frame net payload todo :
  forall attempt c r c',
    HighPerf.post_loop net payload todo attempt c = (r, c') ->
    HighPerf.endpoints c' = HighPerf.endpoints c
    /\ HighPerf.max_retries c' = HighPerf.max_retries c
    /\ HighPerf._id c' = HighPerf._id c
    /\ (HighPerf.sent c <= HighPerf.sent c' <= HighPerf.sent c + todo)%nat
    /\ match r with
       | Ok _ =>
           (warnings (HighPerf.trace c') + 1
            = warnings (HighPerf.trace c) + (HighPerf.sent c' - HighPerf.sent c))%nat
       | Raise e =>
           e = fatal
           /\ HighPerf.sent c' = (HighPerf.sent c + todo)%nat
           /\ warnings (HighPerf.trace c') = (warnings (HighPerf.trace c) + todo)%nat
       end.
Proof.
  induction todo as [|todo IH]; intros attempt c r c'; simpl.
  - intros [= <- <-]. repeat split; lia.
  - destruct (net (HighPerf.sent c) (HighPerf._cur_endpoint c) payload) as [body|e].
    + intros [= <- <-]. simpl. repeat split; lia.
    + match goal with
      | |- HighPerf.post_loop _ _ _ _ ?x = _ -> _ => set (c2 := x)
      end.
      assert (Hc2 : HighPerf.endpoints c2 = HighPerf.endpoints c
                    /\ HighPerf.max_retries c2 = HighPerf.max_retries c
                    /\ HighPerf._id c2 = HighPerf._id c
                    /\ HighPerf.sent c2 = S (HighPerf.sent c)
                    /\ warnings (HighPerf.trace c2) = S (warnings (HighPerf.trace c))).
      { subst c2. destruct (_ && _); simpl; repeat split; reflexivity. }
      destruct Hc2 as (He & Hm & Hi & Hs & Hw).
      intros Hrun. destruct (IH _ _ _ _ Hrun) as (He' & Hm' & Hi' & Hs' & Hr).
      split; [congruence|]. split; [congruence|]. split; [congruence|]. split; [lia|].
      destruct r as [body|e']; [lia|].
      destruct Hr as (-> & Hs2 & Hw2). repeat split; lia.
Qed.

Lemma post_loop_pool net payload todo :
  forall attempt c r c',
    HighPerf.endpoints c <> [] ->
    (HighPerf._endpoint_idx c < length (HighPerf.endpoints c))%nat ->
    Forall (warned_in_pool (HighPerf.endpoints c)) (HighPerf.trace c) ->
    HighPerf.post_loop net payload todo attempt c = (r, c') ->
    (HighPerf._endpoint_idx c' < length (HighPerf.endpoints c))%nat
    /\ Forall (warned_in_pool (HighPerf.endpoints c)) (HighPerf.trace c')
    /\ HighPerf._endpoint_idx c'
       = ((HighPerf._endpoint_idx c
           + (rotations (HighPerf.trace c') - rotations (HighPerf.trace c)))
          mod length (HighPerf.endpoints c))%nat
    /\ (rotations (HighPerf.trace c) <= rotations (HighPerf.trace c'))%nat.
Proof.
  induction todo as [|todo IH]; intros attempt c r c' Hne Hidx Htr; simpl.
  - intros [= <- <-]. repeat split; try assumption; [|lia].
    replace (_ - _)%nat with 0%nat by lia. rewrite Nat.add_0_r.
    symmetry. apply Nat.mod_small. exact Hidx.
  - destruct (net (HighPerf.sent c) (HighPerf._cur_endpoint c) payload) as [body|e].
    + intros [= <- <-]. simpl. repeat split; try assumption; [|lia].
      replace (_ - _)%nat with 0%nat by lia. rewrite Nat.add_0_r.
      symmetry. apply Nat.mod_small. exact Hidx.
    + match goal with
      | |- HighPerf.post_loop _ _ _ _ ?x = _ -> _ => set (c2 := x)
      end.
      set (L := length (HighPerf.endpoints c)) in *.
      assert (HL : (0 < L)%nat) by lia.
      assert (Hc2 : HighPerf.endpoints c2 = HighPerf.endpoints c
                    /\ (HighPerf._endpoint_idx c2 < L)%nat
                    /\ Forall (warned_in_pool (HighPerf.endpoints c)) (HighPerf.trace c2)
                    /\ exists d,
                         rotations (HighPerf.trace c2) = (rotations (HighPerf.trace c) + d)%nat
                         /\ HighPerf._endpoint_idx c2
                            = ((HighPerf._endpoint_idx c + d) mod L)%nat).
      { assert (Hwarn : warned_in_pool (HighPerf.endpoints c)
                          (HighPerf.Warn (HighPerf._cur_endpoint c) attempt))
          by (apply cur_endpoint_in_pool; exact Hne).
        subst c2. destruct (_ && _); simpl.
        - split; [reflexivity|]. split; [apply Nat.mod_upper_bound; lia|].
          split; [repeat constructor; assumption|].
          exists 1%nat. split; [lia|reflexivity].
        - split; [reflexivity|]. split; [exact Hidx|].
          split; [constructor; assumption|].
          exists 0%nat. split; [lia|]. rewrite Nat.add_0_r.
          symmetry. apply Nat.mod_small. exact Hidx. }
      destruct Hc2 as (He & Hi2 & Htr2 & d & Hrot & Hidx2).
      intros Hrun.
      destruct (IH (attempt + 1) c2 r c') as (Hi' & Htr' & Hidx' & Hmono).
      * rewrite He. exact Hne.
      * rewrite He. exact Hi2.
      * rewrite He. exact Htr2.
      * exact Hrun.
      * rewrite He in *. fold L in Hi', Hidx'.
        split; [exact Hi'|]. split; [exact Htr'|]. split; [|lia].
        rewrite Hidx', Hidx2, Hrot.
        rewrite Nat.Div0.add_mod_idemp_l. f_equal. lia.
Qed.

(** X1.  Whatever the network does, [_post] sends at most [max_retries]
    POSTs, warns once for each one that failed, and raises nothing but the
    fatal error, after exactly [max_retries] of them; it leaves the pool, the
    retry budget and the id counter as they were. *)
Theorem post_attempts_are_bounded :
  forall (net : HighPerf.network) (payload : pyval) (c c' : HighPerf.RPCClient)
         (r : result pyval),
    HighPerf._post net payload c = (r, c') ->
    HighPerf.endpoints c' = HighPerf.endpoints c
    /\ HighPerf.max_retries c' = HighPerf.max_retries c
    /\ HighPerf._id c' = HighPerf._id c
    /\ (HighPerf.sent c <= HighPerf.sent c'
        <= HighPerf.sent c + Z.to_nat (HighPerf.max_retries c))%nat
    /\ match r with
       | Ok _ =>
           (warnings (HighPerf.trace c') + 1
            = warnings (HighPerf.trace c) + (HighPerf.sent c' - HighPerf.sent c))%nat
       | Raise e =>
           e = fatal
           /\ HighPerf.sent c' = (HighPerf.sent c + Z.to_nat (HighPerf.max_retries c))%nat
           /\ warnings (HighPerf.trace c')
              = (warnings (HighPerf.trace c) + Z.to_nat (HighPerf.max_retries c))%nat
       end.
Proof. intros net payload c c' r. apply post_loop_frame. Qed.

Lemma post_attempts_are_bounded_witness :
  let out := HighPerf._post Examples.fails_thrice VNone Examples.three_endpoints in
  HighPerf.sent (snd out) = 4%nat
  /\ (warnings (HighPerf.trace (snd out)) + 1 = 0 + (4 - 0))%nat.
Proof.
  intros out.
  pose proof (post_attempts_are_bounded Examples.fails_thrice VNone
                Examples.three_endpoints (snd out) (fst out) eq_refl) as H.
  split; [reflexivity|]. exact (proj2 (proj2 (proj2 (proj2 H)))).
Defined.

(** X2.  With a pool that is not empty and an index inside it, [_post] keeps
    the index inside the pool, warns only about endpoints of the pool, and
    moves round the pool: the index ends at the start index plus the number
    of rotations, modulo the size of the pool. *)
Theorem post_rotates_round_robin :
  forall (net : HighPerf.network) (payload : pyval) (c c' : HighPerf.RPCClient)
         (r : result pyval),
    HighPerf.endpoints c <> [] ->
    (HighPerf._endpoint_idx c < length (HighPerf.endpoints c))%nat ->
    Forall (warned_in_pool (HighPerf.endpoints c)) (HighPerf.trace c) ->
    HighPerf._post net payload c = (r, c') ->
    (HighPerf._endpoint_idx c' < length (HighPerf.endpoints c))%nat
    /\ Forall (warned_in_pool (HighPerf.endpoints c)) (HighPerf.trace c')
    /\ HighPerf._endpoint_idx c'
       = ((HighPerf._endpoint_idx c
           + (rotations (HighPerf.trace c') - rotations (HighPerf.trace c)))
          mod length (HighPerf.endpoints c))%nat
    /\ HighPerf._cur_endpoint c' ∈ HighPerf.endpoints c.
Proof.
  intros net payload c c' r Hne Hidx Htr Hrun.
  destruct (post_loop_pool net payload _ _ _ _ _ Hne Hidx Htr Hrun) as (Hi & Ht & Hx & _).
  destruct (post_loop_frame net payload _ _ _ _ _ Hrun) as (He & _).
  repeat split; try assumption.
  rewrite <- He. apply cur_endpoint_in_pool. rewrite He. exact Hne.
Qed.

Lemma post_rotates_round_robin_witness :
  let out := HighPerf._post Examples.fails_thrice VNone Examples.three_endpoints in
  HighPerf._endpoint_idx (snd out) = ((0 + (2 - 0)) mod 3)%nat
  /\ HighPerf._cur_endpoint (snd out) ∈ ["a"; "b"; "c"].
Proof.
  intros out.
  pose proof (post_rotates_round_robin Examples.fails_thrice VNone
                Examples.three_endpoints (snd out) (fst out)
                ltac:(discriminate) ltac:(simpl; lia) ltac:(constructor) eq_refl)
    as (_ & _ & Hidx & Hcur).
  split; [exact Hidx|exact Hcur].
Defined.

(** ** [call] and [batch] on answers of any kind *)

Lemma post_first_answer net payload c body :
  0 < HighPerf.max_retries c ->
  net (HighPerf.sent c) (HighPerf._cur_endpoint c) payload = Ok body ->
  HighPerf._post net payload c = (Ok body, HighPerf.note_sent c).
Proof.
  intros Hm Hnet. unfold HighPerf._post.
  destruct (Z.to_nat (HighPerf.max_retries c)) eqn:E; [lia|].
  simpl. rewrite Hnet. reflexivity.
Qed.

Lemma call_first_result net method params c body :
  0 < HighPerf.max_retries c ->
  net (HighPerf.sent c) (HighPerf._cur_endpoint c)
      (HighPerf.request (HighPerf._id c + 1) method params) = Ok body ->
  fst (HighPerf.call net method params c)
  = match body with
    | VDict kvs =>
        match dict_get "error" kvs with
        | Some err => Raise (RuntimeError ("RPC error: " ++ py_str err))
        | None => Ok (default VNone (dict_get "result" kvs))
        end
    | _ => Raise AttributeError
    end.
Proof.
  intros Hm Hnet.
  unfold HighPerf.call, HighPerf._next_id. cbv beta iota zeta.
  rewrite (post_first_answer net _
             (HighPerf.mkClient (HighPerf.endpoints c) (HighPerf.max_retries c)
                (HighPerf._endpoint_idx c) (HighPerf._id c + 1) (HighPerf.sent c)
                (HighPerf.trace c)) body Hm Hnet).
  destruct body as [| | | | |kvs]; simpl; try reflexivity.
  destruct (dict_get "error" kvs); reflexivity.
Qed.

(** X3.  An answer that arrives at the first attempt is used as it is: with
    an ["error"] field [call] raises the RPC error, without one it returns
    the ["result"] or [None], and an answer that is not a dict raises
    [AttributeError].  One POST was sent, nothing was warned about and the
    endpoint is the same: an error of the application is not retried. *)
Theorem call_uses_first_answer :
  forall (net : HighPerf.network) (method : string) (params : list pyval)
         (c : HighPerf.RPCClient) (body : pyval),
    0 < HighPerf.max_retries c ->
    net (HighPerf.sent c) (HighPerf._cur_endpoint c)
        (HighPerf.request (HighPerf._id c + 1) method params) = Ok body ->
    exists c',
      snd (HighPerf.call net method params c) = c'
      /\ HighPerf.sent c' = S (HighPerf.sent c)
      /\ HighPerf.trace c' = HighPerf.trace c
      /\ HighPerf._endpoint_idx c' = HighPerf._endpoint_idx c
      /\ HighPerf._id c' = HighPerf._id c + 1
      /\ fst (HighPerf.call net method params c)
         = match body with
           | VDict kvs =>
               match dict_get "error" kvs with
               | Some err => Raise (RuntimeError ("RPC error: " ++ py_str err))
               | None => Ok (default VNone (dict_get "result" kvs))
               end
           | _ => Raise AttributeError
           end.
Proof.
  intros net method params c body Hm Hnet.
  unfold HighPerf.call, HighPerf._next_id. cbv beta iota zeta.
  rewrite (post_first_answer net _
             (HighPerf.mkClient (HighPerf.endpoints c) (HighPerf.max_retries c)
                (HighPerf._endpoint_idx c) (HighPerf._id c + 1) (HighPerf.sent c)
                (HighPerf.trace c)) body Hm Hnet).
  eexists. split; [reflexivity|].
  destruct body as [| | | | |kvs]; simpl; try (repeat split; reflexivity).
  destruct (dict_get "error" kvs); simpl; repeat split; reflexivity.
Qed.

Lemma call_uses_first_answer_witness :
  fst (HighPerf.call Examples.answers_reversed "eth_blockNumber" [] Examples.three_endpoints)
  = Raise AttributeError.
Proof.
  destruct (call_uses_first_answer Examples.answers_reversed "eth_blockNumber" []
              Examples.three_endpoints (VList [Examples.resp_2; Examples.resp_1])
              ltac:(simpl; lia) eq_refl) as (c' & _ & _ & _ & _ & _ & H).
  exact H.
Defined.

(** ** Request ids *)

Lemma batch_requests_client calls :
  forall c,
    HighPerf._id (snd (HighPerf.batch_requests calls c))
    = HighPerf._id c + Z.of_nat (length calls)
    /\ HighPerf.endpoints (snd (HighPerf.batch_requests calls c)) = HighPerf.endpoints c
    /\ HighPerf.max_retries (snd (HighPerf.batch_requests calls c)) = HighPerf.max_retries c
    /\ HighPerf._endpoint_idx (snd (HighPerf.batch_requests calls c))
       = HighPerf._endpoint_idx c
    /\ HighPerf.sent (snd (HighPerf.batch_requests calls c)) = HighPerf.sent c
    /\ HighPerf.trace (snd (HighPerf.batch_requests calls c)) = HighPerf.trace c.
Proof.
  induction calls as [|[m p] calls IH]; intros c; simpl.
  - repeat split; lia.
  - specialize (IH (snd (HighPerf._next_id c))).
    destruct (HighPerf.batch_requests calls _) as [reqs c2]. simpl in *.
    destruct IH as (Hi & He & Hm & Hx & Hs & Ht). repeat split; try assumption. lia.
Qed.

Lemma batch_requests_id_list calls :
  forall c,
    map id_of (fst (HighPerf.batch_requests calls c))
    = map (fun i => VInt (HighPerf._id c + 1 + Z.of_nat i)) (seq 0 (length calls)).
Proof.
  induction calls as [|[m p] calls IH]; intros c; simpl; [reflexivity|].
  specialize (IH (snd (HighPerf._next_id c))).
  destruct (HighPerf.batch_requests calls _) as [reqs c2]. simpl in *.
  f_equal; [f_equal; lia|]. rewrite IH, <- seq_shift, map_map.
  apply map_ext. intros i. f_equal. lia.
Qed.

(** X4.  Ids are drawn from a counter that only grows: [call] takes one,
    [batch] takes one per call, in order and without a gap, and a batch that
    is built later in the session shares no id with an earlier one. *)
Theorem request_ids_are_fresh :
  forall (net : HighPerf.network) (c c2 : HighPerf.RPCClient)
         (calls calls2 : list (string * list pyval)) (x : pyval),
    HighPerf._id c + Z.of_nat (length calls) <= HighPerf._id c2 ->
    x ∈ map id_of (fst (HighPerf.batch_requests calls c)) ->
    (forall method params,
        HighPerf._id (snd (HighPerf.call net method params c)) = HighPerf._id c + 1)
    /\ HighPerf._id (snd (HighPerf.batch net calls c))
       = HighPerf._id c + Z.of_nat (length calls)
    /\ map id_of (fst (HighPerf.batch_requests calls c))
       = map (fun i => VInt (HighPerf._id c + 1 + Z.of_nat i)) (seq 0 (length calls))
    /\ x ∉ map id_of (fst (HighPerf.batch_requests calls2 c2)).
Proof.
  intros net c c2 calls calls2 x Hlater Hx.
  split; [|split; [|split]].
  - intros method params. unfold HighPerf.call. simpl.
    destruct (HighPerf._post net _ _) as [r c1] eqn:Hpost.
    destruct (post_loop_frame _ _ _ _ _ _ _ Hpost) as (_ & _ & Hid & _).
    destruct r as [[| | | | |kvs]|]; simpl; try exact Hid.
    destruct (dict_get "error" kvs); exact Hid.
  - unfold HighPerf.batch. destruct calls as [|call calls']; [simpl; lia|].
    pose proof (batch_requests_client (call :: calls') c) as (Hid & _).
    destruct (HighPerf.batch_requests (call :: calls') c) as [req c1]. simpl snd in Hid.
    destruct (HighPerf._post net (VList req) c1) as [r c3] eqn:Hpost.
    destruct (post_loop_frame _ _ _ _ _ _ _ Hpost) as (_ & _ & Hid3 & _).
    destruct r; simpl; rewrite Hid3; exact Hid.
  - apply batch_requests_id_list.
  - rewrite batch_requests_id_list in *.
    apply list_elem_of_fmap in Hx as (i & -> & Hi). apply elem_of_seq in Hi.
    intros Hin. apply list_elem_of_fmap in Hin as (j & [= Hj] & _). lia.
Qed.

Lemma request_ids_are_fresh_witness :
  VInt 1 ∉ map id_of (fst (HighPerf.batch_requests Examples.two_calls
                             (snd (HighPerf.batch_requests Examples.two_calls
                                     Examples.three_endpoints)))).
Proof.
  apply (request_ids_are_fresh Examples.always_down Examples.three_endpoints
           (snd (HighPerf.batch_requests Examples.two_calls Examples.three_endpoints))
           Examples.two_calls Examples.two_calls (VInt 1)).
  - simpl. lia.
  - left.
Defined.

(** ** [batch] on a response array of any content *)

Lemma has_id_int_keyed item z :
  int_keyed item -> HighPerf.key_eq (id_of item) (VInt z) = has_id z item.
Proof. intros (z' & Hz & _). unfold has_id. rewrite Hz. reflexivity. Qed.

Lemma by_id_get_find z items :
  Forall int_keyed items ->
  HighPerf.by_id_get (VInt z) (map (fun it => (id_of it, it)) items)
  = default (VDict []) (find (has_id z) items).
Proof.
  induction 1 as [|it items Hit _ IH]; simpl; [reflexivity|].
  rewrite (has_id_int_keyed it z Hit). destruct (has_id z it); [reflexivity|exact IH].
Qed.

Lemma find_has_id_dict z items item :
  Forall int_keyed items -> find (has_id z) items = Some item -> is_dict item = true.
Proof.
  intros Hall Hfind. apply find_some in Hfind as [Hin _].
  rewrite Forall_forall in Hall. apply list_elem_of_In in Hin.
  destruct (Hall item Hin) as (_ & _ & Hd). exact Hd.
Qed.

Lemma collect_result_for wire req :
  Forall int_keyed wire ->
  Forall (fun r => exists id m p, r = HighPerf.request id m p) req ->
  HighPerf.collect req (rev (map (fun it => (id_of it, it)) wire))
  = Ok (map (result_for wire) req).
Proof.
  intros Hwire.
  assert (Hget : forall z,
             HighPerf.by_id_get (VInt z) (rev (map (fun it => (id_of it, it)) wire))
             = default (VDict []) (last_with_id z wire)).
  { intros z. rewrite <- map_rev. apply by_id_get_find, Forall_rev, Hwire. }
  generalize dependent (rev (map (fun it => (id_of it, it)) wire)). intros m Hget.
  induction 1 as [|r req (id & meth & p & ->) _ IH]; simpl; [reflexivity|].
  rewrite Hget, IH. unfold result_for at 2. simpl id_of. unfold last_with_id.
  destruct (find (has_id id) (rev wire)) as [item|] eqn:Hfind; simpl; [|reflexivity].
  pose proof (find_has_id_dict id (rev wire) item (Forall_rev Hwire) Hfind) as Hd.
  destruct item as [| | | | |kvs]; try discriminate. simpl.
  destruct (dict_get "error" kvs); reflexivity.
Qed.

(** X5.  When the body is an array of dicts with integer ids, in any number
    and order, [batch] returns one result per call, at the position of the
    call: that of the last response with the id of its request, and [None]
    when no response has it.  When the body is not an array, it raises a
    [RuntimeError] and returns nothing. *)
Theorem batch_places_results_by_id :
  forall (net : HighPerf.network) (c c2 : HighPerf.RPCClient)
         (calls : list (string * list pyval)) (body : pyval),
    calls <> [] ->
    HighPerf._post net (VList (fst (HighPerf.batch_requests calls c)))
                   (snd (HighPerf.batch_requests calls c)) = (Ok body, c2) ->
    (forall wire,
        body = VList wire -> Forall int_keyed wire ->
        HighPerf.batch net calls c
        = (Ok (map (result_for wire) (fst (HighPerf.batch_requests calls c))), c2))
    /\ (is_list body = false ->
        exists msg, HighPerf.batch net calls c = (Raise (RuntimeError msg), c2)).
Proof.
  intros net c c2 calls body Hne Hpost.
  destruct (batch_requests_ids calls c) as [Hreqs _].
  unfold HighPerf.batch. destruct calls as [|call calls]; [congruence|].
  destruct (HighPerf.batch_requests (call :: calls) c) as [req c1] eqn:Hbr.
  simpl fst in *. simpl snd in *. rewrite Hpost. split.
  - intros wire -> Hwire. f_equal. unfold HighPerf.batch_collect.
    rewrite (build_by_id_keyed wire [] Hwire). simpl. rewrite app_nil_r.
    apply collect_result_for; [exact Hwire|].
    eapply Forall_impl; [exact Hreqs|]. intros r (id & m & p & -> & _). eauto.
  - intros Hnl. destruct body as [| | | |l|kvs]; try discriminate; simpl;
      try (eexists; reflexivity).
    destruct (dict_get "error" kvs); eexists; reflexivity.
Qed.

Lemma batch_places_results_by_id_witness :
  fst (HighPerf.batch Examples.answers_reversed
         (Examples.two_calls ++ [("eth_getCode", [VStr "0xcc"])]) Examples.three_endpoints)
  = Ok [VDict [("error", VStr "bad")]; VStr "two"; VNone].
Proof.
  pose proof (batch_places_results_by_id Examples.answers_reversed Examples.three_endpoints
                (HighPerf.mkClient ["a"; "b"; "c"] 5 0 3 1 [])
                (Examples.two_calls ++ [("eth_getCode", [VStr "0xcc"])])
                (VList [Examples.resp_2; Examples.resp_1])
                ltac:(discriminate) eq_refl) as [H _].
  rewrite (H [Examples.resp_2; Examples.resp_1] eq_refl).
  - reflexivity.
  - repeat constructor; eexists; split; reflexivity.
Defined.

(** ** The latest block, and the lookups in chunks *)

(** X6.  When the node answers [eth_blockNumber] with the [hex] of a block
    number, [get_latest_block] returns that number. *)
Theorem get_latest_block_reads_hex :
  forall (net : HighPerf.network) (c : HighPerf.RPCClient) (kvs : list (string * pyval))
         (n : Z),
    0 < HighPerf.max_retries c ->
    0 <= n ->
    net (HighPerf.sent c) (HighPerf._cur_endpoint c)
        (HighPerf.request (HighPerf._id c + 1) "eth_blockNumber" []) = Ok (VDict kvs) ->
    dict_get "error" kvs = None ->
    dict_get "result" kvs = Some (VStr (hex_string n)) ->
    fst (HighPerf.get_latest_block net c) = Ok n.
Proof.
  intros net c kvs n Hm Hn Hnet Herr Hres. unfold HighPerf.get_latest_block.
  pose proof (call_first_result net "eth_blockNumber" [] c (VDict kvs) Hm Hnet) as Hcall.
  cbv beta iota in Hcall.
  rewrite Herr, Hres in Hcall. simpl in Hcall.
  destruct (HighPerf.call net "eth_blockNumber" [] c) as [r c1]. simpl in Hcall. subst r.
  simpl. apply int_of_hex_string. exact Hn.
Qed.

Lemma get_latest_block_reads_hex_witness :
  fst (HighPerf.get_latest_block Examples.reversing_node Examples.three_endpoints) = Ok 31.
Proof.
  apply (get_latest_block_reads_hex Examples.reversing_node Examples.three_endpoints
           [("id", VInt 1); ("result", VStr "0x1f")] 31); try reflexivity; simpl; lia.
Defined.

Lemma batch_requests_shape calls :
  forall c,
    Forall2 (fun call r => exists id, r = HighPerf.request id (fst call) (snd call))
            calls (fst (HighPerf.batch_requests calls c)).
Proof.
  induction calls as [|[m p] calls IH]; intros c; simpl; [constructor|].
  specialize (IH (snd (HighPerf._next_id c))).
  destruct (HighPerf.batch_requests calls _) as [reqs c2]. simpl in *.
  constructor; [eexists; reflexivity|exact IH].
Qed.

Section Lookups.
Import HighPerf.
Context {V : Type}.
Variable net : network.
Variable respond : string -> pyval + pyval.
Variable method : string.
Variable decode : pyval -> V.
Variable addrs : list string.
Variable block_tag : string.
Variable batch_size : nat.
Hypothesis honest : answers_lookups net respond.
Hypothesis positive : (0 < batch_size)%nat.

Local Abbreviation stored := (fun a => decode (delivered (respond a))).

Lemma batch_honest chunk c :
  0 < max_retries c -> chunk <> [] ->
  exists c',
    batch net (map (fun a => (method, [VStr a; VStr block_tag])) chunk) c
    = (Ok (map (fun a => delivered (respond a)) chunk), c')
    /\ sent c' = S (sent c) /\ max_retries c' = max_retries c.
Proof.
  intros Hm Hne. unfold batch.
  set (calls := map (fun a => (method, [VStr a; VStr block_tag])) chunk).
  assert (Hcalls : calls <> []) by (subst calls; destruct chunk; [congruence|discriminate]).
  destruct calls as [|call calls'] eqn:Ecalls; [congruence|]. rewrite <- Ecalls in *.
  pose proof (batch_requests_shape calls c) as Hshape.
  destruct (batch_requests_ids calls c) as [_ Hnd].
  pose proof (batch_requests_client calls c) as (_ & _ & Hmax & _ & Hsent & _).
  destruct (batch_requests calls c) as [req c1]. simpl fst in *. simpl snd in *.
  destruct (honest (sent c1) (_cur_endpoint c1) req) as (wire & Hnet & Hperm).
  rewrite (post_first_answer net (VList req) c1 (VList wire)) by (rewrite ?Hmax; assumption).
  exists (note_sent c1). split; [|simpl; split; congruence].
  f_equal.
  set (responses := map (fun r => VDict (("id", id_of r) :: answered (respond (address_of r))))
                        req) in *.
  assert (Hans : Forall2 answers req responses).
  { subst responses. clear -Hshape.
    induction Hshape as [|call r ? ? [id ->] _ IH]; constructor; [|exact IH].
    exists id, (fst call), (snd call). eexists. repeat split. }
  rewrite (batch_collect_by_id req responses wire Hnd Hans Hperm).
  f_equal. subst calls responses. clear -Hshape. revert req Hshape.
  induction chunk as [|a chunk IH]; intros req Hshape;
    inversion Hshape as [|? r ? req' [id ->] Hrest]; subst; simpl; [reflexivity|].
  f_equal; [|apply IH; exact Hrest].
  destruct (respond a); reflexivity.
Qed.

Lemma store_results_fold chunk (g : string -> pyval) :
  forall out,
    store_results decode chunk (map g chunk) out
    = fold_left (fun o a => <[py_lower a := decode (g a)]> o) chunk out.
Proof. induction chunk as [|a chunk IH]; intros out; simpl; [reflexivity|apply IH]. Qed.

Lemma store_fold_spec chunk :
  forall out : gmap string V,
    (forall a, a ∈ chunk -> a ∈ addrs) ->
    let out' := fold_left (fun o a => <[py_lower a := stored a]> o) chunk out in
    (forall k, is_Some (out' !! k) <-> is_Some (out !! k) \/ exists a, a ∈ chunk /\ k = py_lower a)
    /\ (forall a, spelled_alike respond addrs a ->
          out !! py_lower a = Some (stored a) \/ a ∈ chunk ->
          out' !! py_lower a = Some (stored a)).
Proof.
  induction chunk as [|b chunk IH]; intros out Hsub; simpl.
  - split.
    + intros k. split; [auto|]. intros [H|(a & Ha & _)]; [exact H|inversion Ha].
    + intros a _ [H|Ha]; [exact H|inversion Ha].
  - destruct (IH (<[py_lower b := stored b]> out)) as [Hdom Hval].
    { intros a Ha. apply Hsub. right. exact Ha. }
    split.
    + intros k. rewrite Hdom, lookup_insert_is_Some'. split.
      * intros [[Hk|H]|(a & Ha & ->)].
        -- right. exists b. split; [left|symmetry; exact Hk].
        -- left. exact H.
        -- right. exists a. split; [right; exact Ha|reflexivity].
      * intros [H|(a & Ha & ->)]; [left; right; exact H|].
        apply elem_of_cons in Ha as [->|Ha]; [left; left; reflexivity|].
        right. exists a. split; [exact Ha|reflexivity].
    + intros a Halike Hcase. apply Hval; [exact Halike|].
      destruct (decide (py_lower b = py_lower a)) as [Heq|Hne].
      * left. rewrite Heq, lookup_insert_eq. f_equal.
        rewrite (Halike b); [reflexivity| |exact Heq]. apply Hsub. left.
      * destruct Hcase as [H|Ha].
        -- left. rewrite lookup_insert_ne by exact Hne. exact H.
        -- apply elem_of_cons in Ha as [->|Ha]; [congruence|]. right. exact Ha.
Qed.

Lemma chunk_in_addrs i a : a ∈ take batch_size (drop i addrs) -> a ∈ addrs.
Proof.
  intros Ha. apply elem_of_take in Ha as (j & Hj & _). rewrite lookup_drop in Hj.
  eapply list_elem_of_lookup_2. exact Hj.
Qed.

Lemma lookup_chunks_honest starts :
  forall (out : gmap string V) c,
    0 < max_retries c ->
    (forall i, i ∈ starts -> (i < length addrs)%nat) ->
    exists out' c',
      lookup_chunks net method decode addrs block_tag batch_size starts out c = (Ok out', c')
      /\ sent c' = (sent c + length starts)%nat
      /\ (forall k, is_Some (out' !! k)
                    <-> is_Some (out !! k)
                        \/ exists i a, i ∈ starts /\ a ∈ take batch_size (drop i addrs)
                                       /\ k = py_lower a)
      /\ (forall a, spelled_alike respond addrs a ->
            out !! py_lower a = Some (stored a)
            \/ (exists i, i ∈ starts /\ a ∈ take batch_size (drop i addrs)) ->
            out' !! py_lower a = Some (stored a)).
Proof.
  induction starts as [|i starts IH]; intros out c Hm Hlt; simpl.
  - exists out, c. split; [reflexivity|]. split; [lia|]. split.
    + intros k. split; [auto|]. intros [H|(i & a & Hi & _)]; [exact H|inversion Hi].
    + intros a _ [H|(i & Hi & _)]; [exact H|inversion Hi].
  - set (chunk := take batch_size (drop i addrs)).
    assert (Hne : chunk <> []).
    { subst chunk. pose proof (Hlt i ltac:(left)) as Hi.
      destruct (drop i addrs) as [|x rest] eqn:Hd.
      - apply (f_equal length) in Hd. rewrite length_drop in Hd. simpl in Hd. lia.
      - destruct batch_size; [lia|discriminate]. }
    destruct (batch_honest chunk c Hm Hne) as (c1 & Hbatch & Hs1 & Hm1).
    rewrite Hbatch, store_results_fold.
    destruct (store_fold_spec chunk out) as [Hdom Hval].
    { intros a. apply chunk_in_addrs. }
    destruct (IH (fold_left (fun o a => <[py_lower a := stored a]> o) chunk out) c1)
      as (out' & c' & Hrun & Hs & Hdom' & Hval').
    { rewrite Hm1. exact Hm. }
    { intros j Hj. apply Hlt. right. exact Hj. }
    exists out', c'. split; [exact Hrun|]. split; [lia|]. split.
    + intros k. rewrite Hdom', Hdom. split.
      * intros [[H|(a & Ha & ->)]|(j & a & Hj & Ha & ->)].
        -- left. exact H.
        -- right. exists i, a. split; [left|]. split; [exact Ha|reflexivity].
        -- right. exists j, a. split; [right; exact Hj|]. split; [exact Ha|reflexivity].
      * intros [H|(j & a & Hj & Ha & ->)]; [left; left; exact H|].
        apply elem_of_cons in Hj as [->|Hj].
        -- left. right. exists a. split; [exact Ha|reflexivity].
        -- right. exists j, a. split; [exact Hj|]. split; [exact Ha|reflexivity].
    + intros a Halike Hcase. apply Hval'; [exact Halike|].
      destruct Hcase as [H|(j & Hj & Ha)].
      * left. apply Hval; [exact Halike|left; exact H].
      * apply elem_of_cons in Hj as [->|Hj].
        -- left. apply Hval; [exact Halike|right; exact Ha].
        -- right. exists j. split; assumption.
Qed.

Lemma range_from_zero_positive n :
  range_from_zero n (Z.of_nat batch_size)
  = Ok (map (fun k => (k * batch_size)%nat) (seq 0 ((n + batch_size - 1) / batch_size))).
Proof.
  unfold range_from_zero.
  destruct (Z.eqb_spec (Z.of_nat batch_size) 0); [lia|].
  destruct (Z.ltb_spec (Z.of_nat batch_size) 0); [lia|].
  rewrite Nat2Z.id. reflexivity.
Qed.

Lemma chunk_starts_lt n i :
  i ∈ map (fun k => (k * batch_size)%nat) (seq 0 ((n + batch_size - 1) / batch_size)) ->
  (i < n)%nat.
Proof.
  intros Hin. apply list_elem_of_fmap in Hin as (k & -> & Hk). apply elem_of_seq in Hk.
  pose proof (Nat.Div0.mul_div_le (n + batch_size - 1) batch_size). nia.
Qed.

Lemma chunks_cover a :
  a ∈ addrs ->
  exists i,
    i ∈ map (fun k => (k * batch_size)%nat)
            (seq 0 ((length addrs + batch_size - 1) / batch_size))
    /\ a ∈ take batch_size (drop i addrs).
Proof.
  intros Ha. apply list_elem_of_lookup in Ha as (j & Hj).
  pose proof (lookup_lt_Some _ _ _ Hj) as Hlt.
  pose proof (Nat.div_mod_eq j batch_size) as Hdm.
  pose proof (Nat.mod_upper_bound j batch_size ltac:(lia)) as Hmod.
  exists ((j / batch_size) * batch_size)%nat. split.
  - apply list_elem_of_fmap. exists (j / batch_size)%nat. split; [reflexivity|].
    apply elem_of_seq. split; [lia|]. simpl.
    assert (S (j / batch_size) <= (length addrs + batch_size - 1) / batch_size)%nat; [|lia].
    apply Nat.div_le_lower_bound; [lia|]. nia.
  - apply elem_of_take. exists (j mod batch_size)%nat. split; [|exact Hmod].
    rewrite lookup_drop. rewrite <- Hj. f_equal. lia.
Qed.

Lemma batch_lookup_honest c :
  0 < max_retries c ->
  exists out c',
    batch_lookup net method decode addrs block_tag (Z.of_nat batch_size) c = (Ok out, c')
    /\ sent c' = (sent c + (length addrs + batch_size - 1) / batch_size)%nat
    /\ (forall k, is_Some (out !! k) <-> exists a, a ∈ addrs /\ k = py_lower a)
    /\ (forall a, a ∈ addrs -> spelled_alike respond addrs a ->
          out !! py_lower a = Some (stored a)).
Proof.
  intros Hm. unfold batch_lookup.
  rewrite range_from_zero_positive, Nat2Z.id.
  destruct (lookup_chunks_honest _ ∅ c Hm (chunk_starts_lt (length addrs)))
    as (out & c' & Hrun & Hs & Hdom & Hval).
  exists out, c'. split; [exact Hrun|]. split.
  { rewrite Hs, length_map, length_seq. reflexivity. }
  split.
  - intros k. rewrite Hdom. split.
    + intros [H|(i & a & _ & Ha & ->)].
      * rewrite lookup_empty in H. destruct H; discriminate.
      * exists a. split; [eapply chunk_in_addrs; exact Ha|reflexivity].
    + intros (a & Ha & ->). right.
      destruct (chunks_cover a Ha) as (i & Hi & Hin). exists i, a. auto.
  - intros a Ha Halike. apply Hval; [exact Halike|]. right. apply chunks_cover, Ha.
Qed.

End Lookups.

Lemma reversing_node_answers : answers_lookups Examples.reversing_node Examples.code_at.
Proof.
  intros n url reqs. eexists. split; [reflexivity|]. symmetry. apply Permutation_rev.
Qed.

(** X7.  With a node that answers every batch, in whatever order,
    [batch_get_code] returns a map whose keys are exactly the lower-cased
    addresses, after one POST per chunk of [batch_size] addresses.  An
    address is a contract when its code is a string other than the empty one
    and ["0x"]; one whose lookup came back with an error is not. *)
Theorem batch_get_code_classifies_all :
  forall (net : HighPerf.network) (respond : string -> pyval + pyval)
         (addrs : list string) (block_tag : string) (batch_size : Z)
         (c : HighPerf.RPCClient),
    answers_lookups net respond ->
    0 < batch_size ->
    0 < HighPerf.max_retries c ->
    exists out c',
      HighPerf.batch_get_code net addrs block_tag batch_size c = (Ok out, c')
      /\ HighPerf.sent c'
         = (HighPerf.sent c
            + (length addrs + Z.to_nat batch_size - 1) / Z.to_nat batch_size)%nat
      /\ (forall k, is_Some (out !! k) <-> exists a, a ∈ addrs /\ k = py_lower a)
      /\ (forall a, a ∈ addrs -> spelled_alike respond addrs a ->
            out !! py_lower a
            = Some match respond a with
                   | inl (VStr code) => negb (String.eqb code "") && negb (String.eqb code "0x")
                   | _ => false
                   end).
Proof.
  intros net respond addrs tag bs c Hhonest Hbs Hm.
  destruct (batch_lookup_honest net respond "eth_getCode" HighPerf.is_contract_code
              addrs tag (Z.to_nat bs) Hhonest ltac:(lia) c Hm)
    as (out & c' & Hrun & Hs & Hdom & Hval).
  rewrite Z2Nat.id in Hrun by lia.
  exists out, c'. split; [exact Hrun|]. split; [exact Hs|]. split; [exact Hdom|].
  intros a Ha Halike. rewrite (Hval a Ha Halike). f_equal.
  unfold HighPerf.is_contract_code.
  destruct (respond a) as [[| | |code| |]|e]; simpl;
    rewrite ?andb_false_r, ?andb_true_r; try reflexivity.
Qed.

Lemma batch_get_code_classifies_all_witness :
  exists out,
    fst (HighPerf.batch_get_code Examples.reversing_node ["0xAA"; "0xBB"; "0xDD"]
           "latest" 2 Examples.three_endpoints) = Ok out
    /\ out !! "0xaa" = Some false /\ out !! "0xbb" = Some true /\ out !! "0xdd" = Some false.
Proof.
  destruct (batch_get_code_classifies_all Examples.reversing_node Examples.code_at
              ["0xAA"; "0xBB"; "0xDD"] "latest" 2 Examples.three_endpoints
              reversing_node_answers ltac:(lia) ltac:(simpl; lia))
    as (out & c' & Hrun & _ & _ & Hval).
  exists out. rewrite Hrun. split; [reflexivity|].
  assert (Halike : forall a, spelled_alike Examples.code_at ["0xAA"; "0xBB"; "0xDD"] a).
  { intros a a' _ Heq. unfold Examples.code_at. rewrite Heq. reflexivity. }
  split; [|split].
  - exact (Hval "0xAA" ltac:(left) (Halike _)).
  - exact (Hval "0xBB" ltac:(right; left) (Halike _)).
  - exact (Hval "0xDD" ltac:(right; right; left) (Halike _)).
Defined.

(** X8.  With such a node [batch_get_balance] returns a map whose keys are
    exactly the lower-cased addresses.  An address whose balance came back as
    the [hex] of an amount has that amount when a [float] holds it, below
    2^1024 - 2^970 wei, and [None] when the division by 1e18 overflows; one
    whose lookup came back with an error, or with no result, has [None],
    and the others are not affected. *)
Theorem batch_get_balance_isolates_failures :
  forall (net : HighPerf.network) (respond : string -> pyval + pyval)
         (addrs : list string) (block_tag : string) (batch_size : Z)
         (c : HighPerf.RPCClient),
    answers_lookups net respond ->
    0 < batch_size ->
    0 < HighPerf.max_retries c ->
    exists out c',
      HighPerf.batch_get_balance net addrs block_tag batch_size c = (Ok out, c')
      /\ (forall k, is_Some (out !! k) <-> exists a, a ∈ addrs /\ k = py_lower a)
      /\ (forall a wei, a ∈ addrs -> spelled_alike respond addrs a -> 0 <= wei ->
            respond a = inl (VStr (hex_string wei)) ->
            out !! py_lower a = Some (if wei <? 2 ^ 1024 - 2 ^ 970 then Some wei else None))
      /\ (forall a e, a ∈ addrs -> spelled_alike respond addrs a ->
            respond a = inr e \/ respond a = inl VNone -> out !! py_lower a = Some None).
Proof.
  intros net respond addrs tag bs c Hhonest Hbs Hm.
  destruct (batch_lookup_honest net respond "eth_getBalance" HighPerf.balance_of
              addrs tag (Z.to_nat bs) Hhonest ltac:(lia) c Hm)
    as (out & c' & Hrun & _ & Hdom & Hval).
  rewrite Z2Nat.id in Hrun by lia.
  exists out, c'. split; [exact Hrun|]. split; [exact Hdom|]. split.
  - intros a wei Ha Halike Hwei Hresp. rewrite (Hval a Ha Halike), Hresp. f_equal.
    unfold HighPerf.balance_of, delivered, HighPerf.py_int16.
    rewrite (int_of_hex_string wei Hwei). unfold fits_float.
    rewrite Z.abs_eq by exact Hwei. reflexivity.
  - intros a e Ha Halike [Hresp|Hresp]; rewrite (Hval a Ha Halike), Hresp; reflexivity.
Qed.

Lemma batch_get_balance_isolates_failures_witness :
  exists out,
    fst (HighPerf.batch_get_balance Examples.reversing_node ["0xBB"; "0xDD"]
           "latest" 100 Examples.three_endpoints) = Ok out
    /\ out !! "0xdd" = Some None /\ out !! "0xbb" = Some (Some 24704).
Proof.
  destruct (batch_get_balance_isolates_failures Examples.reversing_node Examples.code_at
              ["0xBB"; "0xDD"] "latest" 100 Examples.three_endpoints
              reversing_node_answers ltac:(lia) ltac:(simpl; lia))
    as (out & c' & Hrun & _ & Hsome & Hnone).
  assert (Halike : forall a, spelled_alike Examples.code_at ["0xBB"; "0xDD"] a).
  { intros a a' _ Heq. unfold Examples.code_at. rewrite Heq. reflexivity. }
  exists out. rewrite Hrun. split; [reflexivity|]. split.
  - apply (Hnone "0xDD" (VStr "execution aborted")); [right; left|apply Halike|].
    left. reflexivity.
  - apply (Hsome "0xBB" 24704); [left|apply Halike|lia|reflexivity].
Defined.

(** X9.  The chunk size decides before anything is sent: with [batch_size]
    0 both lookups raise [ValueError], with a negative one they return the
    empty map, and so they do for no address at all; the client is as it
    was. *)
Theorem batch_lookups_without_chunks :
  forall (net : HighPerf.network) (addrs : list string) (block_tag : string)
         (batch_size : Z) (c : HighPerf.RPCClient),
    (batch_size = 0 ->
       HighPerf.batch_get_code net addrs block_tag batch_size c = (Raise ValueError, c)
       /\ HighPerf.batch_get_balance net addrs block_tag batch_size c
          = (Raise ValueError, c))
    /\ (batch_size < 0 ->
       HighPerf.batch_get_code net addrs block_tag batch_size c = (Ok ∅, c)
       /\ HighPerf.batch_get_balance net addrs block_tag batch_size c = (Ok ∅, c))
    /\ (0 < batch_size ->
       HighPerf.batch_get_code net [] block_tag batch_size c = (Ok ∅, c)
       /\ HighPerf.batch_get_balance net [] block_tag batch_size c = (Ok ∅, c)).
Proof.
  intros net addrs tag bs c.
  unfold HighPerf.batch_get_code, HighPerf.batch_get_balance, HighPerf.batch_lookup,
    HighPerf.range_from_zero.
  split; [|split].
  - intros ->. split; reflexivity.
  - intros Hneg. destruct (Z.eqb_spec bs 0); [lia|].
    destruct (Z.ltb_spec bs 0); [|lia]. split; reflexivity.
  - intros Hpos. destruct (Z.eqb_spec bs 0); [lia|].
    destruct (Z.ltb_spec bs 0); [lia|]. simpl length.
    replace ((0 + Z.to_nat bs - 1) / Z.to_nat bs)%nat with 0%nat; [split; reflexivity|].
    symmetry. apply Nat.div_small. lia.
Qed.

Lemma batch_lookups_without_chunks_witness :
  HighPerf.batch_get_code Examples.always_down ["0xAA"] "latest" (-1) Examples.three_endpoints
  = (Ok ∅, Examples.three_endpoints)
  /\ HighPerf.batch_get_balance Examples.always_down ["0xAA"] "latest" 0
       Examples.three_endpoints = (Raise ValueError, Examples.three_endpoints).
Proof.
  pose proof (batch_lookups_without_chunks Examples.always_down ["0xAA"] "latest" (-1)
                Examples.three_endpoints) as (_ & Hneg & _).
  pose proof (batch_lookups_without_chunks Examples.always_down ["0xAA"] "latest" 0
                Examples.three_endpoints) as (Hzero & _).
  split; [apply Hneg; lia|apply Hzero; reflexivity].
Defined.

(** ** The semaphore of [fetch_blocks] *)

Lemma write_window_length res :
  forall idx buf buf', HighPerf.write_window idx res buf = Ok buf' -> length buf' = length buf.
Proof.
  induction res as [|r res IH]; intros idx buf buf'; simpl.
  - intros [= <-]. reflexivity.
  - destruct (idx <? length buf)%nat; [|discriminate].
    intros Hrun. rewrite (IH _ _ _ Hrun). apply length_insert.
Qed.

Lemma inflight_get_fst w l req :
  HighPerf.inflight_get w l = Some req -> w ∈ map fst l.
Proof.
  induction l as [|[w' r] l IH]; simpl; [discriminate|].
  destruct (Nat.eqb_spec w' w) as [->|Hne]; [intros _; left|].
  intros Hget. right. exact (IH Hget).
Qed.

Lemma filter_neq_absent w (l : list nat) :
  w ∉ l -> List.filter (fun x => negb (x =? w)%nat) l = l.
Proof.
  induction l as [|x l IH]; simpl; [reflexivity|].
  intros Hnot. destruct (Nat.eqb_spec x w) as [->|Hne]; simpl.
  - exfalso. apply Hnot. left.
  - f_equal. apply IH. intros Hin. apply Hnot. right. exact Hin.
Qed.

Lemma filter_neq_length w (l : list nat) :
  NoDup l -> w ∈ l ->
  S (length (List.filter (fun x => negb (x =? w)%nat) l)) = length l
  /\ NoDup (List.filter (fun x => negb (x =? w)%nat) l)
  /\ (forall x, x ∈ List.filter (fun x => negb (x =? w)%nat) l -> x ∈ l /\ x <> w).
Proof.
  intros Hnd Hin. split; [|split].
  - induction Hnd as [|x l Hx Hnd IH]; [inversion Hin|]. simpl.
    destruct (Nat.eqb_spec x w) as [->|Hne]; simpl.
    + rewrite filter_neq_absent by exact Hx. reflexivity.
    + f_equal. apply IH. apply elem_of_cons in Hin as [Heq|Hin]; [congruence|exact Hin].
  - apply NoDup_ListNoDup, List.NoDup_filter, NoDup_ListNoDup, Hnd.
  - intros x Hx. apply list_elem_of_In, filter_In in Hx as [Hx Hne].
    split; [apply list_elem_of_In, Hx|].
    apply negb_true_iff, Nat.eqb_neq in Hne. exact Hne.
Qed.

Lemma inflight_del_length w (l : list (nat * list pyval)) :
  NoDup (map fst l) -> w ∈ map fst l ->
  S (length (HighPerf.inflight_del w l)) = length l
  /\ NoDup (map fst (HighPerf.inflight_del w l))
  /\ (forall x, x ∈ map fst (HighPerf.inflight_del w l) -> x ∈ map fst l).
Proof.
  unfold HighPerf.inflight_del.
  induction l as [|[x r] l IH]; simpl; intros Hnd Hin; [inversion Hin|].
  apply NoDup_cons in Hnd as [Hx Hnd].
  destruct (Nat.eqb_spec x w) as [->|Hne]; simpl.
  - assert (Hsame : List.filter (fun e : nat * list pyval => negb (fst e =? w)%nat) l = l).
    { clear -Hx. induction l as [|[y r'] l IH]; simpl in *; [reflexivity|].
      destruct (Nat.eqb_spec y w) as [->|Hne]; simpl.
      - exfalso. apply Hx. left.
      - f_equal. apply IH. intros Hin. apply Hx. right. exact Hin. }
    rewrite Hsame. split; [reflexivity|]. split; [exact Hnd|]. intros y Hy. right. exact Hy.
  - apply elem_of_cons in Hin as [Heq|Hin]; [congruence|].
    destruct (IH Hnd Hin) as (Hlen & Hnd' & Hsub).
    split; [f_equal; exact Hlen|]. split.
    + apply NoDup_cons. split; [|exact Hnd']. intros Hx'. apply Hx, Hsub, Hx'.
    + intros y Hy. apply elem_of_cons in Hy as [->|Hy]; [left|right; apply Hsub, Hy].
Qed.

Lemma run_schedule_accounts reply block_numbers sched :
  forall s out,
    NoDup (HighPerf.waiting s ++ map fst (HighPerf.inflight s)) ->
    0 <= HighPerf.permits s ->
    HighPerf.run_schedule reply block_numbers sched s = Some (Ok out) ->
    length out = length (HighPerf.blocks s)
    /\ enters sched = Z.of_nat (length (HighPerf.waiting s))
    /\ finishes sched
       = Z.of_nat (length (HighPerf.waiting s)) + Z.of_nat (length (HighPerf.inflight s))
    /\ (forall k, enters (take k sched) - finishes (take k sched) <= HighPerf.permits s).
Proof.
  induction sched as [|ev sched IH]; intros s out Hnd Hp; simpl.
  - destruct (HighPerf.waiting s) eqn:Hw; [|discriminate].
    destruct (HighPerf.inflight s) eqn:Hf; [|discriminate].
    intros [= <-]. split; [reflexivity|]. split; [reflexivity|]. split; [reflexivity|].
    intros k. rewrite take_nil. simpl. lia.
  - apply NoDup_app in Hnd as (Hndw & Hdisj & Hndf).
    destruct ev as [w|w].
    + destruct (bool_decide (w ∈ HighPerf.waiting s)) eqn:Hin; [|discriminate].
      apply bool_decide_eq_true in Hin.
      destruct (Z.ltb_spec 0 (HighPerf.permits s)) as [Hpos|]; [|discriminate]. simpl.
      destruct (HighPerf.batch_requests _ _) as [req c1].
      destruct (filter_neq_length w _ Hndw Hin) as (Hlen & Hndw' & Hsub).
      intros Hrun. apply IH in Hrun; simpl in *.
      * destruct Hrun as (Hout & Hent & Hfin & Hbound).
        split; [exact Hout|]. split; [lia|]. split; [lia|].
        intros [|k]; simpl; [lia|]. specialize (Hbound k). lia.
      * apply NoDup_app. split; [exact Hndw'|]. split.
        -- intros x Hx Hx'. destruct (Hsub x Hx) as [Hxw Hne].
           apply elem_of_cons in Hx' as [->|Hx']; [congruence|].
           exact (Hdisj x Hxw Hx').
        -- apply NoDup_cons. split; [|exact Hndf]. intros Hw. exact (Hdisj w Hin Hw).
      * lia.
    + destruct (HighPerf.inflight_get w (HighPerf.inflight s)) as [req|] eqn:Hget;
        [|discriminate].
      pose proof (inflight_get_fst _ _ _ Hget) as Hw.
      destruct (inflight_del_length w _ Hndf Hw) as (Hlen & Hndf' & Hsub).
      destruct (_ ≫= _) as [buf|e] eqn:Hres; [|discriminate].
      assert (Hbuf : length buf = length (HighPerf.blocks s)).
      { destruct (HighPerf.window_result reply w req) as [res|]; [|discriminate].
        exact (write_window_length _ _ _ _ Hres). }
      intros Hrun. apply IH in Hrun; simpl in *.
      * destruct Hrun as (Hout & Hent & Hfin & Hbound).
        split; [congruence|]. split; [exact Hent|]. split; [lia|].
        intros [|k]; simpl; [lia|]. specialize (Hbound k). lia.
      * apply NoDup_app. split; [exact Hndw|]. split; [|exact Hndf'].
        intros x Hx Hx'. exact (Hdisj x Hx (Hsub x Hx')).
      * lia.
Qed.

(** X10.  Whatever the provider answers and in whatever order the windows
    run, when [fetch_blocks] returns a list it is as long as the input; every
    window, one for each [window] block numbers, entered the semaphore once
    and left it once; and at no point were more than [concurrency] windows
    inside it. *)
Theorem fetch_blocks_holds_the_semaphore :
  forall (reply : HighPerf.reply_oracle) (c : HighPerf.RPCClient)
         (block_numbers : list Z) (concurrency : Z)
         (sched : list HighPerf.fetch_event) (out : list pyval),
    HighPerf.fetch_blocks reply c block_numbers concurrency sched = Some (Ok out) ->
    length out = length block_numbers
    /\ enters sched
       = Z.of_nat ((length block_numbers + HighPerf.window - 1) / HighPerf.window)
    /\ finishes sched = enters sched
    /\ (forall k, enters (take k sched) - finishes (take k sched) <= concurrency).
Proof.
  intros reply c nums conc sched out. unfold HighPerf.fetch_blocks.
  destruct (Z.ltb_spec conc 0) as [|Hconc]; [discriminate|].
  intros Hrun. apply run_schedule_accounts in Hrun; simpl in *.
  - destruct Hrun as (Hout & Hent & Hfin & Hbound).
    rewrite length_replicate in Hout.
    unfold HighPerf.window_starts in Hent, Hfin.
    rewrite length_map, length_seq in Hent, Hfin.
    split; [exact Hout|]. split; [exact Hent|]. split; [lia|exact Hbound].
  - rewrite app_nil_r. apply window_starts_NoDup.
  - exact Hconc.
Qed.

Lemma fetch_blocks_holds_the_semaphore_witness :
  let block_numbers := map Z.of_nat (seq 100 45) in
  let fetched := map VInt block_numbers in
  let sched := [HighPerf.Enter 20; HighPerf.Enter 40; HighPerf.Finish 40;
                HighPerf.Enter 0; HighPerf.Finish 0; HighPerf.Finish 20] in
  enters sched = 3 /\ finishes sched = enters sched
  /\ enters (take 4 sched) - finishes (take 4 sched) <= 2.
Proof.
  intros block_numbers fetched sched.
  assert (Hrun : HighPerf.fetch_blocks (echo_blocks fetched) Examples.three_endpoints
                   block_numbers 2 sched = Some (Ok fetched)) by (vm_compute; reflexivity).
  destruct (fetch_blocks_holds_the_semaphore _ _ _ _ _ _ Hrun) as (_ & Hent & Hfin & Hbound).
  split; [exact Hent|]. split; [exact Hfin|exact (Hbound 4%nat)].
Defined.

(** X11.  With [concurrency] 0 and at least one block number no window can
    ever enter the semaphore: no schedule is a run of [fetch_blocks] to its
    end, the call does not return.  With no block number it returns [[]]
    at once. *)
Theorem fetch_blocks_without_permits_hangs :
  forall (reply : HighPerf.reply_oracle) (c : HighPerf.RPCClient)
         (block_numbers : list Z) (sched : list HighPerf.fetch_event),
    block_numbers <> [] ->
    HighPerf.fetch_blocks reply c block_numbers 0 sched = None
    /\ HighPerf.fetch_blocks reply c [] 0 [] = Some (Ok []).
Proof.
  intros reply c nums sched Hne. split; [|reflexivity].
  unfold HighPerf.fetch_blocks. simpl.
  assert (Hw : HighPerf.window_starts (length nums) <> []).
  { apply window_starts_nonempty. destruct nums; [congruence|simpl; lia]. }
  destruct sched as [|[w|w] sched]; simpl.
  - destruct (HighPerf.window_starts (length nums)); [congruence|reflexivity].
  - rewrite andb_false_r. reflexivity.
  - reflexivity.
Qed.

Lemma fetch_blocks_without_permits_hangs_witness :
  HighPerf.fetch_blocks (echo_blocks [VInt 7]) Examples.three_endpoints [7] 0
    [HighPerf.Enter 0; HighPerf.Finish 0] = None.
Proof.
  apply (fetch_blocks_without_permits_hangs (echo_blocks [VInt 7]) Examples.three_endpoints
           [7] [HighPerf.Enter 0; HighPerf.Finish 0]).
  discriminate.
Defined.

(** ** What the rows of [scan_range] count *)

Lemma count_of_add d k inc a :
  count_of (add d k inc) a = if decide (a = k) then count_of d k + inc else count_of d a.
Proof.
  unfold count_of, add. destruct (decide (a = k)) as [->|Hne].
  - rewrite lookup_insert_eq. reflexivity.
  - rewrite lookup_insert_ne by congruence. reflexivity.
Qed.

Lemma py_lower_nonempty s : s <> "" -> py_lower s <> "".
Proof. destruct s; [congruence|discriminate]. Qed.

Lemma digits_string_nonempty n : 0 <= n -> digits_string 10 n <> "".
Proof.
  intros Hn. unfold digits_string.
  destruct (to_digits_spec 10 n ltac:(lia) Hn) as (_ & _ & Hne).
  destruct (to_digits 10 n); [congruence|]. discriminate.
Qed.

Lemma py_str_truthy v : truthy v = true -> py_str v <> "".
Proof.
  destruct v as [|[]|z|s|l|kvs]; simpl; try discriminate.
  - intros _. unfold dec_string. destruct (z <? 0) eqn:Hz; [discriminate|].
    apply digits_string_nonempty. apply Z.ltb_ge in Hz. exact Hz.
  - destruct (String.eqb_spec s ""); [discriminate|]. intros _. assumption.
Qed.

Lemma counters_ok_init : counters_ok PublicRpc.scan_init.
Proof.
  split; [|split].
  - intros a. unfold count_of. simpl. rewrite lookup_empty. simpl. lia.
  - intros a _. unfold count_of. simpl. rewrite lookup_empty. simpl. lia.
  - intros a Ha. simpl in Ha. set_solver.
Qed.

Lemma counters_ok_calls s cs :
  counters_ok s ->
  counters_ok (PublicRpc.mkScan (PublicRpc.sent_txs s) (PublicRpc.received_txs s)
                 (PublicRpc.sent_to_contract_txs s)
                 (PublicRpc.internal_recv_from_contract_txs s) (PublicRpc.seen_addrs s)
                 (PublicRpc.contract_cache s) cs).
Proof. intros H. exact H. Qed.

Lemma counters_ok_scan_tx w3 check_success tx s :
  counters_ok s -> counters_ok (PublicRpc.scan_tx w3 check_success tx s).
Proof.
  intros Hok. unfold PublicRpc.scan_tx.
  set (frm := PublicRpc.tx_from tx). set (to := PublicRpc.tx_to tx).
  destruct (if check_success then _ else _) as [skip calls0].
  set (s0 := PublicRpc.mkScan _ _ _ _ _ _ calls0).
  assert (Hok0 : counters_ok s0) by exact Hok.
  clearbody s0.
  destruct skip; [exact Hok0|].
  set (s1 := if String.eqb frm "" then s0 else _).
  assert (Hok1 : counters_ok s1
                 /\ (frm <> "" -> 1 + count_of (PublicRpc.sent_to_contract_txs s1) frm
                                  <= count_of (PublicRpc.sent_txs s1) frm)).
  { subst s1. destruct (String.eqb_spec frm "") as [Hf|Hf]; [split; [exact Hok0|congruence]|].
    destruct Hok0 as (Hpos & Hle & Hseen). split.
    - split; [|split]; simpl.
      + intros a. destruct (Hpos a) as (? & ? & ? & ?). rewrite count_of_add.
        destruct (decide (a = frm)) as [->|]; repeat split; lia.
      + intros a Ha. rewrite count_of_add. specialize (Hle a Ha).
        destruct (decide (a = frm)) as [->|]; lia.
      + intros a Ha. rewrite count_of_add. apply elem_of_union in Ha as [Ha|Ha].
        * apply elem_of_singleton in Ha as ->. rewrite decide_True by reflexivity.
          split; [exact Hf|]. destruct (Hpos frm) as (? & ? & ? & ?). lia.
        * destruct (Hseen a Ha) as [? ?]. split; [assumption|].
          destruct (decide (a = frm)) as [->|]; lia.
    - intros _. simpl. rewrite count_of_add, decide_True by reflexivity.
      specialize (Hle frm Hf). simpl in Hle. lia. }
  destruct Hok1 as [Hok1 Hfrm]. clearbody s1.
  destruct (String.eqb_spec to "") as [Ht|Ht]; [exact Hok1|].
  destruct (PublicRpc.is_contract w3 to _ _) as [[r cache'] calls'].
  destruct Hok1 as (Hpos & Hle & Hseen).
  split; [|split]; simpl.
  - intros a. destruct (Hpos a) as (? & ? & ? & ?). rewrite count_of_add.
    destruct (Hpos to) as (? & ? & ? & ?). destruct (Hpos frm) as (? & ? & ? & ?).
    split; [assumption|]. split; [destruct (decide (a = to)) as [->|]; lia|].
    split; [|assumption].
    destruct r as [[]|]; try assumption. rewrite count_of_add.
    destruct (decide (a = frm)) as [->|]; lia.
  - intros a Ha. specialize (Hle a Ha).
    destruct r as [[]|]; try assumption. rewrite count_of_add.
    destruct (decide (a = frm)) as [->|]; [|assumption]. apply Hfrm in Ha. lia.
  - intros a Ha. rewrite count_of_add. destruct (Hpos to) as (? & ? & ? & ?).
    apply elem_of_union in Ha as [Ha|Ha].
    + apply elem_of_singleton in Ha as ->. rewrite decide_True by reflexivity.
      split; [exact Ht|]. destruct (Hpos to) as (? & ? & ? & ?). lia.
    + destruct (Hseen a Ha) as [? ?]. split; [assumption|].
      destruct (decide (a = to)) as [->|]; lia.
Qed.

Lemma fold_scan_tx_ok w3 check_success txs :
  forall s, counters_ok s ->
    counters_ok (fold_left (fun acc tx => PublicRpc.scan_tx w3 check_success tx acc) txs s).
Proof.
  induction txs as [|tx txs IH]; intros s Hok; simpl; [exact Hok|].
  apply IH, counters_ok_scan_tx, Hok.
Qed.

Lemma public_count_nonneg method payload addr c :
  PublicRpc.count_internal_receives method payload addr = Ok c -> 0 <= c.
Proof.
  unfold PublicRpc.count_internal_receives.
  destruct (eq_str method "trace_block").
  - destruct (py_iter payload) as [entries|]; [|discriminate]. simpl.
    intros [= <-]. apply count_flat_ge.
  - destruct (eq_str method "debug_trace"); [|intros [= <-]; lia].
    unfold count_debug.
    assert (Hitems : forall items cnt c', debug_items (py_lower addr) items cnt = Ok c' ->
                                          cnt <= c').
    { induction items as [|v items IH]; intros cnt c'; simpl; [intros [= <-]; lia|].
      destruct (debug_root (py_lower addr) v cnt) as [c1|] eqn:Hroot; [|discriminate]. simpl.
      intros Hrest. apply IH in Hrest. etransitivity; [|exact Hrest].
      unfold debug_root in Hroot. destruct (py_get v "result" VNone); [|discriminate].
      simpl in Hroot. injection Hroot as <-.
      destruct (is_dict _); [apply dfs_ge|lia]. }
    destruct payload; try (intros [= <-]; lia); apply Hitems.
Qed.

Lemma counters_ok_trace_addr method payload addr s :
  addr <> "" -> counters_ok s -> counters_ok (PublicRpc.trace_addr method payload addr s).
Proof.
  intros Ha Hok. unfold PublicRpc.trace_addr.
  destruct (PublicRpc.count_internal_receives method payload addr) as [c|] eqn:Hc;
    [|exact Hok].
  apply public_count_nonneg in Hc.
  destruct (Z.eqb_spec c 0) as [|Hne]; [exact Hok|].
  destruct Hok as (Hpos & Hle & Hseen). split; [|split]; simpl.
  - intros a. destruct (Hpos a) as (? & ? & ? & ?). rewrite count_of_add.
    destruct (Hpos addr) as (? & ? & ? & ?).
    repeat split; try assumption. destruct (decide (a = addr)) as [->|]; lia.
  - exact Hle.
  - intros a Hin. rewrite count_of_add. destruct (Hpos addr) as (? & ? & ? & ?).
    apply elem_of_union in Hin as [Hin|Hin].
    + apply elem_of_singleton in Hin as ->. rewrite decide_True by reflexivity.
      split; [exact Ha|]. lia.
    + destruct (Hseen a Hin) as [? ?]. split; [assumption|].
      destruct (decide (a = addr)) as [->|]; lia.
Qed.

Lemma addrs_in_block_nonempty txs a : a ∈ PublicRpc.addrs_in_block txs -> a <> "".
Proof.
  unfold PublicRpc.addrs_in_block.
  cut (forall acc : gset string, (forall x, x ∈ acc -> x <> "") ->
         a ∈ fold_left (fun acc tx =>
                let f := default VNone (dict_get "from" tx) in
                let t := default VNone (dict_get "to" tx) in
                let acc1 := if truthy f then {[py_lower (py_str f)]} ∪ acc else acc in
                if truthy t then {[py_lower (py_str t)]} ∪ acc1 else acc1) txs acc ->
         a <> "").
  { intros H. apply H. intros x Hx. set_solver. }
  induction txs as [|tx txs IH]; intros acc Hacc; simpl; [apply Hacc|].
  apply IH. intros x.
  destruct (truthy (default VNone (dict_get "from" tx))) eqn:Hf;
    destruct (truthy (default VNone (dict_get "to" tx))) eqn:Ht;
    rewrite ?elem_of_union, ?elem_of_singleton;
    intros Hx; repeat destruct Hx as [Hx|Hx]; subst;
    try (apply Hacc; assumption);
    apply py_lower_nonempty, py_str_truthy; assumption.
Qed.

Lemma counters_ok_scan_trace w3 bn txs s :
  counters_ok s -> counters_ok (PublicRpc.scan_trace w3 bn txs s).
Proof.
  intros Hok. unfold PublicRpc.scan_trace.
  destruct (PublicRpc.try_trace_block w3 bn (PublicRpc.calls s)) as [[method payload] calls'].
  destruct (truthy method && truthy payload); [|exact Hok].
  pose proof (addrs_in_block_nonempty txs) as Hne.
  revert Hne.
  apply (set_fold_ind_L
           (fun r (X : gset string) => (forall a, a ∈ X -> a <> "") -> counters_ok r)).
  - intros _. exact Hok.
  - intros x X r _ IH Hne. apply counters_ok_trace_addr.
    + apply Hne. set_solver.
    + apply IH. intros a Ha. apply Hne. set_solver.
Qed.

Lemma counters_ok_scan_blocks w3 check_success trace_enabled bns :
  forall s s',
    counters_ok s ->
    PublicRpc.scan_blocks w3 check_success trace_enabled bns s = Ok s' -> counters_ok s'.
Proof.
  induction bns as [|bn bns IH]; intros s s' Hok; simpl.
  - intros [= <-]. exact Hok.
  - destruct (PublicRpc.scan_block w3 check_success trace_enabled bn s) as [s1|] eqn:Hb;
      [|discriminate]. simpl.
    apply IH. unfold PublicRpc.scan_block in Hb.
    destruct (PublicRpc.get_block_with_retries w3 _ bn) as [txs|]; [|discriminate].
    injection Hb as <-.
    destruct trace_enabled; [apply counters_ok_scan_trace|];
      apply fold_scan_tx_ok; exact Hok.
Qed.

Lemma emit_rows_row w3 with_balances balance_limit s r :
  r ∈ PublicRpc.emit_rows w3 with_balances balance_limit s ->
  exists balances a,
    a ∈ PublicRpc.seen_addrs s /\ r = PublicRpc.build_row s balances a.
Proof.
  unfold PublicRpc.emit_rows. intros Hin.
  apply list_elem_of_fmap in Hin as (a & -> & Ha).
  eexists _, a. split; [|reflexivity].
  assert (Hs : a ∈ sorted_strings (elements (PublicRpc.seen_addrs s))).
  { destruct (0 <? balance_limit); [apply elem_of_take in Ha as (i & Hi & _);
      apply list_elem_of_lookup; exists i; exact Hi|exact Ha]. }
  unfold sorted_strings in Hs. rewrite merge_sort_Permutation in Hs.
  apply elem_of_elements in Hs. exact Hs.
Qed.

(** X12.  Every row that [scan_range] emits is about an address that was
    observed with a count of its own: the address is not empty, no counter
    is negative, [total_txs] is at least 1, and the address was counted as
    sending to a contract no more often than as sending. *)
Theorem rows_count_observed_activity :
  forall (w3 : PublicRpc.Web3) (start_block end_block : Z)
         (check_success with_balances : bool) (balance_limit : Z) (trace_enabled : bool)
         (rows : list AddressStats.t) (row : AddressStats.t),
    PublicRpc.scan_range w3 start_block end_block check_success with_balances
      balance_limit trace_enabled = Ok rows ->
    row ∈ rows ->
    AddressStats.address row <> ""
    /\ 0 <= AddressStats.received_txs row
    /\ 0 <= AddressStats.internal_txs row
    /\ 0 <= AddressStats.sent_to_contract_txs row <= AddressStats.sent_txs row
    /\ 1 <= AddressStats.total_txs row.
Proof.
  intros w3 sb eb cs wb bl te rows row Hscan Hin.
  unfold PublicRpc.scan_range in Hscan.
  destruct (PublicRpc.scan_blocks _ _ _ _ _) as [s|] eqn:Hblocks; [|discriminate].
  simpl in Hscan. injection Hscan as <-.
  apply counters_ok_scan_blocks in Hblocks; [|apply counters_ok_init].
  apply emit_rows_row in Hin as (balances & a & Ha & ->).
  destruct Hblocks as (Hpos & Hle & Hseen).
  destruct (Hseen a Ha) as [Hne Hone]. destruct (Hpos a) as (? & ? & ? & ?).
  specialize (Hle a Hne). unfold count_of in *. simpl.
  repeat split; try assumption; lia.
Qed.

Lemma rows_count_observed_activity_witness :
  let row_bb := AddressStats.mk Examples.lower_b (Some 7) 2 0 1 0 1 1 1 in
  Examples.lower_b <> "" /\ 1 <= AddressStats.total_txs row_bb.
Proof.
  intros row_bb.
  assert (Hscan : PublicRpc.scan_range Examples.node_one_tx 10 10 false true 0 true
                  = Ok [AddressStats.mk Examples.lower_a (Some 7) 1 1 0 1 0 1 0; row_bb])
    by (vm_compute; reflexivity).
  destruct (rows_count_observed_activity _ _ _ _ _ _ _ _ row_bb Hscan ltac:(right; left))
    as (Hne & _ & _ & _ & Hone).
  split; [exact Hne|exact Hone].
Defined.

(** ** The order of the rows *)

Lemma string_compare_trans a :
  forall b c, String.compare a b <> Gt -> String.compare b c <> Gt -> String.compare a c <> Gt.
Proof.
  induction a as [|x a IH]; intros [|y b] [|z c]; simpl; try congruence.
  unfold Ascii.compare.
  destruct (N.compare_spec (N_of_ascii x) (N_of_ascii y)) as [Hxy|Hxy|Hxy];
    destruct (N.compare_spec (N_of_ascii y) (N_of_ascii z)) as [Hyz|Hyz|Hyz];
    try congruence.
  - rewrite Hxy, Hyz, N.compare_refl. apply IH.
  - intros _ _. rewrite Hxy. apply N.compare_lt_iff in Hyz. rewrite Hyz. discriminate.
  - intros _ _. rewrite <- Hyz. apply N.compare_lt_iff in Hxy. rewrite Hxy. discriminate.
  - intros _ _. assert (H : (N_of_ascii x < N_of_ascii z)%N) by lia.
    apply N.compare_lt_iff in H. rewrite H. discriminate.
Qed.

Lemma str_le_transitive : Transitive str_le.
Proof.
  intros a b c. unfold str_le, String.leb. intros Hab Hbc.
  pose proof (string_compare_trans a b c) as Ht.
  destruct (String.compare a b); try discriminate;
    destruct (String.compare b c); try discriminate;
    destruct (String.compare a c); try reflexivity;
    exfalso; apply Ht; congruence.
Qed.

Lemma str_le_total : Total str_le.
Proof. intros a b. apply String.leb_total. Qed.

Lemma StronglySorted_take {A} (R : relation A) (n : nat) (l : list A) :
  StronglySorted R l -> StronglySorted R (take n l).
Proof.
  intros Hs. rewrite <- (take_drop n l) in Hs.
  exact (StronglySorted_app_1_l _ _ _ Hs).
Qed.

Lemma NoDup_take_of {A} (n : nat) (l : list A) : NoDup l -> NoDup (take n l).
Proof.
  intros Hnd. rewrite <- (take_drop n l) in Hnd. apply NoDup_app in Hnd as (H & _ & _).
  exact H.
Qed.

(** X13.  The rows of [scan_range] come in the order of [sorted] on their
    addresses, and no address has two rows. *)
Theorem rows_sorted_one_per_address :
  forall (w3 : PublicRpc.Web3) (start_block end_block : Z)
         (check_success with_balances : bool) (balance_limit : Z) (trace_enabled : bool)
         (rows : list AddressStats.t),
    PublicRpc.scan_range w3 start_block end_block check_success with_balances
      balance_limit trace_enabled = Ok rows ->
    StronglySorted str_le (map AddressStats.address rows)
    /\ NoDup (map AddressStats.address rows).
Proof.
  intros w3 sb eb cs wb bl te rows Hscan.
  unfold PublicRpc.scan_range in Hscan.
  destruct (PublicRpc.scan_blocks _ _ _ _ _) as [s|]; [|discriminate].
  simpl in Hscan. injection Hscan as <-.
  rewrite emit_rows_addresses.
  assert (Hs : StronglySorted str_le (sorted_strings (elements (PublicRpc.seen_addrs s))))
    by (apply StronglySorted_merge_sort; [apply str_le_transitive|apply str_le_total]).
  assert (Hnd : NoDup (sorted_strings (elements (PublicRpc.seen_addrs s)))).
  { unfold sorted_strings. rewrite merge_sort_Permutation. apply NoDup_elements. }
  destruct (0 <? bl); split;
    [apply StronglySorted_take, Hs|apply NoDup_take_of, Hnd|exact Hs|exact Hnd].
Qed.

Lemma rows_sorted_one_per_address_witness :
  NoDup [Examples.lower_a; Examples.lower_b]
  /\ StronglySorted str_le [Examples.lower_a; Examples.lower_b].
Proof.
  assert (Hscan : PublicRpc.scan_range Examples.node_one_tx 10 11 false true 0 true
                  = Ok [AddressStats.mk Examples.lower_a (Some 7) 2 2 0 2 0 2 0;
                        AddressStats.mk Examples.lower_b (Some 7) 4 0 2 0 2 2 2])
    by (vm_compute; reflexivity).
  destruct (rows_sorted_one_per_address _ _ _ _ _ _ _ _ Hscan) as [Hs Hnd].
  split; [exact Hnd|exact Hs].
Defined.

(** ** Scanning without traces *)

Lemma scan_tx_untraced w3 check_success tx s :
  PublicRpc.internal_recv_from_contract_txs (PublicRpc.scan_tx w3 check_success tx s)
  = PublicRpc.internal_recv_from_contract_txs s.
Proof.
  unfold PublicRpc.scan_tx.
  destruct (if check_success then _ else _) as [[] calls0]; [reflexivity|].
  destruct (String.eqb (PublicRpc.tx_from tx) ""), (String.eqb (PublicRpc.tx_to tx) "");
    try reflexivity;
    destruct (PublicRpc.is_contract w3 _ _ _) as [[r cache'] calls']; reflexivity.
Qed.

Lemma public_is_contract_log w3 addr cache calls r cache' calls' m :
  PublicRpc.is_contract w3 addr cache calls = (r, cache', calls') ->
  PublicRpc.MakeRequest m ∈ calls' -> PublicRpc.MakeRequest m ∈ calls.
Proof.
  unfold PublicRpc.is_contract.
  destruct (String.eqb addr ""); [intros [= _ _ <-]; auto|].
  destruct (PublicRpc.to_checksum_address w3 addr) as [al|]; [|intros [= _ _ <-]; auto].
  destruct (cache !! py_lower al); [intros [= _ _ <-]; auto|].
  destruct (PublicRpc.get_code w3 _ al); intros [= _ _ <-] Hin;
    apply elem_of_cons in Hin as [Heq|Hin]; try discriminate; exact Hin.
Qed.

Lemma scan_tx_log w3 check_success tx s m :
  PublicRpc.MakeRequest m ∈ PublicRpc.calls (PublicRpc.scan_tx w3 check_success tx s) ->
  PublicRpc.MakeRequest m ∈ PublicRpc.calls s.
Proof.
  unfold PublicRpc.scan_tx.
  assert (Hstatus : forall cs st,
             PublicRpc.MakeRequest m ∈ snd (PublicRpc.get_tx_status w3 st cs) ->
             PublicRpc.MakeRequest m ∈ cs).
  { intros cs st Hin. simpl in Hin. apply elem_of_cons in Hin as [Heq|Hin];
      [discriminate|exact Hin]. }
  destruct check_success.
  - destruct (PublicRpc.get_tx_status w3 _ _) as [st cs] eqn:Hst.
    pose proof (Hstatus (PublicRpc.calls s) (PublicRpc.tx_hash_hex tx)) as Hlog.
    rewrite Hst in Hlog. simpl in Hlog.
    destruct (negb (st =? 1)); [exact Hlog|].
    destruct (String.eqb (PublicRpc.tx_from tx) ""), (String.eqb (PublicRpc.tx_to tx) "");
      try exact Hlog;
      destruct (PublicRpc.is_contract w3 _ _ _) as [[r cache'] calls'] eqn:Hc; simpl;
      intros Hin; apply Hlog; exact (public_is_contract_log _ _ _ _ _ _ _ _ Hc Hin).
  - destruct (String.eqb (PublicRpc.tx_from tx) ""), (String.eqb (PublicRpc.tx_to tx) "");
      try (intros Hin; exact Hin);
      destruct (PublicRpc.is_contract w3 _ _ _) as [[r cache'] calls'] eqn:Hc; simpl;
      intros Hin; exact (public_is_contract_log _ _ _ _ _ _ _ _ Hc Hin).
Qed.

Lemma scan_blocks_untraced w3 check_success bns :
  forall s s',
    PublicRpc.scan_blocks w3 check_success false bns s = Ok s' ->
    PublicRpc.internal_recv_from_contract_txs s' = PublicRpc.internal_recv_from_contract_txs s
    /\ (forall m, PublicRpc.MakeRequest m ∈ PublicRpc.calls s' ->
                  PublicRpc.MakeRequest m ∈ PublicRpc.calls s).
Proof.
  induction bns as [|bn bns IH]; intros s s'; simpl.
  - intros [= <-]. split; [reflexivity|auto].
  - destruct (PublicRpc.scan_block w3 check_success false bn s) as [s1|] eqn:Hb;
      [|discriminate]. simpl.
    intros Hrest. apply IH in Hrest as [Hint Hlog].
    unfold PublicRpc.scan_block in Hb.
    destruct (PublicRpc.get_block_with_retries w3 _ bn) as [txs|]; [|discriminate].
    injection Hb as <-.
    set (s0 := PublicRpc.mkScan _ _ _ _ _ _ _) in *.
    assert (Hfold : forall txs s0,
               PublicRpc.internal_recv_from_contract_txs
                 (fold_left (fun acc tx => PublicRpc.scan_tx w3 check_success tx acc) txs s0)
               = PublicRpc.internal_recv_from_contract_txs s0
               /\ (forall m,
                     PublicRpc.MakeRequest m ∈ PublicRpc.calls
                       (fold_left (fun acc tx => PublicRpc.scan_tx w3 check_success tx acc)
                                  txs s0) ->
                     PublicRpc.MakeRequest m ∈ PublicRpc.calls s0)).
    { clear. induction txs as [|tx txs IHt]; intros s0; simpl; [split; auto|].
      destruct (IHt (PublicRpc.scan_tx w3 check_success tx s0)) as [Hi Hl].
      split; [rewrite Hi; apply scan_tx_untraced|].
      intros m Hin. apply (scan_tx_log w3 check_success tx), Hl, Hin. }
    destruct (Hfold txs s0) as [Hi Hl]. split.
    + rewrite Hint, Hi. reflexivity.
    + intros m Hin. apply Hlog, Hl in Hin. subst s0. simpl in Hin.
      apply elem_of_cons in Hin as [Heq|Hin]; [discriminate|exact Hin].
Qed.

(** X14.  Without [trace_enabled] the scan sends no trace request, and every
    row has no internal transfer: [internal_txs] and
    [received_from_contract_txs] are 0 and [total_txs] is [external_txs]. *)
Theorem untraced_scan_has_no_internal :
  forall (w3 : PublicRpc.Web3) (start_block end_block : Z)
         (check_success with_balances : bool) (balance_limit : Z),
    (forall s m,
        PublicRpc.scan_blocks w3 check_success false
          (PublicRpc.block_range start_block end_block) PublicRpc.scan_init = Ok s ->
        PublicRpc.MakeRequest m ∉ PublicRpc.calls s)
    /\ (forall rows row,
        PublicRpc.scan_range w3 start_block end_block check_success with_balances
          balance_limit false = Ok rows ->
        row ∈ rows ->
        AddressStats.internal_txs row = 0
        /\ AddressStats.received_from_contract_txs row = 0
        /\ AddressStats.total_txs row = AddressStats.external_txs row).
Proof.
  intros w3 sb eb cs wb bl. split.
  - intros s m Hblocks Hin. apply scan_blocks_untraced in Hblocks as [_ Hlog].
    apply Hlog in Hin. simpl in Hin. inversion Hin.
  - intros rows row Hscan Hin. unfold PublicRpc.scan_range in Hscan.
    destruct (PublicRpc.scan_blocks _ _ _ _ _) as [s|] eqn:Hblocks; [|discriminate].
    simpl in Hscan. injection Hscan as <-.
    apply scan_blocks_untraced in Hblocks as [Hint _].
    apply emit_rows_row in Hin as (balances & a & _ & ->).
    simpl. rewrite Hint. simpl. rewrite lookup_empty. simpl. repeat split; lia.
Qed.

Lemma untraced_scan_has_no_internal_witness :
  let row_bb := AddressStats.mk Examples.lower_b (Some 7) 1 0 1 0 0 1 0 in
  AddressStats.internal_txs row_bb = 0
  /\ AddressStats.total_txs row_bb = AddressStats.external_txs row_bb.
Proof.
  intros row_bb.
  assert (Hscan : PublicRpc.scan_range Examples.node_one_tx 10 10 false true 0 false
                  = Ok [AddressStats.mk Examples.lower_a (Some 7) 1 1 0 1 0 1 0; row_bb])
    by (vm_compute; reflexivity).
  destruct (proj2 (untraced_scan_has_no_internal Examples.node_one_tx 10 10 false true 0)
              _ row_bb Hscan ltac:(right; left)) as (Hint & _ & Htot).
  split; [exact Hint|exact Htot].
Defined.

(** ** The retries of the public RPC scan *)

Lemma block_clause_bound {B} (name_error : string -> B) (handler : B) :
  Reconnect.except Reconnect.block_clause name_error handler = handler.
Proof. reflexivity. Qed.

Lemma block_loop_ends {A} (p : Reconnect.Provider A) bn endpoints max_retry fuel :
  forall attempt w3,
    (0 < fuel)%nat -> max_retry < Z.of_nat attempt + Z.of_nat fuel ->
    exists out n,
      Reconnect.block_loop p bn endpoints max_retry fuel attempt w3 = Some (out, n)
      /\ (attempt < n <= attempt + fuel)%nat.
Proof.
  induction fuel as [|fuel IH]; intros attempt w3 Hfuel Hmax; [lia|].
  cbn [Reconnect.block_loop]. cbv zeta.
  destruct (Reconnect.get_block p (S attempt) w3 bn) as [b| |e].
  - eexists _, _. split; [reflexivity|lia].
  - rewrite block_clause_bound. destruct endpoints as [eps|].
    + destruct (Z.geb_spec (Z.of_nat (S attempt)) max_retry) as [Hge|Hlt].
      * eexists _, _. split; [reflexivity|lia].
      * destruct (IH (S attempt) (default w3 (Reconnect.connect_any
                                       (Reconnect.usable p (S attempt)) eps)))
          as (out & n & Hrun & Hn); [lia|lia|].
        exists out, n. split; [exact Hrun|lia].
    + eexists _, _. split; [reflexivity|lia].
  - rewrite block_clause_bound.
    destruct (Z.leb_spec (Z.of_nat (S attempt)) max_retry) as [Hle|Hgt].
    + destruct (IH (S attempt) w3) as (out & n & Hrun & Hn); [lia|lia|].
      exists out, n. split; [exact Hrun|lia].
    + eexists _, _. split; [reflexivity|lia].
Qed.

(** X15.  [get_block_with_retries] always ends: whatever the provider does,
    it returns or raises after at least one attempt and at most
    [max_retry + 1] of them (one, when [max_retry] is not positive). *)
Theorem get_block_with_retries_ends :
  forall (A : Type) (p : Reconnect.Provider A) (w3 : string) (bn : Z)
         (endpoints : option (list string)) (max_retry : Z),
    exists out n,
      Reconnect.get_block_with_retries p w3 bn endpoints max_retry = Some (out, n)
      /\ 1 <= Z.of_nat n <= Z.max 1 (max_retry + 1).
Proof.
  intros A p w3 bn endpoints max_retry. unfold Reconnect.get_block_with_retries.
  destruct (block_loop_ends p bn endpoints max_retry (S (Z.to_nat max_retry)) 0%nat w3)
    as (out & n & Hrun & Hn); [lia|lia|].
  exists out, n. split; [exact Hrun|lia].
Qed.

Lemma block_loop_network {A} (p : Reconnect.Provider A) bn eps max_retry :
  (forall k ep, Reconnect.get_block p k ep bn = Reconnect.NetworkError) ->
  forall fuel attempt w3,
    Z.of_nat attempt < Z.max 1 max_retry ->
    Z.max 1 max_retry <= Z.of_nat attempt + Z.of_nat fuel ->
    Reconnect.block_loop p bn (Some eps) max_retry fuel attempt w3
    = Some (Reconnect.Raises (RuntimeError ("max retries exceeded for block "
                                             ++ dec_string bn)),
            Z.to_nat (Z.max 1 max_retry)).
Proof.
  intros Hdown. induction fuel as [|fuel IH]; intros attempt w3 Hlt Hfuel; [lia|].
  cbn [Reconnect.block_loop]. cbv zeta. rewrite Hdown, block_clause_bound.
  destruct (Z.geb_spec (Z.of_nat (S attempt)) max_retry) as [Hge|Hless].
  - do 3 f_equal. lia.
  - apply IH; lia.
Qed.

(** X16.  When every attempt fails on the network, [get_block_with_retries]
    gives up with [RuntimeError] after [max_retry] attempts (one, when
    [max_retry] is not positive).  Called without endpoints, it cannot
    reconnect: the first such failure ends it with the [TypeError] of
    [connect_any(None)]. *)
Theorem network_errors_exhaust_the_retries :
  forall (A : Type) (p : Reconnect.Provider A) (w3 : string) (bn : Z)
         (endpoints : list string) (max_retry : Z),
    (forall k ep, Reconnect.get_block p k ep bn = Reconnect.NetworkError) ->
    Reconnect.get_block_with_retries p w3 bn (Some endpoints) max_retry
    = Some (Reconnect.Raises (RuntimeError ("max retries exceeded for block "
                                             ++ dec_string bn)),
            Z.to_nat (Z.max 1 max_retry))
    /\ Reconnect.get_block_with_retries p w3 bn None max_retry
       = Some (Reconnect.Raises TypeError, 1%nat).
Proof.
  intros A p w3 bn eps max_retry Hdown. unfold Reconnect.get_block_with_retries. split.
  - apply block_loop_network; [exact Hdown|lia|lia].
  - cbn [Reconnect.block_loop]. cbv zeta. rewrite Hdown. reflexivity.
Qed.

Lemma network_errors_exhaust_the_retries_witness :
  Reconnect.get_block_with_retries Examples.dead_provider "main" 17 (Some ["main"; "backup"]) 6
  = Some (Reconnect.Raises (RuntimeError "max retries exceeded for block 17"), 6%nat).
Proof.
  exact (proj1 (network_errors_exhaust_the_retries Z Examples.dead_provider "main" 17
                  ["main"; "backup"] 6 (fun _ _ => eq_refl))).
Defined.

Lemma block_loop_other {A} (p : Reconnect.Provider A) bn endpoints max_retry
    (err : nat -> exn) :
  (forall k ep, Reconnect.get_block p k ep bn = Reconnect.OtherError (err k)) ->
  forall fuel attempt w3,
    Z.of_nat attempt < Z.max 1 (max_retry + 1) ->
    Z.max 1 (max_retry + 1) <= Z.of_nat attempt + Z.of_nat fuel ->
    Reconnect.block_loop p bn endpoints max_retry fuel attempt w3
    = Some (Reconnect.Raises (err (Z.to_nat (Z.max 1 (max_retry + 1)))),
            Z.to_nat (Z.max 1 (max_retry + 1))).
Proof.
  intros Herr. induction fuel as [|fuel IH]; intros attempt w3 Hlt Hfuel; [lia|].
  cbn [Reconnect.block_loop]. cbv zeta. rewrite Herr, block_clause_bound.
  destruct (Z.leb_spec (Z.of_nat (S attempt)) max_retry) as [Hle|Hgt].
  - apply IH; lia.
  - replace (Z.to_nat (Z.max 1 (max_retry + 1))) with (S attempt) by lia. reflexivity.
Qed.

(** X17.  When every attempt fails otherwise, with an invalid response or
    any other exception, [get_block_with_retries] makes [max_retry + 1]
    attempts, one more than on the network errors, and passes on the
    exception of the last one. *)
Theorem other_errors_get_one_more_attempt :
  forall (A : Type) (p : Reconnect.Provider A) (w3 : string) (bn : Z)
         (endpoints : option (list string)) (max_retry : Z) (err : nat -> exn),
    (forall k ep, Reconnect.get_block p k ep bn = Reconnect.OtherError (err k)) ->
    Reconnect.get_block_with_retries p w3 bn endpoints max_retry
    = Some (Reconnect.Raises (err (Z.to_nat (Z.max 1 (max_retry + 1)))),
            Z.to_nat (Z.max 1 (max_retry + 1))).
Proof.
  intros A p w3 bn endpoints max_retry err Herr. unfold Reconnect.get_block_with_retries.
  apply block_loop_other; [exact Herr|lia|lia].
Qed.

Lemma other_errors_get_one_more_attempt_witness :
  Reconnect.get_block_with_retries Examples.confused_provider "main" 17 None 6
  = Some (Reconnect.Raises ValueError, 7%nat).
Proof.
  exact (other_errors_get_one_more_attempt Z Examples.confused_provider "main" 17 None 6
           (fun _ => ValueError) (fun _ _ => eq_refl)).
Defined.

Lemma block_loop_first_success {A} (p : Reconnect.Provider A) bn eps max_retry (k : nat) b :
  Z.of_nat k <= max_retry ->
  (forall ep, Reconnect.get_block p k ep bn = Reconnect.Returned b) ->
  (forall j ep b', (j < k)%nat -> Reconnect.get_block p j ep bn <> Reconnect.Returned b') ->
  forall fuel attempt w3,
    (attempt < k)%nat -> (k <= attempt + fuel)%nat ->
    Reconnect.block_loop p bn (Some eps) max_retry fuel attempt w3
    = Some (Reconnect.Returns b, k).
Proof.
  intros Hk Hgood Hbad. induction fuel as [|fuel IH]; intros attempt w3 Hlt Hfuel; [lia|].
  cbn [Reconnect.block_loop]. cbv zeta.
  destruct (Nat.eq_dec (S attempt) k) as [Heq|Hne].
  - rewrite Heq, Hgood. reflexivity.
  - destruct (Reconnect.get_block p (S attempt) w3 bn) as [b'| |e] eqn:Hget.
    + exfalso. exact (Hbad (S attempt) w3 b' ltac:(lia) Hget).
    + rewrite block_clause_bound.
      destruct (Z.geb_spec (Z.of_nat (S attempt)) max_retry) as [Hge|Hless]; [lia|].
      apply IH; lia.
    + rewrite block_clause_bound.
      destruct (Z.leb_spec (Z.of_nat (S attempt)) max_retry) as [Hle|Hgt]; [|lia].
      apply IH; lia.
Qed.

(** X18.  Given its endpoints, [get_block_with_retries] returns the block
    of the first attempt that succeeds, whatever the earlier attempts
    failed with, when that is one of the first [max_retry] attempts. *)
Theorem first_successful_attempt_is_returned :
  forall (A : Type) (p : Reconnect.Provider A) (w3 : string) (bn : Z)
         (endpoints : list string) (max_retry : Z) (k : nat) (b : A),
    (1 <= k)%nat -> Z.of_nat k <= max_retry ->
    (forall ep, Reconnect.get_block p k ep bn = Reconnect.Returned b) ->
    (forall j ep b', (j < k)%nat -> Reconnect.get_block p j ep bn <> Reconnect.Returned b') ->
    Reconnect.get_block_with_retries p w3 bn (Some endpoints) max_retry
    = Some (Reconnect.Returns b, k).
Proof.
  intros A p w3 bn eps max_retry k b Hk1 Hk Hgood Hbad.
  unfold Reconnect.get_block_with_retries.
  apply (block_loop_first_success p bn eps max_retry k b Hk Hgood Hbad); lia.
Qed.

Lemma first_successful_attempt_is_returned_witness :
  Reconnect.get_block_with_retries Examples.flaky_provider "main" 17 (Some ["main"; "backup"]) 6
  = Some (Reconnect.Returns 17, 3%nat).
Proof.
  apply (first_successful_attempt_is_returned Z Examples.flaky_provider "main" 17
           ["main"; "backup"] 6 3 17); [lia|lia|reflexivity|].
  intros j ep b' Hj. simpl.
  destruct (Nat.ltb_spec j 3) as [_|Hge]; [discriminate|lia].
Defined.

(** X19.  [get_latest_block_with_retries] never makes a second attempt.  Its
    first [except] clause names [ReqSSLError], which the module does not
    bind: when the first attempt fails, in whatever way, matching the
    exception raises [NameError] and ends the call.  With a [max_retry]
    below 1 it raises [RuntimeError] without any attempt. *)
Theorem latest_block_is_attempted_once :
  forall (A : Type) (p : Reconnect.Provider A) (w3 : string) (endpoints : list string)
         (max_retry : Z),
    Reconnect.get_latest_block_with_retries p w3 endpoints max_retry
    = if max_retry <? 1
      then (Reconnect.Raises
              (RuntimeError "max retries exceeded when fetching latest block_number"), 0%nat)
      else match Reconnect.block_number p 1 w3 with
           | Reconnect.Returned n => (Reconnect.Returns n, 1%nat)
           | _ => (Reconnect.RaisesNameError "ReqSSLError", 1%nat)
           end.
Proof.
  intros A p w3 endpoints max_retry. unfold Reconnect.get_latest_block_with_retries.
  destruct (Z.ltb_spec max_retry 1) as [Hlt|Hge].
  - replace (Z.to_nat max_retry) with 0%nat by lia. reflexivity.
  - destruct (Z.to_nat max_retry) as [|n] eqn:Hn; [lia|].
    cbn [seq Reconnect.latest_loop].
    destruct (Reconnect.block_number p 1 w3); reflexivity.
Qed.

(** ** The address list and the pages of the Etherscan script *)

Lemma dedup_spec raw :
  forall (seen : gset string) out,
    (forall x, x ∈ seen <-> x ∈ map py_lower out) ->
    NoDup (map py_lower out) ->
    exists kept,
      BatchStats.dedup raw seen out = (out ++ kept)%list
      /\ sublist kept raw
      /\ NoDup (map py_lower (out ++ kept)%list)
      /\ (forall a, a ∈ raw -> py_lower a ∈ map py_lower (out ++ kept)%list)
      /\ (forall a, a ∈ kept ->
            List.find (fun x => String.eqb (py_lower x) (py_lower a)) raw = Some a).
Proof.
  induction raw as [|x raw IH]; intros seen out Hseen Hnd; simpl.
  - exists []. rewrite app_nil_r. split; [reflexivity|]. split; [constructor|].
    split; [exact Hnd|]. split; intros a Ha; inversion Ha.
  - destruct (decide (py_lower x ∈ seen)) as [Hin|Hnot].
    + destruct (IH seen out Hseen Hnd) as (kept & Hrun & Hsub & Hnd' & Hcover & Hfirst).
      exists kept. split; [exact Hrun|]. split; [apply sublist_cons, Hsub|].
      split; [exact Hnd'|]. split.
      * intros a Ha. apply elem_of_cons in Ha as [->|Ha]; [|apply Hcover, Ha].
        rewrite map_app. apply elem_of_app. left. apply Hseen, Hin.
      * intros a Ha. destruct (String.eqb_spec (py_lower x) (py_lower a)) as [Heq|_];
          [|apply Hfirst, Ha].
        exfalso. rewrite map_app in Hnd'. apply NoDup_app in Hnd' as (_ & Hdisj & _).
        apply (Hdisj (py_lower a)).
        -- rewrite <- Heq. apply Hseen, Hin.
        -- apply list_elem_of_fmap. exists a. split; [reflexivity|exact Ha].
    + destruct (IH ({[py_lower x]} ∪ seen) (out ++ [x])%list)
        as (kept & Hrun & Hsub & Hnd' & Hcover & Hfirst).
      * intros y. rewrite map_app, elem_of_app, elem_of_union, elem_of_singleton, Hseen.
        simpl. rewrite elem_of_cons, elem_of_nil. tauto.
      * rewrite map_app. apply NoDup_app. split; [exact Hnd|]. split.
        -- intros y Hy Hy'. simpl in Hy'. apply elem_of_cons in Hy' as [->|Hy'];
             [|inversion Hy']. apply Hnot, Hseen, Hy.
        -- simpl. apply NoDup_singleton.
      * rewrite <- app_assoc in Hrun, Hnd', Hcover. simpl in Hrun, Hnd', Hcover.
        exists (x :: kept). split; [exact Hrun|]. split; [apply sublist_skip, Hsub|].
        split; [exact Hnd'|]. split.
        -- intros a Ha. apply elem_of_cons in Ha as [->|Ha]; [|apply Hcover, Ha].
           rewrite map_app. apply elem_of_app. right. left.
        -- intros a Ha. apply elem_of_cons in Ha as [->|Ha].
           ++ rewrite String.eqb_refl. reflexivity.
           ++ destruct (String.eqb_spec (py_lower x) (py_lower a)) as [Heq|_];
                [|apply Hfirst, Ha].
              exfalso. rewrite map_app in Hnd'. apply NoDup_app in Hnd' as (_ & _ & Hnd').
              simpl in Hnd'. apply NoDup_cons in Hnd' as [Hx _]. apply Hx.
              rewrite Heq. apply list_elem_of_fmap. exists a. split; [reflexivity|exact Ha].
Qed.

(** X20.  [load_addresses] keeps, of the stripped non-blank lines and in
    their order, the first spelling of every address: no two addresses it
    returns are the same ignoring case, every line is represented by one of
    them, and each of them is the first line with its lower-case form. *)
Theorem load_addresses_keeps_first_spellings :
  forall (lines : list string),
    let raw := BatchStats.stripped_lines lines in
    let out := BatchStats.load_addresses lines in
    sublist out raw
    /\ NoDup (map py_lower out)
    /\ (forall a, a ∈ raw -> py_lower a ∈ map py_lower out)
    /\ (forall a, a ∈ out ->
          List.find (fun x => String.eqb (py_lower x) (py_lower a)) raw = Some a).
Proof.
  intros lines raw out. subst out. unfold BatchStats.load_addresses. fold raw.
  destruct (dedup_spec raw ∅ []) as (kept & Hrun & Hsub & Hnd & Hcover & Hfirst).
  - intros x. simpl. rewrite elem_of_nil. set_solver.
  - constructor.
  - rewrite Hrun. simpl in *. repeat split; assumption.
Qed.

Lemma fetch_pages_collects get action address pages k :
  serves_pages get action address pages ->
  ~ full_page (pages k) ->
  forall d page all_txs sent fuel,
    (page + d = k)%nat ->
    (forall j, (page <= j < k)%nat -> full_page (pages j)) ->
    (d < fuel)%nat ->
    BatchStats.fetch_pages get action address fuel page all_txs sent
    = Some (Ok (all_txs ++ concat (map (fun j => page_items (pages j)) (seq page (S d))))%list,
            (sent + S d)%nat).
Proof.
  intros Hserve Hshort. unfold full_page in *.
  induction d as [|d IH]; intros page all_txs sent fuel Hk Hfull Hfuel;
    (destruct fuel as [|fuel]; [lia|]); cbn [BatchStats.fetch_pages];
    destruct (Hserve sent page) as (data & -> & Hres);
    cbn [mbind result_bind]; rewrite Hres.
  - replace page with k in * by lia.
    cbn [seq map concat]. rewrite app_nil_r, Nat.add_1_r.
    destruct (pages k) as [| | | |[|tx txs]|]; cbn [page_items] in *;
      rewrite ?app_nil_r; try reflexivity.
    destruct (Z.ltb_spec (Z.of_nat (length (tx :: txs))) BatchStats.MAX_OFFSET);
      [reflexivity|contradiction].
  - specialize (Hfull page ltac:(lia)) as Hpage.
    destruct (pages page) as [| | | |[|tx txs]|] eqn:Hp; cbn [page_items] in Hpage;
      try (unfold BatchStats.MAX_OFFSET in Hpage; simpl in Hpage; lia).
    destruct (Z.ltb_spec (Z.of_nat (length (tx :: txs))) BatchStats.MAX_OFFSET); [lia|].
    rewrite (IH (S page) _ (S sent) fuel); [|lia|intros j Hj; apply Hfull; lia|lia].
    cbn [seq map concat]. rewrite Hp. cbn [page_items].
    rewrite <- app_assoc. do 2 f_equal. lia.
Qed.

(** X21.  When no request fails, [fetch_external_txs] and
    [fetch_internal_txs] return the transactions of the pages 1 to [k] in
    their order, [k] being the first page that is not full, and send [k]
    requests.  A page whose [result] is not a list, whatever message it is,
    ends the paging like an empty page: what was collected is returned. *)
Theorem paging_stops_at_first_short_page :
  forall (get : BatchStats.page_getter) (address : string) (pages : nat -> pyval)
         (k fuel budget sent : nat),
    serves_pages get "txlist" address pages ->
    serves_pages get "txlistinternal" address pages ->
    (1 <= k <= fuel)%nat ->
    (forall j, (1 <= j < k)%nat -> full_page (pages j)) ->
    ~ full_page (pages k) ->
    let collected := concat (map (fun j => page_items (pages j)) (seq 1 k)) in
    BatchStats.fetch_external_txs_paged get address fuel budget sent
    = Some (Ok collected, (sent + k)%nat)
    /\ BatchStats.fetch_internal_txs_paged get address fuel budget sent
       = Some (Ok collected, (sent + k)%nat).
Proof.
  intros get address pages k fuel budget sent Hext Hint Hk Hfull Hshort collected.
  subst collected.
  unfold BatchStats.fetch_external_txs_paged, BatchStats.fetch_internal_txs_paged.
  destruct k as [|d]; [lia|].
  split; destruct budget; cbn [BatchStats.fetch_txs].
  1, 2: rewrite (fetch_pages_collects get _ address pages (S d) Hext Hshort d 1 [] sent
                   fuel ltac:(lia) Hfull ltac:(lia)); reflexivity.
  all: rewrite (fetch_pages_collects get _ address pages (S d) Hint Hshort d 1 [] sent
                  fuel ltac:(lia) Hfull ltac:(lia)); reflexivity.
Qed.

Lemma paging_stops_at_first_short_page_witness :
  BatchStats.fetch_external_txs_paged Examples.limited_api "0xaa" 5 0 0
  = Some (Ok (replicate (Z.to_nat 10000) Examples.tx_aa_cc), 2%nat).
Proof.
  pose (pages := fun j : nat =>
          if (j =? 1)%nat then VList (replicate (Z.to_nat 10000) Examples.tx_aa_cc)
          else VStr "Max rate limit reached").
  assert (Hserve : forall action, serves_pages Examples.limited_api action "0xaa" pages).
  { intros action n j. eexists. split; reflexivity. }
  destruct (paging_stops_at_first_short_page Examples.limited_api "0xaa" pages 2 5 0 0
              (Hserve _) (Hserve _) ltac:(lia)) as [Hrun _].
  - intros j Hj. replace j with 1%nat by lia. unfold full_page, pages. cbn [Nat.eqb page_items].
    rewrite length_replicate. unfold BatchStats.MAX_OFFSET. lia.
  - unfold full_page, pages, BatchStats.MAX_OFFSET. simpl. lia.
  - rewrite Hrun. unfold pages. cbn [seq map concat Nat.eqb page_items Nat.add].
    rewrite !app_nil_r. reflexivity.
Defined.

(** X22.  When every page is full the paging has no end: whatever the
    number of turns allowed, [fetch_external_txs] and [fetch_internal_txs]
    have not returned. *)
Theorem paging_over_full_pages_never_ends :
  forall (get : BatchStats.page_getter) (address : string) (pages : nat -> pyval)
         (fuel budget sent : nat),
    serves_pages get "txlist" address pages ->
    serves_pages get "txlistinternal" address pages ->
    (forall j, full_page (pages j)) ->
    BatchStats.fetch_external_txs_paged get address fuel budget sent = None
    /\ BatchStats.fetch_internal_txs_paged get address fuel budget sent = None.
Proof.
  intros get address pages fuel budget sent Hext Hint Hfull.
  assert (Hloop : forall action, serves_pages get action address pages ->
            forall fuel page all_txs sent,
              BatchStats.fetch_pages get action address fuel page all_txs sent = None).
  { intros action Hserve. induction fuel0 as [|fuel0 IH]; intros page all_txs sent0;
      [reflexivity|]. cbn [BatchStats.fetch_pages].
    destruct (Hserve sent0 page) as (data & -> & Hres). cbn [mbind result_bind]. rewrite Hres.
    specialize (Hfull page). unfold full_page in Hfull.
    destruct (pages page) as [| | | |[|tx txs]|]; cbn [page_items] in Hfull;
      try (unfold BatchStats.MAX_OFFSET in Hfull; simpl in Hfull; lia).
    destruct (Z.ltb_spec (Z.of_nat (length (tx :: txs))) BatchStats.MAX_OFFSET); [lia|].
    apply IH. }
  unfold BatchStats.fetch_external_txs_paged, BatchStats.fetch_internal_txs_paged.
  split; destruct budget; cbn [BatchStats.fetch_txs]; rewrite Hloop by assumption;
    reflexivity.
Qed.

Lemma paging_over_full_pages_never_ends_witness :
  BatchStats.fetch_external_txs_paged Examples.endless_api "0xaa" 3 0 0 = None.
Proof.
  pose (pages := fun _ : nat => VList (replicate (Z.to_nat 10000) Examples.tx_aa_cc)).
  assert (Hserve : forall action, serves_pages Examples.endless_api action "0xaa" pages).
  { intros action n j. eexists. split; reflexivity. }
  refine (proj1 (paging_over_full_pages_never_ends Examples.endless_api "0xaa" pages 3 0 0
                   (Hserve _) (Hserve _) _)).
  intros j. unfold full_page, pages. cbn [page_items]. rewrite length_replicate.
  unfold BatchStats.MAX_OFFSET. lia.
Defined.

Lemma classify_for_address_names api budget address st row st' :
  BatchStats.classify_for_address api budget address st = (Ok row, st') ->
  AddressStats.address row = address.
Proof.
  unfold BatchStats.classify_for_address.
  destruct (BatchStats.get_eth_balance api address); [|discriminate].
  destruct (BatchStats.fetch_external_txs api address); [|discriminate].
  destruct (BatchStats.fetch_internal_txs api address); [|discriminate].
  destruct (BatchStats.classify_ext _ _ _ _ _ _) as [[n|] st1]; [|discriminate].
  destruct (BatchStats.classify_internal _ _ _); [|discriminate].
  intros [= <- _]. reflexivity.
Qed.

Lemma classify_all_sublist api budget addresses :
  forall results st,
    exists kept,
      map AddressStats.address (fst (BatchStats.classify_all api budget addresses results st))
      = (map AddressStats.address results ++ kept)%list
      /\ sublist kept addresses.
Proof.
  induction addresses as [|addr rest IH]; intros results st; simpl.
  - exists []. rewrite app_nil_r. split; [reflexivity|constructor].
  - destruct (BatchStats.classify_for_address api budget addr st) as [[row|e] st1] eqn:Hc.
    + destruct (IH (results ++ [row])%list st1) as (kept & Hrun & Hsub).
      exists (addr :: kept). split; [|apply sublist_skip, Hsub].
      rewrite Hrun, map_app, <- app_assoc. simpl.
      rewrite (classify_for_address_names _ _ _ _ _ _ Hc). reflexivity.
    + destruct (IH results st1) as (kept & Hrun & Hsub).
      exists kept. split; [exact Hrun|apply sublist_cons, Hsub].
Qed.

Lemma main_rows api budget lines rows :
  BatchStats.main api budget (Some lines) = Some rows ->
  rows = fst (BatchStats.classify_all api budget (BatchStats.load_addresses lines) []
                (BatchStats.mkState ∅ 0)).
Proof.
  unfold BatchStats.main.
  destruct (BatchStats.load_addresses lines); [discriminate|].
  intros [= <-]. reflexivity.
Qed.

(** X23.  The rows that [main] writes are about addresses that
    [load_addresses] returns, in that order and in that spelling, with at
    most one row for each: no two rows are about the same address ignoring
    case, and there are no more rows than lines in the file. *)
Theorem main_writes_one_row_per_address :
  forall (api : BatchStats.Etherscan) (budget : nat) (lines : list string)
         (rows : list AddressStats.t),
    BatchStats.main api budget (Some lines) = Some rows ->
    sublist (map AddressStats.address rows) (BatchStats.load_addresses lines)
    /\ NoDup (map py_lower (map AddressStats.address rows))
    /\ (length rows <= length lines)%nat.
Proof.
  intros api budget lines rows Hmain. apply main_rows in Hmain. subst rows.
  assert (Hload : sublist (BatchStats.load_addresses lines) (BatchStats.stripped_lines lines)
                  /\ NoDup (map py_lower (BatchStats.load_addresses lines))).
  { unfold BatchStats.load_addresses.
    destruct (dedup_spec (BatchStats.stripped_lines lines) ∅ [])
      as (kept0 & -> & Hsub & Hnd & _ & _).
    - intros x. simpl. rewrite elem_of_nil. set_solver.
    - constructor.
    - simpl in *. split; assumption. }
  destruct Hload as [Hsub Hnd].
  match goal with
  | |- context [BatchStats.classify_all _ _ _ _ ?st] =>
      destruct (classify_all_sublist api budget (BatchStats.load_addresses lines) [] st)
        as (kept & Hrun & Hkept)
  end.
  simpl in Hrun. split; [rewrite Hrun; exact Hkept|]. split.
  - rewrite Hrun. eapply sublist_NoDup; [exact Hnd|]. apply (fmap_sublist py_lower), Hkept.
  - rewrite <- (length_map AddressStats.address), Hrun.
    apply sublist_length in Hkept, Hsub.
    etransitivity; [exact Hkept|]. etransitivity; [exact Hsub|].
    unfold BatchStats.stripped_lines.
    etransitivity; [apply List.filter_length_le|]. rewrite length_map. reflexivity.
Qed.

Lemma main_writes_one_row_per_address_witness :
  exists rows,
    BatchStats.main Examples.etherscan_one_tx 0 (Some ["0xAA"; " 0xaa "; ""; "0xcc"])
    = Some rows
    /\ map AddressStats.address rows = ["0xAA"; "0xcc"]
    /\ NoDup (map py_lower (map AddressStats.address rows)).
Proof.
  eexists. split; [vm_compute; reflexivity|]. split; [reflexivity|].
  refine (proj1 (proj2 (main_writes_one_row_per_address Examples.etherscan_one_tx 0
                          ["0xAA"; " 0xaa "; ""; "0xcc"] _ _))).
  vm_compute. reflexivity.
Defined.

(** ** The two copies of [count_internal_receives] *)

Lemma flat_entry_not_dict target t :
  is_dict t = false -> try_except (flat_entry_hit target t) false = false.
Proof. destruct t; try reflexivity. discriminate. Qed.

Lemma count_flat_no_dict target entries :
  Forall (fun t => is_dict t = false) entries ->
  forall cnt, count_flat target entries cnt = cnt.
Proof.
  unfold count_flat. induction 1 as [|t entries Ht _ IH]; intros cnt; simpl; [reflexivity|].
  rewrite (flat_entry_not_dict target t Ht). apply IH.
Qed.

(** X24.  The copy of [count_internal_receives] in the public RPC script
    and the one in the high-performance script agree: whenever the former
    returns a count the latter returns the same, and when the former raises
    the latter raises the same, except for a [trace_block] payload that
    cannot be iterated, on which the former raises [TypeError] and the
    latter returns 0. *)
Theorem count_internal_receives_copies_agree :
  forall (trace_method payload : pyval) (target : string),
    match PublicRpc.count_internal_receives trace_method payload target with
    | Ok c => HighPerf.count_internal_receives trace_method payload target = Ok c
    | Raise e =>
        HighPerf.count_internal_receives trace_method payload target = Raise e
        \/ (trace_method = VStr "trace_block" /\ e = TypeError
            /\ py_iter payload = Raise TypeError
            /\ HighPerf.count_internal_receives trace_method payload target = Ok 0)
    end.
Proof.
  intros m payload target.
  unfold PublicRpc.count_internal_receives, HighPerf.count_internal_receives.
  destruct (eq_str m "trace_block") eqn:Hm.
  - assert (Hmeq : m = VStr "trace_block").
    { destruct m; try discriminate. simpl in Hm. apply String.eqb_eq in Hm. congruence. }
    destruct payload as [|b|z|s|l|kvs]; simpl;
      try (right; repeat split; assumption || reflexivity).
    + rewrite count_flat_no_dict; [reflexivity|]. apply Forall_forall. intros t Ht.
      apply list_elem_of_In, in_map_iff in Ht as (c & <- & _). reflexivity.
    + reflexivity.
    + rewrite count_flat_no_dict; [reflexivity|]. apply Forall_forall. intros t Ht.
      apply list_elem_of_In, in_map_iff in Ht as (kv & <- & _). reflexivity.
  - destruct (eq_str m "debug_trace"); [|reflexivity].
    destruct (count_debug (py_lower target) payload); [reflexivity|left; reflexivity].
Qed.

(** ** The retries of [is_contract] in the Etherscan script *)

Lemma batch_is_contract_body_lookups api address st r st' :
  BatchStats.is_contract_body api address st = (r, st') ->
  (BatchStats.lookups st' <= S (BatchStats.lookups st))%nat
  /\ (r = Raise TransportError -> BatchStats.lookups st' = S (BatchStats.lookups st)
                                  /\ BatchStats.contract_cache st' = BatchStats.contract_cache st).
Proof.
  unfold BatchStats.is_contract_body.
  destruct (BatchStats.contract_cache st !! py_lower address).
  - intros [= <- <-]. split; [lia|discriminate].
  - destruct (BatchStats.get_code_body api _ address) as [data|e].
    + destruct (py_get data "result" (VStr "0x")) as [code|e].
      * intros [= <- <-]. simpl. split; [lia|discriminate].
      * intros [= <- <-]. simpl. split; [lia|]. intros _. split; reflexivity.
    + intros [= <- <-]. simpl. split; [lia|]. intros _. split; reflexivity.
Qed.

(** X25.  [is_contract] of the Etherscan script, which is retried on a
    [requests] exception [budget] times, sends at most [budget + 1] code
    lookups.  When it still ends with a [requests] exception it has sent
    exactly that many and the cache is as it was. *)
Theorem is_contract_spends_its_budget :
  forall (api : BatchStats.Etherscan) (budget : nat) (address : string)
         (st st' : BatchStats.state) (r : result bool),
    BatchStats.is_contract api budget address st = (r, st') ->
    (BatchStats.lookups st' <= BatchStats.lookups st + budget + 1)%nat
    /\ (r = Raise TransportError ->
        BatchStats.lookups st' = (BatchStats.lookups st + budget + 1)%nat
        /\ BatchStats.contract_cache st' = BatchStats.contract_cache st).
Proof.
  intros api budget. induction budget as [|budget IH]; intros address st st' r; simpl.
  - destruct (BatchStats.is_contract_body api address st) as [r0 st0] eqn:Hbody.
    apply batch_is_contract_body_lookups in Hbody as [Hle Hfail].
    destruct r0 as [b|[]]; intros [= <- <-];
      (split; [lia|]); try discriminate.
    intros _. destruct (Hfail eq_refl) as [-> ->]. split; [lia|reflexivity].
  - destruct (BatchStats.is_contract_body api address st) as [r0 st0] eqn:Hbody.
    apply batch_is_contract_body_lookups in Hbody as [Hle Hfail].
    destruct r0 as [b|[]]; try (intros [= <- <-]; (split; [lia|]); discriminate).
    intros Hrest. apply IH in Hrest as [Hle' Hfail'].
    destruct (Hfail eq_refl) as [Hl Hc]. split; [lia|].
    intros Hr. destruct (Hfail' Hr) as [Hl' Hc']. split; [lia|congruence].
Qed.

Lemma is_contract_spends_its_budget_witness :
  let api := BatchStats.mkApi (fun _ _ => Raise TransportError) (fun _ => Ok 0)
               (fun _ => Ok []) (fun _ => Ok []) in
  BatchStats.lookups (snd (BatchStats.is_contract api 3 "0xcc" (BatchStats.mkState ∅ 0)))
  = 4%nat.
Proof.
  intros api.
  destruct (BatchStats.is_contract api 3 "0xcc" (BatchStats.mkState ∅ 0)) as [r st'] eqn:Hrun.
  assert (Hr : r = Raise TransportError).
  { change r with (fst (r, st')). rewrite <- Hrun. vm_compute. reflexivity. }
  exact (proj1 (proj2 (is_contract_spends_its_budget api 3 "0xcc" _ st' r Hrun) Hr)).
Defined.

(** ** Every transaction is counted once *)

Lemma sum_counts_add_absent d k inc l :
  k ∉ l -> sum_counts (add d k inc) l = sum_counts d l.
Proof.
  induction l as [|a l IH]; intros Hk; simpl; [reflexivity|].
  rewrite count_of_add, decide_False by (intros ->; apply Hk; left).
  rewrite IH; [reflexivity|]. intros Hin. apply Hk. right. exact Hin.
Qed.

Lemma sum_counts_add d k inc l :
  NoDup l -> k ∈ l -> sum_counts (add d k inc) l = sum_counts d l + inc.
Proof.
  induction 1 as [|a l Ha Hnd IH]; intros Hk; [inversion Hk|]. simpl.
  rewrite count_of_add. destruct (decide (a = k)) as [->|Hne].
  - rewrite sum_counts_add_absent by exact Ha. lia.
  - apply elem_of_cons in Hk as [Hk|Hk]; [congruence|]. rewrite IH by exact Hk. lia.
Qed.

Lemma tally_scan_tx w3 tx s ns nr :
  tally s ns nr ->
  tally (PublicRpc.scan_tx w3 false tx s)
        (ns + (if has_sender tx then 1 else 0)) (nr + (if has_receiver tx then 1 else 0)).
Proof.
  intros Htally l Hnd Hsub. unfold has_sender, has_receiver.
  unfold PublicRpc.scan_tx in *. cbv zeta in *.
  destruct (String.eqb (PublicRpc.tx_from tx) "") eqn:Hf;
    destruct (String.eqb (PublicRpc.tx_to tx) "") eqn:Ht; cbn [negb].
  - simpl in *. destruct (Htally l Hnd Hsub) as [-> ->]. split; lia.
  - destruct (PublicRpc.is_contract w3 _ _ _) as [[r cache'] calls']. simpl in *.
    destruct (Htally l Hnd) as [-> <-]; [intros a Ha; apply Hsub; set_solver|].
    rewrite sum_counts_add; [split; lia|exact Hnd|apply Hsub; set_solver].
  - simpl in *.
    destruct (Htally l Hnd) as [<- ->]; [intros a Ha; apply Hsub; set_solver|].
    rewrite sum_counts_add; [split; lia|exact Hnd|apply Hsub; set_solver].
  - destruct (PublicRpc.is_contract w3 _ _ _) as [[r cache'] calls']. simpl in *.
    destruct (Htally l Hnd) as [<- <-]; [intros a Ha; apply Hsub; set_solver|].
    rewrite !sum_counts_add; [split; lia|exact Hnd|apply Hsub; set_solver
                             |exact Hnd|apply Hsub; set_solver].
Qed.

Lemma tally_scan_txs w3 txs :
  forall s ns nr,
    tally s ns nr ->
    tally (fold_left (fun acc tx => PublicRpc.scan_tx w3 false tx acc) txs s)
          (ns + count_where has_sender txs) (nr + count_where has_receiver txs).
Proof.
  unfold count_where.
  induction txs as [|tx txs IH]; intros s ns nr Htally; simpl.
  - rewrite !Z.add_0_r. exact Htally.
  - apply (tally_scan_tx w3 tx) in Htally. apply IH in Htally.
    destruct (has_sender tx), (has_receiver tx); simpl length;
      rewrite ?Nat2Z.inj_succ; rewrite ?Z.add_0_r in Htally;
      (replace (ns + Z.succ (Z.of_nat (length (List.filter has_sender txs))))
         with (ns + 1 + Z.of_nat (length (List.filter has_sender txs))) by lia);
      (replace (nr + Z.succ (Z.of_nat (length (List.filter has_receiver txs))))
         with (nr + 1 + Z.of_nat (length (List.filter has_receiver txs))) by lia);
      exact Htally.
Qed.

Lemma trace_addr_keeps method payload addr s :
  let s' := PublicRpc.trace_addr method payload addr s in
  PublicRpc.sent_txs s' = PublicRpc.sent_txs s
  /\ PublicRpc.received_txs s' = PublicRpc.received_txs s
  /\ PublicRpc.seen_addrs s ⊆ PublicRpc.seen_addrs s'.
Proof.
  unfold PublicRpc.trace_addr.
  destruct (PublicRpc.count_internal_receives method payload addr) as [c|];
    [|repeat split; set_solver].
  destruct (c =? 0); simpl; repeat split; set_solver.
Qed.

Lemma tally_scan_trace w3 bn txs s ns nr :
  tally s ns nr -> tally (PublicRpc.scan_trace w3 bn txs s) ns nr.
Proof.
  intros Htally. unfold PublicRpc.scan_trace.
  destruct (PublicRpc.try_trace_block w3 bn (PublicRpc.calls s)) as [[method payload] calls'].
  destruct (truthy method && truthy payload); [|exact Htally].
  apply (set_fold_ind_L (fun r (_ : gset string) => tally r ns nr)); [exact Htally|].
  intros x X r _ IH l Hnd Hsub.
  destruct (trace_addr_keeps method payload x r) as (-> & -> & Hseen).
  apply IH; [exact Hnd|]. intros a Ha. apply Hsub, Hseen, Ha.
Qed.

Lemma tally_scan_blocks w3 trace_enabled (blocks : Z -> list PublicRpc.tx_data) bns :
  (forall n bn, PublicRpc.get_block_with_retries w3 n bn = Ok (blocks bn)) ->
  forall s ns nr,
    tally s ns nr ->
    exists s',
      PublicRpc.scan_blocks w3 false trace_enabled bns s = Ok s'
      /\ tally s' (ns + count_where has_sender (concat (map blocks bns)))
                  (nr + count_where has_receiver (concat (map blocks bns))).
Proof.
  intros Hblocks. unfold count_where.
  induction bns as [|bn bns IH]; intros s ns nr Htally; simpl.
  - exists s. rewrite !Z.add_0_r. split; [reflexivity|exact Htally].
  - unfold PublicRpc.scan_block. rewrite Hblocks.
    set (s0 := PublicRpc.mkScan _ _ _ _ _ _ _).
    assert (H0 : tally s0 ns nr) by exact Htally.
    apply (tally_scan_txs w3 (blocks bn)) in H0.
    set (s1 := fold_left _ (blocks bn) s0) in *.
    assert (H1 : tally (if trace_enabled then PublicRpc.scan_trace w3 bn (blocks bn) s1 else s1)
                   (ns + count_where has_sender (blocks bn))
                   (nr + count_where has_receiver (blocks bn))).
    { destruct trace_enabled; [apply tally_scan_trace|]; exact H0. }
    destruct (IH _ _ _ H1) as (s' & Hrun & Hend).
    exists s'. split; [exact Hrun|].
    unfold count_where in *. rewrite !List.filter_app, !length_app, !Nat2Z.inj_add.
    rewrite <- !Z.add_assoc in Hend. exact Hend.
Qed.

Lemma sum_of_rows s balances l :
  sum_of AddressStats.sent_txs (map (PublicRpc.build_row s balances) l)
  = sum_counts (PublicRpc.sent_txs s) l
  /\ sum_of AddressStats.received_txs (map (PublicRpc.build_row s balances) l)
     = sum_counts (PublicRpc.received_txs s) l.
Proof.
  unfold sum_of. induction l as [|a l [IHs IHr]]; simpl; [split; reflexivity|].
  rewrite IHs, IHr. split; reflexivity.
Qed.

(** X26.  When every receipt is taken as it is ([check_success] off), the
    provider serves the blocks and no [balance_limit] cuts the rows, the
    scan counts every transaction once on each side: the [sent_txs] of the
    rows add up to the number of transactions with a sender in the scanned
    blocks, the [received_txs] to the number of those with a receiver. *)
Theorem scan_counts_every_transaction_once :
  forall (w3 : PublicRpc.Web3) (blocks : Z -> list PublicRpc.tx_data)
         (start_block end_block : Z) (with_balances : bool) (balance_limit : Z)
         (trace_enabled : bool),
    (forall n bn, PublicRpc.get_block_with_retries w3 n bn = Ok (blocks bn)) ->
    balance_limit <= 0 ->
    exists rows,
      PublicRpc.scan_range w3 start_block end_block false with_balances balance_limit
        trace_enabled = Ok rows
      /\ let txs := concat (map blocks (PublicRpc.block_range start_block end_block)) in
         sum_of AddressStats.sent_txs rows = count_where has_sender txs
         /\ sum_of AddressStats.received_txs rows = count_where has_receiver txs.
Proof.
  intros w3 blocks sb eb wb bl te Hblocks Hbl.
  assert (Hinit : tally PublicRpc.scan_init 0 0).
  { intros l _ _. simpl. unfold sum_counts, count_of.
    induction l as [|a l IH]; simpl; [split; reflexivity|].
    rewrite lookup_empty. simpl. exact IH. }
  destruct (tally_scan_blocks w3 te blocks (PublicRpc.block_range sb eb) Hblocks _ _ _ Hinit)
    as (s & Hrun & Hend).
  unfold PublicRpc.scan_range. rewrite Hrun. cbn [mbind result_bind].
  eexists. split; [reflexivity|]. cbv zeta.
  unfold PublicRpc.emit_rows.
  replace (0 <? bl) with false by (symmetry; apply Z.ltb_ge; lia).
  destruct (sum_of_rows s (if wb then
              (PublicRpc.get_balances w3 (sorted_strings (elements (PublicRpc.seen_addrs s)))
                 (PublicRpc.calls s) ∅).1 else ∅)
              (sorted_strings (elements (PublicRpc.seen_addrs s)))) as [-> ->].
  rewrite !Z.add_0_l in Hend. apply Hend.
  - unfold sorted_strings. rewrite merge_sort_Permutation. apply NoDup_elements.
  - intros a Ha. unfold sorted_strings. rewrite merge_sort_Permutation.
    apply elem_of_elements, Ha.
Qed.

Lemma scan_counts_every_transaction_once_witness :
  exists rows,
    PublicRpc.scan_range Examples.node_one_tx 10 12 false true 0 true = Ok rows
    /\ sum_of AddressStats.sent_txs rows = 3
    /\ sum_of AddressStats.received_txs rows = 3.
Proof.
  destruct (scan_counts_every_transaction_once Examples.node_one_tx
              (fun _ => [[("from", VStr Examples.addr_a); ("to", VStr Examples.addr_b);
                          ("hash", VStr "01")]])
              10 12 true 0 true (fun _ _ => eq_refl) ltac:(lia))
    as (rows & Hrun & Hsent & Hrecv).
  exists rows. split; [exact Hrun|]. split; [exact Hsent|exact Hrecv].
Defined.

(** ** Counting successful transactions only *)

Lemma scan_tx_skipped w3 tx s :
  (forall h cs, fst (PublicRpc.get_tx_status w3 h cs) = 0) ->
  PublicRpc.seen_addrs (PublicRpc.scan_tx w3 true tx s) = PublicRpc.seen_addrs s.
Proof.
  intros Hfail. unfold PublicRpc.scan_tx.
  destruct (PublicRpc.get_tx_status w3 (PublicRpc.tx_hash_hex tx) (PublicRpc.calls s))
    as [st cs] eqn:Hst.
  pose proof (Hfail (PublicRpc.tx_hash_hex tx) (PublicRpc.calls s)) as Hzero.
  rewrite Hst in Hzero. simpl in Hzero. subst st. reflexivity.
Qed.

(** X27.  With [check_success] on and without traces, when no receipt
    shows the status 1, because the transactions failed or because the
    receipts cannot be fetched, no address is observed: the scan emits no
    row. *)
Theorem unconfirmed_transactions_leave_no_row :
  forall (w3 : PublicRpc.Web3) (start_block end_block : Z) (with_balances : bool)
         (balance_limit : Z) (rows : list AddressStats.t),
    (forall h cs, fst (PublicRpc.get_tx_status w3 h cs) = 0) ->
    PublicRpc.scan_range w3 start_block end_block true with_balances balance_limit false
    = Ok rows ->
    rows = [].
Proof.
  intros w3 sb eb wb bl rows Hfail. unfold PublicRpc.scan_range.
  destruct (PublicRpc.scan_blocks _ _ _ _ _) as [s|] eqn:Hblocks; [|discriminate].
  cbn [mbind result_bind]. intros [= <-].
  assert (Hseen : PublicRpc.seen_addrs s = ∅).
  { change (PublicRpc.seen_addrs s = PublicRpc.seen_addrs PublicRpc.scan_init).
    revert Hblocks. generalize PublicRpc.scan_init.
    induction (PublicRpc.block_range sb eb) as [|bn bns IH]; intros s0; simpl.
    - intros [= <-]. reflexivity.
    - unfold PublicRpc.scan_block.
      destruct (PublicRpc.get_block_with_retries w3 _ bn) as [txs|]; [|discriminate].
      cbn [mbind result_bind]. intros Hrest. apply IH in Hrest. rewrite Hrest.
      set (s1 := PublicRpc.mkScan _ _ _ _ _ _ _).
      change (PublicRpc.seen_addrs s0) with (PublicRpc.seen_addrs s1).
      generalize s1. clear -Hfail.
      induction txs as [|tx txs IHt]; intros s1; simpl; [reflexivity|].
      rewrite IHt. apply scan_tx_skipped, Hfail. }
  unfold PublicRpc.emit_rows. rewrite Hseen, elements_empty.
  change (sorted_strings []) with (@nil string).
  destruct (0 <? bl); rewrite ?take_nil; reflexivity.
Qed.

Lemma unconfirmed_transactions_leave_no_row_witness :
  let w3 := PublicRpc.mkWeb3
              (PublicRpc.to_checksum_address Examples.node_one_tx)
              (PublicRpc.get_block_with_retries Examples.node_one_tx)
              (PublicRpc.get_code Examples.node_one_tx)
              (fun _ _ => Ok (VInt 0))
              (PublicRpc.make_request Examples.node_one_tx)
              (PublicRpc.get_balance Examples.node_one_tx) in
  PublicRpc.scan_range w3 10 11 true true 0 false = Ok [].
Proof.
  intros w3.
  destruct (PublicRpc.scan_range w3 10 11 true true 0 false) as [rows|e] eqn:Hrun;
    [|exfalso; revert Hrun; vm_compute; discriminate].
  f_equal.
  exact (unconfirmed_transactions_leave_no_row w3 10 11 true 0 rows
           (fun _ _ => eq_refl) Hrun).
Defined.

Lemma load_addresses_keeps_first_spellings_witness :
  BatchStats.load_addresses ["0xAA"; " 0xaa "; ""; "0xcc"] = ["0xAA"; "0xcc"]
  /\ List.find (fun x => String.eqb (py_lower x) (py_lower "0xAA"))
       (BatchStats.stripped_lines ["0xAA"; " 0xaa "; ""; "0xcc"]) = Some "0xAA".
Proof.
  split; [vm_compute; reflexivity|].
  apply (proj2 (proj2 (proj2 (load_addresses_keeps_first_spellings
                                ["0xAA"; " 0xaa "; ""; "0xcc"])))).
  vm_compute. left.
Defined.
